(** * The data-cleaning engine of the unified data store

    A shallow embedding of the cleaning code of
    [src/store/unified-data-store.ts]: the missing-cell classifier, the
    statistic helpers, the per-column imputation loop of
    [processMissingValues], and the row editors [removeDuplicates] and
    [removeOutliers].

    Conventions of the embedding.
    - A JavaScript number is an IEEE-754 binary64 value: Rocq's primitive
      [float], whose operations are the hardware ones.  [Number(s)] and
      [String(x)] are written out: the first rounds the decimal literal to
      the nearest double, the second prints the shortest digits that read
      back.
    - An array length, a row position and a frequency count are integers
      far below [2^53]; they are kept as [nat] or [Z] and turned into a
      number where the source does arithmetic on them.
    - A JavaScript string is a [string]: a sequence of UTF-16 code units,
      each an integer from 0 to 65535.  [trim] and [toLowerCase] follow the
      Unicode Character Database, version 14.0.
    - What depends on the engine that runs the code is a parameter
      ([Engine]): the number of arguments a call can take.
    - Cells are the primitive values a parsed CSV/Excel sheet holds; a row
      is an array of cells.
    - An object used as a map is the list of its own properties: [settings]
      in the order in which [Object.keys] enumerates them, the frequency
      table in creation order, from which [entries] computes the order of
      [Object.entries].
    - A [try] block yields an [outcome]; the caller's hooks may throw.
    The first part works on tables as values; [Module Heap] repeats
    [processMissingValues] over an explicit object store, where sharing and
    mutation are visible, and the two are proved to agree. *)

From Stdlib Require Import ZArith List Bool Lia.
From Stdlib.Strings Require Import Byte.
From Stdlib Require Import Floats.
From Stdlib Require Import Sorting.Permutation Sorting.Sorted.
From stdpp Require Import gmap list.

Open Scope Z_scope.

(** ** Numbers *)

Abbreviation number := float.

Definition isNaN (x : number) : bool := PrimFloat.is_nan x.

Definition NaN : number := PrimFloat.nan.

(** The number of an array length or index. *)
Definition number_of_nat (n : nat) : number :=
  PrimFloat.of_uint63 (Uint63.of_Z (Z.of_nat n)).

(** [m * 2^e], rounded to nearest, ties to even; [neg] is the sign. *)
Definition round_binary (neg : bool) (m e : Z) : number :=
  SF2Prim (binary_normalize prec emax (if neg then - m else m) e neg).

Fixpoint digits10_fuel (fuel : nat) (n : Z) : Z :=
  match fuel with
  | O => 0
  | S fuel' => if n <=? 0 then 0 else 1 + digits10_fuel fuel' (n / 10)
  end.

(** Number of decimal digits of a positive integer ([0] for [n <= 0]). *)
Definition digits10 (n : Z) : Z :=
  digits10_fuel (S (Z.to_nat (Z.log2 n))) n.

(** The mathematical value [m * 10^e] ([0 <= m]), rounded to binary64. *)
Definition round_decimal (neg : bool) (m e : Z) : number :=
  if m =? 0 then (if neg then PrimFloat.neg_zero else PrimFloat.zero)
  else if 400 <? digits10 m + e then
    (if neg then PrimFloat.neg_infinity else PrimFloat.infinity)
  else if digits10 m + e <? -400 then
    (if neg then PrimFloat.neg_zero else PrimFloat.zero)
  else if 0 <=? e then round_binary neg (m * 10 ^ e) 0
  else
    let d := 10 ^ (- e) in
    let k := Z.max 0 (64 + Z.log2 d - Z.log2 m) in
    let q := (m * 2 ^ k) / d in
    let r := (m * 2 ^ k) mod d in
    round_binary neg (2 * q + (if r =? 0 then 0 else 1)) (- k - 1).

(** ** Strings *)

(** A UTF-16 code unit. *)
Abbreviation codeUnit := Z.

Inductive string : Type :=
| EmptyString
| String (c : codeUnit) (s : string).

(** String literals: the characters of a literal are ASCII. *)
Fixpoint ofBytes (bytes : list byte) : option string :=
  match bytes with
  | [] => Some EmptyString
  | b :: bytes' =>
      let n := Z.of_N (Byte.to_N b) in
      if n <? 128
      then match ofBytes bytes' with
           | Some s => Some (String n s)
           | None => None
           end
      else None
  end.

Fixpoint toBytes (s : string) : option (list byte) :=
  match s with
  | EmptyString => Some []
  | String c s' =>
      if (0 <=? c) && (c <? 128)
      then match Byte.of_N (Z.to_N c), toBytes s' with
           | Some b, Some bytes => Some (b :: bytes)
           | _, _ => None
           end
      else None
  end.

Declare Scope js_scope.
Delimit Scope js_scope with js.
Bind Scope js_scope with string.
String Notation string ofBytes toBytes : js_scope.
Open Scope js_scope.

Module String.

(** [a === b] on strings. *)
Fixpoint eqb (a b : string) : bool :=
  match a, b with
  | EmptyString, EmptyString => true
  | String c a', String d b' => (c =? d) && eqb a' b'
  | _, _ => false
  end.

Fixpoint append (a b : string) : string :=
  match a with
  | EmptyString => b
  | String c a' => String c (append a' b)
  end.

Fixpoint length (s : string) : nat :=
  match s with
  | EmptyString => O
  | String _ s' => S (length s')
  end.

End String.

Infix "++" := String.append (right associativity, at level 60) : js_scope.

(** The [m] code units of [s] from position [n]. *)
Fixpoint substring (n m : nat) (s : string) : string :=
  match n, m, s with
  | O, O, _ => EmptyString
  | O, S m', EmptyString => s
  | O, S m', String c s' => String c (substring O m' s')
  | S n', _, EmptyString => s
  | S n', _, String c s' => substring n' m s'
  end.

(** The code units of a string, and back: strings are the keys of maps. *)
Fixpoint units (s : string) : list codeUnit :=
  match s with
  | EmptyString => []
  | String c s' => c :: units s'
  end.

Fixpoint ofUnits (l : list codeUnit) : string :=
  match l with
  | [] => EmptyString
  | c :: l' => String c (ofUnits l')
  end.

#[global] Instance string_eq_dec : EqDecision string.
Proof. solve_decision. Defined.

#[global] Instance string_countable : Countable string.
Proof.
  refine (inj_countable' units ofUnits _).
  intros s. induction s as [|c s IH]; [reflexivity|].
  cbn. rewrite IH. reflexivity.
Defined.

Definition code (c : codeUnit) : Z := c.

(** WhiteSpace and LineTerminator: what [trim] strips and [Number] skips. *)
Definition isWhiteSpace (c : codeUnit) : bool :=
  let n := code c in
  ((9 <=? n) && (n <=? 13)) || (n =? 32) || (n =? 0xa0) || (n =? 0x1680)
  || ((0x2000 <=? n) && (n <=? 0x200a)) || (n =? 0x2028) || (n =? 0x2029)
  || (n =? 0x202f) || (n =? 0x205f) || (n =? 0x3000) || (n =? 0xfeff).

Fixpoint trimStart (s : string) : string :=
  match s with
  | EmptyString => EmptyString
  | String c s' => if isWhiteSpace c then trimStart s' else s
  end.

Fixpoint trimEnd (s : string) : string :=
  match s with
  | EmptyString => EmptyString
  | String c s' =>
      match trimEnd s' with
      | EmptyString => if isWhiteSpace c then EmptyString else String c EmptyString
      | t => String c t
      end
  end.

(** [String.prototype.trim]. *)
Definition trim (s : string) : string := trimEnd (trimStart s).

(** *** The case tables

    The lower-case mapping and the two properties that the rule for the
    final sigma consults, from the Unicode Character Database, version 14.0.
    An entry [(first, last, step, delta)] of [lowerCaseRanges] maps the code
    points [first], [first + step], ... up to [last] to themselves plus
    [delta]; no code point is in two entries.  The one mapping to more than
    one code point, of U+0130, is in [lowerOf]. *)
Definition lowerCaseRanges : list (Z * Z * Z * Z) :=
  [
  (0x41, 0x5a, 1, 32); (0xc0, 0xd6, 1, 32); (0xd8, 0xde, 1, 32); (0x100, 0x12e, 2, 1);
   (0x132, 0x136, 2, 1); (0x139, 0x147, 2, 1); (0x14a, 0x176, 2, 1);
   (0x178, 0x178, 1, -121); (0x179, 0x17d, 2, 1); (0x181, 0x181, 1, 210);
   (0x182, 0x184, 2, 1); (0x186, 0x186, 1, 206); (0x187, 0x187, 1, 1);
   (0x189, 0x18a, 1, 205); (0x18b, 0x18b, 1, 1); (0x18e, 0x18e, 1, 79);
   (0x18f, 0x18f, 1, 202); (0x190, 0x190, 1, 203); (0x191, 0x191, 1, 1);
   (0x193, 0x193, 1, 205); (0x194, 0x194, 1, 207); (0x196, 0x196, 1, 211);
   (0x197, 0x197, 1, 209); (0x198, 0x198, 1, 1); (0x19c, 0x19c, 1, 211);
   (0x19d, 0x19d, 1, 213); (0x19f, 0x19f, 1, 214); (0x1a0, 0x1a4, 2, 1);
   (0x1a6, 0x1a6, 1, 218); (0x1a7, 0x1a7, 1, 1); (0x1a9, 0x1a9, 1, 218);
   (0x1ac, 0x1ac, 1, 1); (0x1ae, 0x1ae, 1, 218); (0x1af, 0x1af, 1, 1);
   (0x1b1, 0x1b2, 1, 217); (0x1b3, 0x1b5, 2, 1); (0x1b7, 0x1b7, 1, 219);
   (0x1b8, 0x1b8, 1, 1); (0x1bc, 0x1bc, 1, 1); (0x1c4, 0x1c4, 1, 2); (0x1c5, 0x1c5, 1, 1);
   (0x1c7, 0x1c7, 1, 2); (0x1c8, 0x1c8, 1, 1); (0x1ca, 0x1ca, 1, 2); (0x1cb, 0x1db, 2, 1);
   (0x1de, 0x1ee, 2, 1); (0x1f1, 0x1f1, 1, 2); (0x1f2, 0x1f4, 2, 1);
   (0x1f6, 0x1f6, 1, -97); (0x1f7, 0x1f7, 1, -56); (0x1f8, 0x21e, 2, 1);
   (0x220, 0x220, 1, -130); (0x222, 0x232, 2, 1); (0x23a, 0x23a, 1, 10795);
   (0x23b, 0x23b, 1, 1); (0x23d, 0x23d, 1, -163); (0x23e, 0x23e, 1, 10792);
   (0x241, 0x241, 1, 1); (0x243, 0x243, 1, -195); (0x244, 0x244, 1, 69);
   (0x245, 0x245, 1, 71); (0x246, 0x24e, 2, 1); (0x370, 0x372, 2, 1); (0x376, 0x376, 1, 1);
   (0x37f, 0x37f, 1, 116); (0x386, 0x386, 1, 38); (0x388, 0x38a, 1, 37);
   (0x38c, 0x38c, 1, 64); (0x38e, 0x38f, 1, 63); (0x391, 0x3a1, 1, 32);
   (0x3a3, 0x3ab, 1, 32); (0x3cf, 0x3cf, 1, 8); (0x3d8, 0x3ee, 2, 1);
   (0x3f4, 0x3f4, 1, -60); (0x3f7, 0x3f7, 1, 1); (0x3f9, 0x3f9, 1, -7);
   (0x3fa, 0x3fa, 1, 1); (0x3fd, 0x3ff, 1, -130); (0x400, 0x40f, 1, 80);
   (0x410, 0x42f, 1, 32); (0x460, 0x480, 2, 1); (0x48a, 0x4be, 2, 1);
   (0x4c0, 0x4c0, 1, 15); (0x4c1, 0x4cd, 2, 1); (0x4d0, 0x52e, 2, 1);
   (0x531, 0x556, 1, 48); (0x10a0, 0x10c5, 1, 7264); (0x10c7, 0x10c7, 1, 7264);
   (0x10cd, 0x10cd, 1, 7264); (0x13a0, 0x13ef, 1, 38864); (0x13f0, 0x13f5, 1, 8);
   (0x1c90, 0x1cba, 1, -3008); (0x1cbd, 0x1cbf, 1, -3008); (0x1e00, 0x1e94, 2, 1);
   (0x1e9e, 0x1e9e, 1, -7615); (0x1ea0, 0x1efe, 2, 1); (0x1f08, 0x1f0f, 1, -8);
   (0x1f18, 0x1f1d, 1, -8); (0x1f28, 0x1f2f, 1, -8); (0x1f38, 0x1f3f, 1, -8);
   (0x1f48, 0x1f4d, 1, -8); (0x1f59, 0x1f5f, 2, -8); (0x1f68, 0x1f6f, 1, -8);
   (0x1f88, 0x1f8f, 1, -8); (0x1f98, 0x1f9f, 1, -8); (0x1fa8, 0x1faf, 1, -8);
   (0x1fb8, 0x1fb9, 1, -8); (0x1fba, 0x1fbb, 1, -74); (0x1fbc, 0x1fbc, 1, -9);
   (0x1fc8, 0x1fcb, 1, -86); (0x1fcc, 0x1fcc, 1, -9); (0x1fd8, 0x1fd9, 1, -8);
   (0x1fda, 0x1fdb, 1, -100); (0x1fe8, 0x1fe9, 1, -8); (0x1fea, 0x1feb, 1, -112);
   (0x1fec, 0x1fec, 1, -7); (0x1ff8, 0x1ff9, 1, -128); (0x1ffa, 0x1ffb, 1, -126);
   (0x1ffc, 0x1ffc, 1, -9); (0x2126, 0x2126, 1, -7517); (0x212a, 0x212a, 1, -8383);
   (0x212b, 0x212b, 1, -8262); (0x2132, 0x2132, 1, 28); (0x2160, 0x216f, 1, 16);
   (0x2183, 0x2183, 1, 1); (0x24b6, 0x24cf, 1, 26); (0x2c00, 0x2c2f, 1, 48);
   (0x2c60, 0x2c60, 1, 1); (0x2c62, 0x2c62, 1, -10743); (0x2c63, 0x2c63, 1, -3814);
   (0x2c64, 0x2c64, 1, -10727); (0x2c67, 0x2c6b, 2, 1); (0x2c6d, 0x2c6d, 1, -10780);
   (0x2c6e, 0x2c6e, 1, -10749); (0x2c6f, 0x2c6f, 1, -10783); (0x2c70, 0x2c70, 1, -10782);
   (0x2c72, 0x2c72, 1, 1); (0x2c75, 0x2c75, 1, 1); (0x2c7e, 0x2c7f, 1, -10815);
   (0x2c80, 0x2ce2, 2, 1); (0x2ceb, 0x2ced, 2, 1); (0x2cf2, 0x2cf2, 1, 1);
   (0xa640, 0xa66c, 2, 1); (0xa680, 0xa69a, 2, 1); (0xa722, 0xa72e, 2, 1);
   (0xa732, 0xa76e, 2, 1); (0xa779, 0xa77b, 2, 1); (0xa77d, 0xa77d, 1, -35332);
   (0xa77e, 0xa786, 2, 1); (0xa78b, 0xa78b, 1, 1); (0xa78d, 0xa78d, 1, -42280);
   (0xa790, 0xa792, 2, 1); (0xa796, 0xa7a8, 2, 1); (0xa7aa, 0xa7aa, 1, -42308);
   (0xa7ab, 0xa7ab, 1, -42319); (0xa7ac, 0xa7ac, 1, -42315); (0xa7ad, 0xa7ad, 1, -42305);
   (0xa7ae, 0xa7ae, 1, -42308); (0xa7b0, 0xa7b0, 1, -42258); (0xa7b1, 0xa7b1, 1, -42282);
   (0xa7b2, 0xa7b2, 1, -42261); (0xa7b3, 0xa7b3, 1, 928); (0xa7b4, 0xa7c2, 2, 1);
   (0xa7c4, 0xa7c4, 1, -48); (0xa7c5, 0xa7c5, 1, -42307); (0xa7c6, 0xa7c6, 1, -35384);
   (0xa7c7, 0xa7c9, 2, 1); (0xa7d0, 0xa7d0, 1, 1); (0xa7d6, 0xa7d8, 2, 1);
   (0xa7f5, 0xa7f5, 1, 1); (0xff21, 0xff3a, 1, 32); (0x10400, 0x10427, 1, 40);
   (0x104b0, 0x104d3, 1, 40); (0x10570, 0x10594, 2, 39); (0x10571, 0x10579, 2, 39);
   (0x1057d, 0x10589, 2, 39); (0x1058d, 0x10591, 2, 39); (0x10595, 0x10595, 1, 39);
   (0x10c80, 0x10cb2, 1, 64); (0x118a0, 0x118bf, 1, 32); (0x16e40, 0x16e5f, 1, 32);
   (0x1e900, 0x1e921, 1, 34)].

(** The code points that are Case_Ignorable. *)
Definition caseIgnorableRanges : list (Z * Z) :=
  [
  (0x27, 0x27); (0x2e, 0x2e); (0x3a, 0x3a); (0x5e, 0x5e); (0x60, 0x60); (0xa8, 0xa8);
   (0xad, 0xad); (0xaf, 0xaf); (0xb4, 0xb4); (0xb7, 0xb8); (0x2b0, 0x36f); (0x374, 0x375);
   (0x37a, 0x37a); (0x384, 0x385); (0x387, 0x387); (0x483, 0x489); (0x559, 0x559);
   (0x55f, 0x55f); (0x591, 0x5bd); (0x5bf, 0x5bf); (0x5c1, 0x5c2); (0x5c4, 0x5c5);
   (0x5c7, 0x5c7); (0x5f4, 0x5f4); (0x600, 0x605); (0x610, 0x61a); (0x61c, 0x61c);
   (0x640, 0x640); (0x64b, 0x65f); (0x670, 0x670); (0x6d6, 0x6dd); (0x6df, 0x6e8);
   (0x6ea, 0x6ed); (0x70f, 0x70f); (0x711, 0x711); (0x730, 0x74a); (0x7a6, 0x7b0);
   (0x7eb, 0x7f5); (0x7fa, 0x7fa); (0x7fd, 0x7fd); (0x816, 0x82d); (0x859, 0x85b);
   (0x888, 0x888); (0x890, 0x891); (0x898, 0x89f); (0x8c9, 0x902); (0x93a, 0x93a);
   (0x93c, 0x93c); (0x941, 0x948); (0x94d, 0x94d); (0x951, 0x957); (0x962, 0x963);
   (0x971, 0x971); (0x981, 0x981); (0x9bc, 0x9bc); (0x9c1, 0x9c4); (0x9cd, 0x9cd);
   (0x9e2, 0x9e3); (0x9fe, 0x9fe); (0xa01, 0xa02); (0xa3c, 0xa3c); (0xa41, 0xa42);
   (0xa47, 0xa48); (0xa4b, 0xa4d); (0xa51, 0xa51); (0xa70, 0xa71); (0xa75, 0xa75);
   (0xa81, 0xa82); (0xabc, 0xabc); (0xac1, 0xac5); (0xac7, 0xac8); (0xacd, 0xacd);
   (0xae2, 0xae3); (0xafa, 0xaff); (0xb01, 0xb01); (0xb3c, 0xb3c); (0xb3f, 0xb3f);
   (0xb41, 0xb44); (0xb4d, 0xb4d); (0xb55, 0xb56); (0xb62, 0xb63); (0xb82, 0xb82);
   (0xbc0, 0xbc0); (0xbcd, 0xbcd); (0xc00, 0xc00); (0xc04, 0xc04); (0xc3c, 0xc3c);
   (0xc3e, 0xc40); (0xc46, 0xc48); (0xc4a, 0xc4d); (0xc55, 0xc56); (0xc62, 0xc63);
   (0xc81, 0xc81); (0xcbc, 0xcbc); (0xcbf, 0xcbf); (0xcc6, 0xcc6); (0xccc, 0xccd);
   (0xce2, 0xce3); (0xd00, 0xd01); (0xd3b, 0xd3c); (0xd41, 0xd44); (0xd4d, 0xd4d);
   (0xd62, 0xd63); (0xd81, 0xd81); (0xdca, 0xdca); (0xdd2, 0xdd4); (0xdd6, 0xdd6);
   (0xe31, 0xe31); (0xe34, 0xe3a); (0xe46, 0xe4e); (0xeb1, 0xeb1); (0xeb4, 0xebc);
   (0xec6, 0xec6); (0xec8, 0xecd); (0xf18, 0xf19); (0xf35, 0xf35); (0xf37, 0xf37);
   (0xf39, 0xf39); (0xf71, 0xf7e); (0xf80, 0xf84); (0xf86, 0xf87); (0xf8d, 0xf97);
   (0xf99, 0xfbc); (0xfc6, 0xfc6); (0x102d, 0x1030); (0x1032, 0x1037); (0x1039, 0x103a);
   (0x103d, 0x103e); (0x1058, 0x1059); (0x105e, 0x1060); (0x1071, 0x1074);
   (0x1082, 0x1082); (0x1085, 0x1086); (0x108d, 0x108d); (0x109d, 0x109d);
   (0x10fc, 0x10fc); (0x135d, 0x135f); (0x1712, 0x1714); (0x1732, 0x1733);
   (0x1752, 0x1753); (0x1772, 0x1773); (0x17b4, 0x17b5); (0x17b7, 0x17bd);
   (0x17c6, 0x17c6); (0x17c9, 0x17d3); (0x17d7, 0x17d7); (0x17dd, 0x17dd);
   (0x180b, 0x180f); (0x1843, 0x1843); (0x1885, 0x1886); (0x18a9, 0x18a9);
   (0x1920, 0x1922); (0x1927, 0x1928); (0x1932, 0x1932); (0x1939, 0x193b);
   (0x1a17, 0x1a18); (0x1a1b, 0x1a1b); (0x1a56, 0x1a56); (0x1a58, 0x1a5e);
   (0x1a60, 0x1a60); (0x1a62, 0x1a62); (0x1a65, 0x1a6c); (0x1a73, 0x1a7c);
   (0x1a7f, 0x1a7f); (0x1aa7, 0x1aa7); (0x1ab0, 0x1ace); (0x1b00, 0x1b03);
   (0x1b34, 0x1b34); (0x1b36, 0x1b3a); (0x1b3c, 0x1b3c); (0x1b42, 0x1b42);
   (0x1b6b, 0x1b73); (0x1b80, 0x1b81); (0x1ba2, 0x1ba5); (0x1ba8, 0x1ba9);
   (0x1bab, 0x1bad); (0x1be6, 0x1be6); (0x1be8, 0x1be9); (0x1bed, 0x1bed);
   (0x1bef, 0x1bf1); (0x1c2c, 0x1c33); (0x1c36, 0x1c37); (0x1c78, 0x1c7d);
   (0x1cd0, 0x1cd2); (0x1cd4, 0x1ce0); (0x1ce2, 0x1ce8); (0x1ced, 0x1ced);
   (0x1cf4, 0x1cf4); (0x1cf8, 0x1cf9); (0x1d2c, 0x1d6a); (0x1d78, 0x1d78);
   (0x1d9b, 0x1dff); (0x1fbd, 0x1fbd); (0x1fbf, 0x1fc1); (0x1fcd, 0x1fcf);
   (0x1fdd, 0x1fdf); (0x1fed, 0x1fef); (0x1ffd, 0x1ffe); (0x200b, 0x200f);
   (0x2018, 0x2019); (0x2024, 0x2024); (0x2027, 0x2027); (0x202a, 0x202e);
   (0x2060, 0x2064); (0x2066, 0x206f); (0x2071, 0x2071); (0x207f, 0x207f);
   (0x2090, 0x209c); (0x20d0, 0x20f0); (0x2c7c, 0x2c7d); (0x2cef, 0x2cf1);
   (0x2d6f, 0x2d6f); (0x2d7f, 0x2d7f); (0x2de0, 0x2dff); (0x2e2f, 0x2e2f);
   (0x3005, 0x3005); (0x302a, 0x302d); (0x3031, 0x3035); (0x303b, 0x303b);
   (0x3099, 0x309e); (0x30fc, 0x30fe); (0xa015, 0xa015); (0xa4f8, 0xa4fd);
   (0xa60c, 0xa60c); (0xa66f, 0xa672); (0xa674, 0xa67d); (0xa67f, 0xa67f);
   (0xa69c, 0xa69f); (0xa6f0, 0xa6f1); (0xa700, 0xa721); (0xa770, 0xa770);
   (0xa788, 0xa78a); (0xa7f2, 0xa7f4); (0xa7f8, 0xa7f9); (0xa802, 0xa802);
   (0xa806, 0xa806); (0xa80b, 0xa80b); (0xa825, 0xa826); (0xa82c, 0xa82c);
   (0xa8c4, 0xa8c5); (0xa8e0, 0xa8f1); (0xa8ff, 0xa8ff); (0xa926, 0xa92d);
   (0xa947, 0xa951); (0xa980, 0xa982); (0xa9b3, 0xa9b3); (0xa9b6, 0xa9b9);
   (0xa9bc, 0xa9bd); (0xa9cf, 0xa9cf); (0xa9e5, 0xa9e6); (0xaa29, 0xaa2e);
   (0xaa31, 0xaa32); (0xaa35, 0xaa36); (0xaa43, 0xaa43); (0xaa4c, 0xaa4c);
   (0xaa70, 0xaa70); (0xaa7c, 0xaa7c); (0xaab0, 0xaab0); (0xaab2, 0xaab4);
   (0xaab7, 0xaab8); (0xaabe, 0xaabf); (0xaac1, 0xaac1); (0xaadd, 0xaadd);
   (0xaaec, 0xaaed); (0xaaf3, 0xaaf4); (0xaaf6, 0xaaf6); (0xab5b, 0xab5f);
   (0xab69, 0xab6b); (0xabe5, 0xabe5); (0xabe8, 0xabe8); (0xabed, 0xabed);
   (0xfb1e, 0xfb1e); (0xfbb2, 0xfbc2); (0xfe00, 0xfe0f); (0xfe13, 0xfe13);
   (0xfe20, 0xfe2f); (0xfe52, 0xfe52); (0xfe55, 0xfe55); (0xfeff, 0xfeff);
   (0xff07, 0xff07); (0xff0e, 0xff0e); (0xff1a, 0xff1a); (0xff3e, 0xff3e);
   (0xff40, 0xff40); (0xff70, 0xff70); (0xff9e, 0xff9f); (0xffe3, 0xffe3);
   (0xfff9, 0xfffb); (0x101fd, 0x101fd); (0x102e0, 0x102e0); (0x10376, 0x1037a);
   (0x10780, 0x10785); (0x10787, 0x107b0); (0x107b2, 0x107ba); (0x10a01, 0x10a03);
   (0x10a05, 0x10a06); (0x10a0c, 0x10a0f); (0x10a38, 0x10a3a); (0x10a3f, 0x10a3f);
   (0x10ae5, 0x10ae6); (0x10d24, 0x10d27); (0x10eab, 0x10eac); (0x10f46, 0x10f50);
   (0x10f82, 0x10f85); (0x11001, 0x11001); (0x11038, 0x11046); (0x11070, 0x11070);
   (0x11073, 0x11074); (0x1107f, 0x11081); (0x110b3, 0x110b6); (0x110b9, 0x110ba);
   (0x110bd, 0x110bd); (0x110c2, 0x110c2); (0x110cd, 0x110cd); (0x11100, 0x11102);
   (0x11127, 0x1112b); (0x1112d, 0x11134); (0x11173, 0x11173); (0x11180, 0x11181);
   (0x111b6, 0x111be); (0x111c9, 0x111cc); (0x111cf, 0x111cf); (0x1122f, 0x11231);
   (0x11234, 0x11234); (0x11236, 0x11237); (0x1123e, 0x1123e); (0x112df, 0x112df);
   (0x112e3, 0x112ea); (0x11300, 0x11301); (0x1133b, 0x1133c); (0x11340, 0x11340);
   (0x11366, 0x1136c); (0x11370, 0x11374); (0x11438, 0x1143f); (0x11442, 0x11444);
   (0x11446, 0x11446); (0x1145e, 0x1145e); (0x114b3, 0x114b8); (0x114ba, 0x114ba);
   (0x114bf, 0x114c0); (0x114c2, 0x114c3); (0x115b2, 0x115b5); (0x115bc, 0x115bd);
   (0x115bf, 0x115c0); (0x115dc, 0x115dd); (0x11633, 0x1163a); (0x1163d, 0x1163d);
   (0x1163f, 0x11640); (0x116ab, 0x116ab); (0x116ad, 0x116ad); (0x116b0, 0x116b5);
   (0x116b7, 0x116b7); (0x1171d, 0x1171f); (0x11722, 0x11725); (0x11727, 0x1172b);
   (0x1182f, 0x11837); (0x11839, 0x1183a); (0x1193b, 0x1193c); (0x1193e, 0x1193e);
   (0x11943, 0x11943); (0x119d4, 0x119d7); (0x119da, 0x119db); (0x119e0, 0x119e0);
   (0x11a01, 0x11a0a); (0x11a33, 0x11a38); (0x11a3b, 0x11a3e); (0x11a47, 0x11a47);
   (0x11a51, 0x11a56); (0x11a59, 0x11a5b); (0x11a8a, 0x11a96); (0x11a98, 0x11a99);
   (0x11c30, 0x11c36); (0x11c38, 0x11c3d); (0x11c3f, 0x11c3f); (0x11c92, 0x11ca7);
   (0x11caa, 0x11cb0); (0x11cb2, 0x11cb3); (0x11cb5, 0x11cb6); (0x11d31, 0x11d36);
   (0x11d3a, 0x11d3a); (0x11d3c, 0x11d3d); (0x11d3f, 0x11d45); (0x11d47, 0x11d47);
   (0x11d90, 0x11d91); (0x11d95, 0x11d95); (0x11d97, 0x11d97); (0x11ef3, 0x11ef4);
   (0x13430, 0x13438); (0x16af0, 0x16af4); (0x16b30, 0x16b36); (0x16b40, 0x16b43);
   (0x16f4f, 0x16f4f); (0x16f8f, 0x16f9f); (0x16fe0, 0x16fe1); (0x16fe3, 0x16fe4);
   (0x1aff0, 0x1aff3); (0x1aff5, 0x1affb); (0x1affd, 0x1affe); (0x1bc9d, 0x1bc9e);
   (0x1bca0, 0x1bca3); (0x1cf00, 0x1cf2d); (0x1cf30, 0x1cf46); (0x1d167, 0x1d169);
   (0x1d173, 0x1d182); (0x1d185, 0x1d18b); (0x1d1aa, 0x1d1ad); (0x1d242, 0x1d244);
   (0x1da00, 0x1da36); (0x1da3b, 0x1da6c); (0x1da75, 0x1da75); (0x1da84, 0x1da84);
   (0x1da9b, 0x1da9f); (0x1daa1, 0x1daaf); (0x1e000, 0x1e006); (0x1e008, 0x1e018);
   (0x1e01b, 0x1e021); (0x1e023, 0x1e024); (0x1e026, 0x1e02a); (0x1e130, 0x1e13d);
   (0x1e2ae, 0x1e2ae); (0x1e2ec, 0x1e2ef); (0x1e8d0, 0x1e8d6); (0x1e944, 0x1e94b);
   (0x1f3fb, 0x1f3ff); (0xe0001, 0xe0001); (0xe0020, 0xe007f); (0xe0100, 0xe01ef)].

(** The code points that are Cased and not Case_Ignorable. *)
Definition casedRanges : list (Z * Z) :=
  [
  (0x41, 0x5a); (0x61, 0x7a); (0xaa, 0xaa); (0xb5, 0xb5); (0xba, 0xba); (0xc0, 0xd6);
   (0xd8, 0xf6); (0xf8, 0x1ba); (0x1bc, 0x1bf); (0x1c4, 0x293); (0x295, 0x2af);
   (0x370, 0x373); (0x376, 0x377); (0x37b, 0x37d); (0x37f, 0x37f); (0x386, 0x386);
   (0x388, 0x38a); (0x38c, 0x38c); (0x38e, 0x3a1); (0x3a3, 0x3f5); (0x3f7, 0x481);
   (0x48a, 0x52f); (0x531, 0x556); (0x560, 0x588); (0x10a0, 0x10c5); (0x10c7, 0x10c7);
   (0x10cd, 0x10cd); (0x10d0, 0x10fa); (0x10fd, 0x10ff); (0x13a0, 0x13f5);
   (0x13f8, 0x13fd); (0x1c80, 0x1c88); (0x1c90, 0x1cba); (0x1cbd, 0x1cbf);
   (0x1d00, 0x1d2b); (0x1d6b, 0x1d77); (0x1d79, 0x1d9a); (0x1e00, 0x1f15);
   (0x1f18, 0x1f1d); (0x1f20, 0x1f45); (0x1f48, 0x1f4d); (0x1f50, 0x1f57);
   (0x1f59, 0x1f59); (0x1f5b, 0x1f5b); (0x1f5d, 0x1f5d); (0x1f5f, 0x1f7d);
   (0x1f80, 0x1fb4); (0x1fb6, 0x1fbc); (0x1fbe, 0x1fbe); (0x1fc2, 0x1fc4);
   (0x1fc6, 0x1fcc); (0x1fd0, 0x1fd3); (0x1fd6, 0x1fdb); (0x1fe0, 0x1fec);
   (0x1ff2, 0x1ff4); (0x1ff6, 0x1ffc); (0x2102, 0x2102); (0x2107, 0x2107);
   (0x210a, 0x2113); (0x2115, 0x2115); (0x2119, 0x211d); (0x2124, 0x2124);
   (0x2126, 0x2126); (0x2128, 0x2128); (0x212a, 0x212d); (0x212f, 0x2134);
   (0x2139, 0x2139); (0x213c, 0x213f); (0x2145, 0x2149); (0x214e, 0x214e);
   (0x2160, 0x217f); (0x2183, 0x2184); (0x24b6, 0x24e9); (0x2c00, 0x2c7b);
   (0x2c7e, 0x2ce4); (0x2ceb, 0x2cee); (0x2cf2, 0x2cf3); (0x2d00, 0x2d25);
   (0x2d27, 0x2d27); (0x2d2d, 0x2d2d); (0xa640, 0xa66d); (0xa680, 0xa69b);
   (0xa722, 0xa76f); (0xa771, 0xa787); (0xa78b, 0xa78e); (0xa790, 0xa7ca);
   (0xa7d0, 0xa7d1); (0xa7d3, 0xa7d3); (0xa7d5, 0xa7d9); (0xa7f5, 0xa7f6);
   (0xa7fa, 0xa7fa); (0xab30, 0xab5a); (0xab60, 0xab68); (0xab70, 0xabbf);
   (0xfb00, 0xfb06); (0xfb13, 0xfb17); (0xff21, 0xff3a); (0xff41, 0xff5a);
   (0x10400, 0x1044f); (0x104b0, 0x104d3); (0x104d8, 0x104fb); (0x10570, 0x1057a);
   (0x1057c, 0x1058a); (0x1058c, 0x10592); (0x10594, 0x10595); (0x10597, 0x105a1);
   (0x105a3, 0x105b1); (0x105b3, 0x105b9); (0x105bb, 0x105bc); (0x10c80, 0x10cb2);
   (0x10cc0, 0x10cf2); (0x118a0, 0x118df); (0x16e40, 0x16e7f); (0x1d400, 0x1d454);
   (0x1d456, 0x1d49c); (0x1d49e, 0x1d49f); (0x1d4a2, 0x1d4a2); (0x1d4a5, 0x1d4a6);
   (0x1d4a9, 0x1d4ac); (0x1d4ae, 0x1d4b9); (0x1d4bb, 0x1d4bb); (0x1d4bd, 0x1d4c3);
   (0x1d4c5, 0x1d505); (0x1d507, 0x1d50a); (0x1d50d, 0x1d514); (0x1d516, 0x1d51c);
   (0x1d51e, 0x1d539); (0x1d53b, 0x1d53e); (0x1d540, 0x1d544); (0x1d546, 0x1d546);
   (0x1d54a, 0x1d550); (0x1d552, 0x1d6a5); (0x1d6a8, 0x1d6c0); (0x1d6c2, 0x1d6da);
   (0x1d6dc, 0x1d6fa); (0x1d6fc, 0x1d714); (0x1d716, 0x1d734); (0x1d736, 0x1d74e);
   (0x1d750, 0x1d76e); (0x1d770, 0x1d788); (0x1d78a, 0x1d7a8); (0x1d7aa, 0x1d7c2);
   (0x1d7c4, 0x1d7cb); (0x1df00, 0x1df09); (0x1df0b, 0x1df1e); (0x1e900, 0x1e943);
   (0x1f130, 0x1f149); (0x1f150, 0x1f169); (0x1f170, 0x1f189)].

Definition inRange (first last cp : Z) : bool := (first <=? cp) && (cp <=? last).

Definition inRanges (ranges : list (Z * Z)) (cp : Z) : bool :=
  existsb (fun range => inRange (fst range) (snd range) cp) ranges.

Fixpoint lowerDelta (table : list (Z * Z * Z * Z)) (cp : Z) : Z :=
  match table with
  | [] => 0
  | (first, last, step, delta) :: table' =>
      if inRange first last cp && ((cp - first) mod step =? 0) then delta
      else lowerDelta table' cp
  end.

(** The lower-case mapping of a code point, away from the final sigma. *)
Definition lowerOf (cp : Z) : list Z :=
  if cp =? 0x130 then [0x69; 0x307]
  else [cp + lowerDelta lowerCaseRanges cp].

Definition isCaseIgnorable (cp : Z) : bool := inRanges caseIgnorableRanges cp.

Definition isCased (cp : Z) : bool := inRanges casedRanges cp.

(** Going away from a sigma, the first code point that is not
    case-ignorable is a cased letter. *)
Fixpoint casedNext (points : list Z) : bool :=
  match points with
  | [] => false
  | cp :: points' => if isCaseIgnorable cp then casedNext points' else isCased cp
  end.

(** Final_Sigma: a cased letter before, none after.  [before] lists the
    code points before the sigma, the nearest first. *)
Definition finalSigma (before after : list Z) : bool :=
  casedNext before && negb (casedNext after).

Fixpoint lowerPoints (before points : list Z) : list Z :=
  match points with
  | [] => []
  | cp :: points' =>
      ((if (cp =? 0x3a3) && finalSigma before points' then [0x3c2] else lowerOf cp)
       ++ lowerPoints (cp :: before) points')%list
  end.

Definition isLeadingSurrogate (c : codeUnit) : bool := inRange 0xd800 0xdbff c.

Definition isTrailingSurrogate (c : codeUnit) : bool := inRange 0xdc00 0xdfff c.

(** StringToCodePoints: a surrogate pair is one code point, a surrogate on
    its own is a code point as it is. *)
Fixpoint codePoints (s : string) : list Z :=
  match s with
  | EmptyString => []
  | String c s' =>
      match s' with
      | String d s'' =>
          if isLeadingSurrogate c && isTrailingSurrogate d
          then (0x10000 + (c - 0xd800) * 0x400 + (d - 0xdc00)) :: codePoints s''
          else c :: codePoints s'
      | EmptyString => [c]
      end
  end.

(** CodePointsToString. *)
Fixpoint ofCodePoints (points : list Z) : string :=
  match points with
  | [] => EmptyString
  | cp :: points' =>
      if 0x10000 <=? cp
      then String (0xd800 + (cp - 0x10000) / 0x400)
             (String (0xdc00 + (cp - 0x10000) mod 0x400) (ofCodePoints points'))
      else String cp (ofCodePoints points')
  end.

(** [String.prototype.toLowerCase]. *)
Definition toLowerCase (s : string) : string :=
  ofCodePoints (lowerPoints [] (codePoints s)).

(** *** StringToNumber *)

Definition digitOf (radix : Z) (c : codeUnit) : option Z :=
  let n := code c in
  let v := if (48 <=? n) && (n <=? 57) then n - 48
           else if (97 <=? n) && (n <=? 102) then n - 87
           else if (65 <=? n) && (n <=? 70) then n - 55
           else 99 in
  if v <? radix then Some v else None.

(** Consumes the longest prefix of digits; returns the accumulated value,
    the number of digits read and the rest. *)
Fixpoint scanDigits (radix : Z) (s : string) (acc cnt : Z) : Z * Z * string :=
  match s with
  | EmptyString => (acc, cnt, s)
  | String c s' =>
      match digitOf radix c with
      | Some v => scanDigits radix s' (acc * radix + v) (cnt + 1)
      | None => (acc, cnt, s)
      end
  end.

(** ExponentPart (optional), then the end of the literal. *)
Definition scanExponent (s : string) : option Z :=
  match s with
  | EmptyString => Some 0
  | String c r =>
      if (code c =? 101) || (code c =? 69) then
        let '(neg, r') :=
          match r with
          | String c' r' =>
              if code c' =? 45 then (true, r')
              else if code c' =? 43 then (false, r') else (false, r)
          | EmptyString => (false, r)
          end in
        match scanDigits 10 r' 0 0 with
        | (v, cnt, EmptyString) =>
            if 0 <? cnt then Some (if neg then - v else v) else None
        | _ => None
        end
      else None
  end.

(** StrUnsignedDecimalLiteral without [Infinity]: mantissa and decimal
    exponent. *)
Definition scanUnsignedDecimal (s : string) : option (Z * Z) :=
  let '(ip, ni, r1) := scanDigits 10 s 0 0 in
  let '(m, nf, r2) :=
    match r1 with
    | String c r => if code c =? 46 then scanDigits 10 r ip 0 else (ip, 0, r1)
    | EmptyString => (ip, 0, r1)
    end in
  if (ni =? 0) && (nf =? 0) then None
  else match scanExponent r2 with
       | Some e => Some (m, e - nf)
       | None => None
       end.

Definition scanRadix (radix : Z) (s : string) : number :=
  match scanDigits radix s 0 0 with
  | (v, cnt, EmptyString) => if 0 <? cnt then round_decimal false v 0 else NaN
  | _ => NaN
  end.

Definition scanSignedDecimal (neg : bool) (s : string) : number :=
  if String.eqb s "Infinity" then
    (if neg then PrimFloat.neg_infinity else PrimFloat.infinity)
  else match scanUnsignedDecimal s with
       | Some (m, e) => round_decimal neg m e
       | None => NaN
       end.

(** [Number(s)] for a string [s]. *)
Definition StringToNumber (s : string) : number :=
  match trim s with
  | EmptyString => PrimFloat.zero
  | String c r =>
      let radixOf (c' : codeUnit) : Z :=
        let n := code c' in
        if (n =? 120) || (n =? 88) then 16
        else if (n =? 111) || (n =? 79) then 8
        else if (n =? 98) || (n =? 66) then 2 else 0 in
      match r with
      | String c' r' =>
          if (code c =? 48) && negb (radixOf c' =? 0)
          then scanRadix (radixOf c') r'
          else if code c =? 45 then scanSignedDecimal true r
          else if code c =? 43 then scanSignedDecimal false r
          else scanSignedDecimal false (String c r)
      | EmptyString => scanSignedDecimal false (String c r)
      end
  end.

(** *** Number::toString *)

Fixpoint decimalDigits_fuel (fuel : nat) (n : Z) (acc : string) : string :=
  match fuel with
  | O => acc
  | S fuel' =>
      let acc' := String (48 + n mod 10) acc in
      if n <? 10 then acc' else decimalDigits_fuel fuel' (n / 10) acc'
  end.

(** The decimal digits of a non-negative integer. *)
Definition decimalDigits (n : Z) : string :=
  decimalDigits_fuel (S (Z.to_nat (Z.log2 n))) n EmptyString.

Fixpoint zeros (n : nat) : string :=
  match n with
  | O => EmptyString
  | S n' => String 48 (zeros n')
  end.

(** The shortest digits [s] (with [k] digits) and exponent [n] such that
    [s * 10^(n-k)] reads back as the positive finite [x = num / den]. *)
Fixpoint shortestDigits (fuel : nat) (x : number) (num den n k : Z) : Z * Z * Z :=
  let p := k - n in
  let scaledNum := if 0 <=? p then num * 10 ^ p else num in
  let scaledDen := if 0 <=? p then den else den * 10 ^ (- p) in
  let lo := scaledNum / scaledDen in
  let hi := lo + 1 in
  let okLo := PrimFloat.eqb (round_decimal false lo (n - k)) x in
  let okHi := PrimFloat.eqb (round_decimal false hi (n - k)) x in
  let twice := 2 * scaledNum - (lo + hi) * scaledDen in
  let pickLo := (twice <? 0) || ((twice =? 0) && Z.even lo) in
  let result (s : Z) := if s =? 10 ^ k then (10 ^ (k - 1), k, n + 1) else (s, k, n) in
  match fuel with
  | O => result (if pickLo then lo else hi)
  | S fuel' =>
      if okLo && okHi then result (if pickLo then lo else hi)
      else if okLo then result lo
      else if okHi then result hi
      else shortestDigits fuel' x num den n (k + 1)
  end.

Definition formatDigits (s k n : Z) : string :=
  let ds := decimalDigits s in
  if (k <=? n) && (n <=? 21) then ds ++ zeros (Z.to_nat (n - k))
  else if (0 <? n) && (n <=? 21) then
    substring 0 (Z.to_nat n) ds ++ "." ++ substring (Z.to_nat n) (Z.to_nat (k - n)) ds
  else if (-6 <? n) && (n <=? 0) then "0." ++ zeros (Z.to_nat (- n)) ++ ds
  else
    let e := n - 1 in
    let es := (if e <? 0 then "-" else "+") ++ decimalDigits (Z.abs e) in
    if k =? 1 then ds ++ "e" ++ es
    else substring 0 1 ds ++ "." ++ substring 1 (Z.to_nat (k - 1)) ds ++ "e" ++ es.

(** [String(x)] for a number [x]. *)
Definition NumberToString (x : number) : string :=
  match Prim2SF x with
  | S754_nan => "NaN"
  | S754_zero _ => "0"
  | S754_infinity neg => if neg then "-Infinity" else "Infinity"
  | S754_finite neg m e =>
      let num := if 0 <=? e then Z.pos m * 2 ^ e else Z.pos m in
      let den := if 0 <=? e then 1 else 2 ^ (- e) in
      let dn := digits10 num - digits10 den in
      let above := if 0 <=? dn then den * 10 ^ dn <=? num
                   else den <=? num * 10 ^ (- dn) in
      let n := if above then dn + 1 else dn in
      let '(s, k, n') := shortestDigits 16 (PrimFloat.abs x) num den n 1 in
      (if neg then "-" else "") ++ formatDigits s k n'
  end.

(** [Math.round]: the nearest integer, halves towards +infinity. *)
Definition Math_round (x : number) : number :=
  match Prim2SF x with
  | S754_finite neg m e =>
      if 0 <=? e then x
      else
        let n := ((if neg then - (2 * Z.pos m) else 2 * Z.pos m) + 2 ^ (- e))
                   / 2 ^ (1 - e) in
        if n =? 0 then (if neg then PrimFloat.neg_zero else PrimFloat.zero)
        else round_binary (n <? 0) (Z.abs n) 0
  | _ => x
  end.

(** ** The engine *)

(** What a call or a [try] block yields: a value, or the message of the
    thrown error. *)
Inductive outcome (A : Type) : Type :=
| Returns (a : A)
| Throws (message : string).
Arguments Returns {A} a.
Arguments Throws {A} message.

(** What the code takes from the engine that runs it: the number of
    arguments that a call can take where [calculateStatistic] runs.  A call
    with more arguments than the stack has room for is refused with a
    [RangeError]. *)
Class Engine : Type := { argumentLimit : N }.

(** The message of that [RangeError] (the engine's wording). *)
Definition rangeErrorMessage : string := "Maximum call stack size exceeded".

(** ** Values *)

Inductive jsval : Type :=
| VUndefined
| VNull
| VBoolean (b : bool)
| VNumber (x : number)
| VString (s : string).

(** [Number(v)]. *)
Definition ToNumber (v : jsval) : number :=
  match v with
  | VUndefined => NaN
  | VNull => PrimFloat.zero
  | VBoolean b => if b then PrimFloat.one else PrimFloat.zero
  | VNumber x => x
  | VString s => StringToNumber s
  end.

(** [String(v)]. *)
Definition ToString (v : jsval) : string :=
  match v with
  | VUndefined => "undefined"
  | VNull => "null"
  | VBoolean b => if b then "true" else "false"
  | VNumber x => NumberToString x
  | VString s => s
  end.

(** Truthiness, as [||] and [?:] test it. *)
Definition numberTruthy (x : number) : bool :=
  negb (isNaN x || PrimFloat.is_zero x).

Definition ToBoolean (v : jsval) : bool :=
  match v with
  | VUndefined | VNull => false
  | VBoolean b => b
  | VNumber x => numberTruthy x
  | VString s => negb (String.eqb s "")
  end.

(** [a || b] and [a ?? b]. *)
Definition orElse (a b : jsval) : jsval := if ToBoolean a then a else b.

Definition nullish (a b : jsval) : jsval :=
  match a with
  | VUndefined | VNull => b
  | _ => a
  end.

(** ** Arrays *)

(** [row[i]]: reading past the end gives [undefined]. *)
Definition cellAt (row : list jsval) (i : nat) : jsval :=
  match row !! i with
  | Some v => v
  | None => VUndefined
  end.

(** [row[i] = v]: writing past the end extends the array; the positions in
    between are holes, which read as [undefined]. *)
Definition arraySet (row : list jsval) (i : nat) (v : jsval) : list jsval :=
  if (i <? length row)%nat then <[i := v]> row
  else row ++ replicate (i - length row) VUndefined ++ [v].

(** [headers.indexOf(column)]; [None] stands for [-1]. *)
Fixpoint indexOf (headers : list string) (column : string) : option nat :=
  match headers with
  | [] => None
  | h :: hs =>
      if String.eqb h column then Some O
      else match indexOf hs column with
           | Some i => Some (S i)
           | None => None
           end
  end.

(** Stable insertion of [x] into a list sorted for the comparator:
    [gt a b] says that the comparator's result on [(a, b)] is positive. *)
Fixpoint sortInsert {A : Type} (gt : A -> A -> bool) (x : A) (l : list A) : list A :=
  match l with
  | [] => [x]
  | y :: l' => if gt y x then x :: l else y :: sortInsert gt x l'
  end.

(** [Array.prototype.sort] with a comparator: the stable sort. *)
Definition sortBy {A : Type} (gt : A -> A -> bool) (l : list A) : list A :=
  fold_left (fun acc x => sortInsert gt x acc) l [].

(** ** The helpers of [processMissingValues] *)

Definition sentinels : list string := ["na"; "n/a"; "null"; "-"; "nan"].

Definition includes (l : list string) (s : string) : bool :=
  existsb (String.eqb s) l.

Definition isCellMissing (cell : jsval) : bool :=
  match cell with
  | VNull => true
  | VUndefined => true
  | VString s =>
      String.eqb s ""
      || String.eqb (trim s) ""
      || includes sentinels (toLowerCase (trim s))
  | _ => false
  end.

(** [sorted[i]] under [+] and [/]: a missing element is [undefined], which
    the arithmetic turns into [NaN]. *)
Definition numberAt (l : list number) (i : Z) : number :=
  if i <? 0 then NaN
  else match l !! Z.to_nat i with
       | Some x => x
       | None => NaN
       end.

(** One step of [Math.min] and [Math.max] over their arguments: [-0] counts
    as smaller than [+0]. *)
Definition minStep (lowest x : number) : number :=
  if PrimFloat.is_zero x && PrimFloat.get_sign x
     && PrimFloat.is_zero lowest && negb (PrimFloat.get_sign lowest)
  then x
  else if PrimFloat.ltb x lowest then x else lowest.

Definition maxStep (highest x : number) : number :=
  if PrimFloat.is_zero x && negb (PrimFloat.get_sign x)
     && PrimFloat.is_zero highest && PrimFloat.get_sign highest
  then x
  else if PrimFloat.ltb highest x then x else highest.

(** What [Math.min] and [Math.max] return for their arguments. *)
Definition minOf (values : list number) : number :=
  if existsb isNaN values then NaN
  else fold_left minStep values PrimFloat.infinity.

Definition maxOf (values : list number) : number :=
  if existsb isNaN values then NaN
  else fold_left maxStep values PrimFloat.neg_infinity.

(** [Math.min(...values)] and [Math.max(...values)]: every element of the
    array becomes an argument of the call. *)
Definition Math_min {engine : Engine} (values : list number) : outcome number :=
  if (N.of_nat (length values) <=? argumentLimit)%N then Returns (minOf values)
  else Throws rangeErrorMessage.

Definition Math_max {engine : Engine} (values : list number) : outcome number :=
  if (N.of_nat (length values) <=? argumentLimit)%N then Returns (maxOf values)
  else Throws rangeErrorMessage.

(** The comparator [(a, b) => a - b] is positive. *)
Definition numberGt (a b : number) : bool := PrimFloat.ltb 0 (a - b).

Definition calculateStatistic {engine : Engine} (values : list number)
    (method : string) : outcome number :=
  if String.eqb method "mean" then
    Returns (fold_left PrimFloat.add values 0 / number_of_nat (length values))%float
  else if String.eqb method "median" then
    let sorted := sortBy numberGt values in
    let mid := Z.of_nat (length sorted) / 2 in
    if Z.of_nat (length sorted) mod 2 =? 0
    then Returns ((numberAt sorted (mid - 1) + numberAt sorted mid) / 2)%float
    else Returns (numberAt sorted mid)
  else if String.eqb method "min" then Math_min values
  else if String.eqb method "max" then Math_max values
  else Returns 0%float.

(** *** The frequency object of [calculateMode]

    A plain object is kept as the list of its own properties in creation
    order.  A count is an integer below [2^53], held exactly by a number, so
    it is kept as an integer.  Keys that name a member of [Object.prototype]
    would be read from the prototype by [frequency[key]]; they are outside
    the model (see [ownKey]). *)

Abbreviation object := (list (string * Z)).



(** [o[key] || 0]. *)
Fixpoint getOrZero (o : object) (key : string) : Z :=
  match o with
  | [] => 0
  | (k, n) :: o' => if String.eqb k key then n else getOrZero o' key
  end.

(** [o[key] = n]: an existing property keeps its place, a new one is added
    last. *)
Fixpoint setProperty (o : object) (key : string) (n : Z) : object :=
  match o with
  | [] => [(key, n)]
  | (k, m) :: o' =>
      if String.eqb k key then (k, n) :: o' else (k, m) :: setProperty o' key n
  end.

(** A canonical array index: the decimal form of an integer in
    [0, 2^32 - 2]. *)
Definition arrayIndex (key : string) : option Z :=
  match scanDigits 10 key 0 0 with
  | (v, cnt, EmptyString) =>
      if (0 <? cnt) && (v <=? 4294967294) && String.eqb (decimalDigits v) key
      then Some v else None
  | _ => None
  end.

Definition isArrayIndex (key : string) : bool :=
  match arrayIndex key with Some _ => true | None => false end.

Definition indexValue (e : string * Z) : Z :=
  match arrayIndex (fst e) with Some v => v | None => 0 end.

(** [Object.entries(o)]: array-index keys first, by ascending index, then the
    other keys in creation order. *)
Definition entries (o : object) : list (string * Z) :=
  sortBy (fun a b => indexValue b <? indexValue a)
         (List.filter (fun e => isArrayIndex (fst e)) o)
  ++ List.filter (fun e => negb (isArrayIndex (fst e))) o.

Definition countKey (frequency : object) (val : jsval) : object :=
  let key := ToString val in
  setProperty frequency key (getOrZero frequency key + 1).

(** The comparator [(a, b) => b[1] - a[1]] is positive. *)
Definition countGt (a b : string * Z) : bool := 0 <? snd b - snd a.

Definition calculateMode (values : list jsval) : jsval :=
  let frequency := fold_left countKey values [] in
  match sortBy countGt (entries frequency) with
  | [] => VString ""
  | modeEntry :: _ =>
      let numVal := StringToNumber (fst modeEntry) in
      if negb (isNaN numVal) then VNumber numVal else VString (fst modeEntry)
  end.

(** ** Tables and column settings *)

Record table : Type := { headers : list string; rows : list (list jsval) }.

Record ColumnSetting : Type := { strategy : string; value : jsval }.

Definition missingCount (rows : list (list jsval)) (colIndex : nat) : nat :=
  length (List.filter (fun row => isCellMissing (cellAt row colIndex)) rows).

Definition missingPercentage (rows : list (list jsval)) (colIndex : nat) : number :=
  if (0 <? length rows)%nat
  then (number_of_nat (missingCount rows colIndex) / number_of_nat (length rows) * 100)%float
  else 0%float.

(** [Number(columnSetting.value) || 50]. *)
Definition dropThreshold (v : jsval) : number :=
  if numberTruthy (ToNumber v) then ToNumber v else 50%float.

Definition dropRows (rows : list (list jsval)) (colIndex : nat) : list (list jsval) :=
  List.filter (fun row => negb (isCellMissing (cellAt row colIndex))) rows.

(** The value [fill-value] writes. *)
Definition fillValueOf (v : jsval) : jsval :=
  let rawValue := nullish v (VString "") in
  let numericValue := ToNumber rawValue in
  if negb (isNaN numericValue) then VNumber numericValue else rawValue.

Definition fillRows (rows : list (list jsval)) (colIndex : nat) (v : jsval)
  : list (list jsval) :=
  map (fun row => if isCellMissing (cellAt row colIndex) then arraySet row colIndex v
                  else row) rows.

Definition nonMissingValues (rows : list (list jsval)) (colIndex : nat) : list jsval :=
  List.filter (fun cell => negb (isCellMissing cell))
              (map (fun row => cellAt row colIndex) rows).

Definition numericValues (rows : list (list jsval)) (colIndex : nat) : list number :=
  List.filter (fun num => negb (isNaN num))
              (map ToNumber (nonMissingValues rows colIndex)).

(** The value [fill-method] writes. *)
Definition replacementValue {engine : Engine} (rows : list (list jsval))
    (colIndex : nat) (v : jsval) : outcome jsval :=
  let method := ToString (orElse v (VString "mode")) in
  if String.eqb method "mode" || (length (numericValues rows colIndex) =? 0)%nat
  then Returns (calculateMode (nonMissingValues rows colIndex))
  else match calculateStatistic (numericValues rows colIndex) method with
       | Returns x => Returns (VNumber x)
       | Throws message => Throws message
       end.

(** The message of the [TypeError] that reading [strategy] from a setting
    that is [undefined] throws (the engine's wording). *)
Definition typeErrorMessage : string :=
  "Cannot read properties of undefined (reading 'strategy')".

(** The body of the loop over [columnKeys], after the progress report: one
    column of the working table.  [None] is a setting that is [null] or
    [undefined]. *)
Definition processColumn {engine : Engine} (currentData : table) (column : string)
    (columnSetting : option ColumnSetting) : outcome table :=
  match indexOf (headers currentData) column with
  | None => Returns currentData
  | Some colIndex =>
      match columnSetting with
      | None => Throws typeErrorMessage
      | Some setting =>
          let rs := rows currentData in
          if String.eqb (strategy setting) "drop" then
            let threshold := dropThreshold (value setting) in
            if PrimFloat.leb (missingPercentage rs colIndex) threshold
            then Returns {| headers := headers currentData; rows := dropRows rs colIndex |}
            else Returns currentData
          else if String.eqb (strategy setting) "fill-value" then
            Returns {| headers := headers currentData;
                       rows := fillRows rs colIndex (fillValueOf (value setting)) |}
          else if String.eqb (strategy setting) "fill-method" then
            match replacementValue rs colIndex (value setting) with
            | Returns replacement =>
                Returns {| headers := headers currentData;
                           rows := fillRows rs colIndex replacement |}
            | Throws message => Throws message
            end
          else Returns currentData
      end
  end.

(** ** The store *)

(** The cell that [JSON.parse(JSON.stringify(rows))] puts in the copy. *)
Definition jsonCell (cell : jsval) : jsval :=
  match cell with
  | VUndefined => VNull
  | VNumber x =>
      if isNaN x || PrimFloat.is_infinity x then VNull
      else VNumber (StringToNumber (NumberToString x))
  | _ => cell
  end.

Definition deepCopy (sourceData : table) : table :=
  {| headers := headers sourceData;
     rows := map (map jsonCell) (rows sourceData) |}.

(** The tables of a file profile; its other fields play no part in cleaning. *)
Module FileProfile.

Record t : Type := {
  rawData : option table;
  processedData : option table;
  cleanedData : option table
}.

End FileProfile.

Record UnifiedDataState : Type := {
  profiles : gmap string FileProfile.t;
  activeProfileId : option string;
  isLoading : bool;
  error : option string;
  rawData : option table;
  processedData : option table;
  cleanedData : option table
}.

(** A call made to one of the caller's hooks. *)
Inductive event : Type :=
| ProgressCall (progress : number)
| CompleteCall
| ErrorCall (message : string).

(** What a hook does when called: it returns ([None]) or throws an error
    with the given message. *)
Abbreviation behaviour := (option string).

Record Callbacks : Type := {
  onProgress : option (number -> behaviour);
  onComplete : option behaviour;
  onError : option (string -> behaviour)
}.

(** [callbacks?.onProgress?.(p)] and its siblings: the calls made, and what
    was thrown. *)
Definition callOnProgress (callbacks : option Callbacks) (p : number)
  : list event * behaviour :=
  match callbacks with
  | Some cb => match onProgress cb with
               | Some f => ([ProgressCall p], f p)
               | None => ([], None)
               end
  | None => ([], None)
  end.

Definition callOnComplete (callbacks : option Callbacks) : list event * behaviour :=
  match callbacks with
  | Some cb => match onComplete cb with
               | Some b => ([CompleteCall], b)
               | None => ([], None)
               end
  | None => ([], None)
  end.

Definition callOnError (callbacks : option Callbacks) (message : string)
  : list event * behaviour :=
  match callbacks with
  | Some cb => match onError cb with
               | Some f => ([ErrorCall message], f message)
               | None => ([], None)
               end
  | None => ([], None)
  end.

(** The settings object: its own properties in the order of [Object.keys]. *)
Abbreviation settingsMap := (list (string * option ColumnSetting)).

Definition columnKeys (settings : settingsMap) : list string := map fst settings.

(** [settings[column]]. *)
Fixpoint settingOf (settings : settingsMap) (column : string) : option ColumnSetting :=
  match settings with
  | [] => None
  | (k, s) :: settings' => if String.eqb k column then s else settingOf settings' column
  end.

(** The loop [for (const column of columnKeys)]: the working table it ends
    with or the error it throws, and the calls it made. *)
Fixpoint processColumns {engine : Engine} (settings : settingsMap)
    (callbacks : option Callbacks) (totalSteps : nat) (keys : list string) (currentStep : nat)
    (currentData : table) : outcome table * list event :=
  match keys with
  | [] => (Returns currentData, [])
  | column :: keys' =>
      let step := S currentStep in
      let progress :=
        Math_round (number_of_nat step / number_of_nat totalSteps * 100)%float in
      match callOnProgress callbacks progress with
      | (calls, Some message) => (Throws message, calls)
      | (calls, None) =>
          match processColumn currentData column (settingOf settings column) with
          | Throws message => (Throws message, calls)
          | Returns currentData' =>
              let '(result, calls') :=
                processColumns settings callbacks totalSteps keys' step currentData' in
              (result, (calls ++ calls')%list)
          end
      end
  end.

(** The [try] block: the state it leaves, the calls made, and the message
    of the error that left it, if any. *)
Definition tryBlock {engine : Engine} (settings : settingsMap)
    (callbacks : option Callbacks) (sourceData : table) (state : UnifiedDataState)
  : UnifiedDataState * list event * behaviour :=
  let currentData := deepCopy sourceData in
  let keys := columnKeys settings in
  match processColumns settings callbacks (length keys) keys 0 currentData with
  | (Throws message, calls) => (state, calls, Some message)
  | (Returns currentData', calls) =>
      let state' :=
        {| profiles := profiles state;
           activeProfileId := activeProfileId state;
           isLoading := false;
           error := error state;
           rawData := rawData state;
           processedData := processedData state;
           cleanedData := Some currentData' |} in
      match callOnProgress callbacks 100%float with
      | (calls1, Some message) => (state', (calls ++ calls1)%list, Some message)
      | (calls1, None) =>
          let '(calls2, thrown) := callOnComplete callbacks in
          (state', (calls ++ calls1 ++ calls2)%list, thrown)
      end
  end.

Definition orTable (a b : option table) : option table :=
  match a with Some _ => a | None => b end.

(** The state after the call, the calls made to the hooks in order, and the
    error the returned promise is rejected with, if any. *)
Definition processMissingValues {engine : Engine} (settings : settingsMap)
    (callbacks : option Callbacks) (state : UnifiedDataState)
  : UnifiedDataState * list event * behaviour :=
  let sourceData :=
    match orTable (cleanedData state) (processedData state) with
    | Some data => Some data
    | None =>
        match rawData state with
        | Some raw => Some {| headers := headers raw; rows := rows raw |}
        | None => None
        end
    end in
  match sourceData with
  | None =>
      let message := "No data available for processing" in
      let state' :=
        {| profiles := profiles state;
           activeProfileId := activeProfileId state;
           isLoading := isLoading state;
           error := Some message;
           rawData := rawData state;
           processedData := processedData state;
           cleanedData := cleanedData state |} in
      let '(calls, thrown) := callOnError callbacks message in
      (state', calls, thrown)
  | Some data =>
      let state1 :=
        {| profiles := profiles state;
           activeProfileId := activeProfileId state;
           isLoading := true;
           error := None;
           rawData := rawData state;
           processedData := processedData state;
           cleanedData := cleanedData state |} in
      match tryBlock settings callbacks data state1 with
      | (state2, calls, None) => (state2, calls, None)
      | (state2, calls, Some message) =>
          let errorMessage :=
            if String.eqb message "" then "Failed to process missing values"
            else message in
          let state3 :=
            {| profiles := profiles state2;
               activeProfileId := activeProfileId state2;
               isLoading := false;
               error := Some errorMessage;
               rawData := rawData state2;
               processedData := processedData state2;
               cleanedData := cleanedData state2 |} in
          let '(calls', thrown) := callOnError callbacks errorMessage in
          (state3, (calls ++ calls')%list, thrown)
      end
  end.

(** [indices.includes(index)] for the position [index] of a row. *)
Definition includesIndex (indices : list Z) (index : nat) : bool :=
  existsb (Z.eqb (Z.of_nat index)) indices.

(** [rows.filter((_, index) => !indices.includes(index))], the positions
    counted from [index]. *)
Fixpoint filterRows (indices : list Z) (index : nat) (rows : list (list jsval))
  : list (list jsval) :=
  match rows with
  | [] => []
  | row :: rows' =>
      if includesIndex indices index then filterRows indices (S index) rows'
      else row :: filterRows indices (S index) rows'
  end.

Definition removeDuplicates (indices : list Z) (state : UnifiedDataState)
  : UnifiedDataState :=
  match activeProfileId state with
  | None => state
  | Some id =>
      if String.eqb id "" then state
      else
        match profiles state !! id with
        | None => state
        | Some currentProfile =>
            match orTable (FileProfile.cleanedData currentProfile)
                          (FileProfile.processedData currentProfile) with
            | None => state
            | Some data =>
                let newRows := filterRows indices 0 (rows data) in
                let newCleanedData := {| headers := headers data; rows := newRows |} in
                let profile :=
                  {| FileProfile.rawData := FileProfile.rawData currentProfile;
                     FileProfile.processedData := FileProfile.processedData currentProfile;
                     FileProfile.cleanedData := Some newCleanedData |} in
                {| profiles := <[id := profile]> (profiles state);
                   activeProfileId := activeProfileId state;
                   isLoading := isLoading state;
                   error := error state;
                   rawData := rawData state;
                   processedData := processedData state;
                   cleanedData := Some newCleanedData |}
            end
        end
  end.

Definition removeOutliers (indices : list Z) (state : UnifiedDataState)
  : UnifiedDataState :=
  match activeProfileId state with
  | None => state
  | Some id =>
      if String.eqb id "" then state
      else
        match profiles state !! id with
        | None => state
        | Some currentProfile =>
            match orTable (FileProfile.cleanedData currentProfile)
                          (FileProfile.processedData currentProfile) with
            | None => state
            | Some data =>
                let newRows := filterRows indices 0 (rows data) in
                let newCleanedData := {| headers := headers data; rows := newRows |} in
                let profile :=
                  {| FileProfile.rawData := FileProfile.rawData currentProfile;
                     FileProfile.processedData := FileProfile.processedData currentProfile;
                     FileProfile.cleanedData := Some newCleanedData |} in
                {| profiles := <[id := profile]> (profiles state);
                   activeProfileId := activeProfileId state;
                   isLoading := isLoading state;
                   error := error state;
                   rawData := rawData state;
                   processedData := processedData state;
                   cleanedData := Some newCleanedData |}
            end
        end
  end.

(** ** Definitions used by the statements *)

(** An engine whose calls take up to 65536 arguments. *)
Definition sampleEngine : Engine := {| argumentLimit := 65536%N |}.

Fixpoint everyChar (p : codeUnit -> bool) (s : string) : bool :=
  match s with
  | EmptyString => true
  | String c s' => p c && everyChar p s'
  end.

(** *** The specification of [isCellMissing] *)

(** The code units that are white space or line terminators, one by one:
    TAB, LF, VT, FF, CR, SPACE, NO-BREAK SPACE, OGHAM SPACE MARK, the eleven
    spaces from EN QUAD to HAIR SPACE, LINE SEPARATOR, PARAGRAPH SEPARATOR,
    NARROW NO-BREAK SPACE, MEDIUM MATHEMATICAL SPACE, IDEOGRAPHIC SPACE and
    ZERO WIDTH NO-BREAK SPACE. *)
Definition whiteSpaceUnits : list codeUnit :=
  [0x9; 0xa; 0xb; 0xc; 0xd; 0x20; 0xa0; 0x1680;
   0x2000; 0x2001; 0x2002; 0x2003; 0x2004; 0x2005; 0x2006; 0x2007; 0x2008; 0x2009;
   0x200a; 0x2028; 0x2029; 0x202f; 0x205f; 0x3000; 0xfeff].

(** The ASCII code units, and the lower-case mapping on them. *)
Definition plain (cp : Z) : Prop := 0 <= cp < 128.

Definition asciiLower (cp : Z) : Z :=
  if (65 <=? cp) && (cp <=? 90) then cp + 32 else cp.

(** A token in printable ASCII without capitals and without [i] and [k],
    the two letters that code points outside ASCII have in their lower
    case. *)
Definition plainToken (token : string) : bool :=
  everyChar (fun t => (33 <=? t) && (t <=? 126) && negb ((65 <=? t) && (t <=? 90))
                      && negb (t =? 105) && negb (t =? 107)) token.

(** An entry of the case table that maps no code point outside ASCII to
    ASCII, but for the Kelvin sign, which it maps to [k]. *)
Definition entryKeepsHigh (entry : Z * Z * Z * Z) : bool :=
  let '(first, last, step, delta) := entry in
  (0 <=? first)
  && ((last <? 128) || (128 <=? first + delta)
      || ((first =? last) && (first + delta =? 107))).

(** A string of white space, the empty string included. *)
Fixpoint whitespace (s : string) : Prop :=
  match s with
  | EmptyString => True
  | String c s' => In c whiteSpaceUnits /\ whitespace s'
  end.

(** [text] is [token] written with letters of either case: unit by unit it
    is the token, but for the small letters [a] to [z] of the token, in
    whose place it may have the capital ([A] is 65, [a] is 97). *)
Fixpoint spells (text token : string) : Prop :=
  match text, token with
  | EmptyString, EmptyString => True
  | String c text', String t token' =>
      (c = t \/ (97 <= t <= 122 /\ c = t - 32)) /\ spells text' token'
  | _, _ => False
  end.

(** The percentage of [missing] rows among [total] in double precision:
    the counts are exact doubles, their quotient is rounded to the nearest
    double, and so is its product by 100.  A table without rows has the
    percentage 0. *)
Definition percentageOf (missing total : nat) : number :=
  match total with
  | O => 0%float
  | S _ =>
      SF2Prim (SF64mul (SF64div (binary_normalize prec emax (Z.of_nat missing) 0 false)
                                (binary_normalize prec emax (Z.of_nat total) 0 false))
                       (Prim2SF 100))
  end.

(** The threshold of a [drop] setting: its value as a number when that is a
    number other than zero, and 50 when the value is absent or is not
    numeric. *)
Inductive threshold : jsval -> number -> Prop :=
| threshold_numeric (v : jsval) :
    isNaN (ToNumber v) = false -> PrimFloat.is_zero (ToNumber v) = false ->
    threshold v (ToNumber v)
| threshold_nonNumeric (v : jsval) :
    isNaN (ToNumber v) = true -> threshold v 50%float
| threshold_absent (v : jsval) :
    v = VUndefined \/ v = VNull -> threshold v 50%float.

(** The table of the specification's end-to-end scenarios. *)
Definition scenarioTable : table :=
  {| headers := ["x"; "y"];
     rows := [[VNumber 1; VString "NA"]; [VNumber 2; VString "3"];
              [VString ""; VString ""]] |}.

(** A table of 100 rows with one column, 7 of whose cells are missing. *)
Definition sevenOfHundred : table :=
  {| headers := ["x"];
     rows := replicate 7 [VNull] ++ replicate 93 [VNumber 1] |}.

(** A table of one column with one missing cell and one more numeric cell
    than a call of [sampleEngine] takes arguments. *)
Definition longColumn : table :=
  {| headers := ["x"];
     rows := [VNull] :: replicate (S (N.to_nat 65536)) [VNumber 1] |}.

(** A settings entry that fills: it holds a setting whose strategy is
    [fill-value] or [fill-method]. *)
Definition fillEntry (entry : string * option ColumnSetting) : Prop :=
  exists setting, snd entry = Some setting
    /\ (strategy setting = "fill-value" \/ strategy setting = "fill-method").

(** The progress hook, if there is one, returns normally. *)
Definition progressReturns (callbacks : option Callbacks) : Prop :=
  forall cb f p, callbacks = Some cb -> onProgress cb = Some f -> f p = None.

(** The cells a step may change: the relation between the working table
    before and after a run over [keys]. *)
Definition sameOutside (keys : list string) (before after : table) : Prop :=
  headers after = headers before
  /\ length (rows after) = length (rows before)
  /\ forall i j row row',
       (forall h, headers before !! j = Some h -> ~ In h keys) ->
       rows before !! i = Some row -> rows after !! i = Some row' ->
       cellAt row' j = cellAt row j.

(** The rows of a table whose position is not in the index set, in the
    order of their positions. *)
Definition rowsOutside (indices : list Z) (rs : list (list jsval))
  : list (list jsval) :=
  omap (fun i => if includesIndex indices i then None else rs !! i)
       (seq 0 (length rs)).

(** A store whose only profile is active and holds the given cleaned
    table. *)
Definition storeWith (id : string) (data : table) : UnifiedDataState :=
  {| profiles := {[ id := {| FileProfile.rawData := None;
                             FileProfile.processedData := None;
                             FileProfile.cleanedData := Some data |} ]};
     activeProfileId := Some id;
     isLoading := false;
     error := None;
     rawData := None;
     processedData := None;
     cleanedData := Some data |}.

(** A store that holds only a raw table: nothing processed or cleaned
    yet. *)
Definition storeOfRaw (raw : table) : UnifiedDataState :=
  {| profiles := ∅;
     activeProfileId := None;
     isLoading := false;
     error := None;
     rawData := Some raw;
     processedData := None;
     cleanedData := None |}.

(** Hooks whose completion hook throws. *)
Definition throwingOnComplete : Callbacks :=
  {| onProgress := None;
     onComplete := Some (Some "boom");
     onError := Some (fun _ => None) |}.

(** The table the call reads. *)
Definition sourceOf (state : UnifiedDataState) : option table :=
  match orTable (cleanedData state) (processedData state) with
  | Some data => Some data
  | None => rawData state
  end.

(** The value of a binary64 number in units of [2^-1074], the spacing of the
    subnormals: an integer.  The infinities are put beyond every finite
    value; [NaN] has no value and is given [0]. *)
Definition scaled (x : spec_float) : Z :=
  match x with
  | S754_zero _ => 0
  | S754_finite s m e => cond_Zopp s (Z.pos m * 2 ^ (e + 1074))
  | S754_infinity s => cond_Zopp s (2 ^ 2100)
  | S754_nan => 0
  end.

Definition scaledValue (x : number) : Z := scaled (Prim2SF x).

(** The result of rounding keeps the sign and is not zero. *)
Definition signedNonzero (s : bool) (x : spec_float) : Prop :=
  match x with
  | S754_finite s' _ _ => s' = s
  | S754_infinity s' => s' = s
  | _ => False
  end.

(** [a <= b] on numbers, and lists without [NaN]. *)
Definition numberLe (a b : number) : Prop := PrimFloat.leb a b = true.

Definition noNaN (values : list number) : Prop :=
  Forall (fun x => isNaN x = false) values.

(** *** The specification of [calculateMode] *)







(** * The objects behind the tables

    [processMissingValues] once more, over an explicit object store, to
    account for sharing: a table is an object with two fields that refer to
    the array of headers and to the array of rows, and each row is an array of
    its own.  Arrays and objects live in a heap and are named by their
    location; reading a location that does not hold the expected kind of
    object gives the empty array.  The functions of this module allocate and
    write as the source does; [Heap.snapshot] reads a table back as a
    value. *)

Module Heap.

Abbreviation loc := nat.

Inductive object : Type :=
| Cells (cells : list jsval)
| Rows (refs : list loc)
| Strings (items : list string)
| Table (headersRef rowsRef : loc).

Abbreviation heap := (list object).

Definition cells (h : heap) (l : loc) : list jsval :=
  match h !! l with Some (Cells c) => c | _ => [] end.

Definition rowRefs (h : heap) (l : loc) : list loc :=
  match h !! l with Some (Rows r) => r | _ => [] end.

Definition strings (h : heap) (l : loc) : list string :=
  match h !! l with Some (Strings s) => s | _ => [] end.

Definition headersRef (h : heap) (l : loc) : loc :=
  match h !! l with Some (Table hl _) => hl | _ => O end.

Definition rowsRef (h : heap) (l : loc) : loc :=
  match h !! l with Some (Table _ rl) => rl | _ => O end.

(** The table that the object at [t] holds, read through its fields. *)
Definition snapshot (h : heap) (t : loc) : table :=
  {| headers := strings h (headersRef h t);
     rows := map (cells h) (rowRefs h (rowsRef h t)) |}.

(** A new object, or array: it is put at the first free location. *)
Definition alloc (o : object) (h : heap) : loc * heap := (length h, (h ++ [o])%list).

(** A write to the object at [l]. *)
Definition write (l : loc) (o : object) (h : heap) : heap := <[l := o]> h.

(** [JSON.parse] builds a fresh array for each row of the text. *)
Fixpoint allocRows (rowsCells : list (list jsval)) (h : heap) : list loc * heap :=
  match rowsCells with
  | [] => ([], h)
  | c :: cs =>
      let '(l, h1) := alloc (Cells c) h in
      let '(ls, h2) := allocRows cs h1 in
      (l :: ls, h2)
  end.

(** [{ headers: [...sourceData.headers],
       rows: JSON.parse(JSON.stringify(sourceData.rows)) }]. *)
Definition deepCopy (sourceData : loc) (h : heap) : loc * heap :=
  let '(headersCopy, h1) := alloc (Strings (strings h (headersRef h sourceData))) h in
  let text := map (fun r => map jsonCell (cells h r)) (rowRefs h (rowsRef h sourceData)) in
  let '(rowCopies, h2) := allocRows text h1 in
  let '(rowsCopy, h3) := alloc (Rows rowCopies) h2 in
  alloc (Table headersCopy rowsCopy) h3.

(** [rows.map(row => { const newRow = [...row];
                       if (isCellMissing(row[colIndex])) newRow[colIndex] = v;
                       return newRow; })]. *)
Fixpoint fillRows (refs : list loc) (colIndex : nat) (v : jsval) (h : heap)
  : list loc * heap :=
  match refs with
  | [] => ([], h)
  | row :: refs' =>
      let '(newRow, h1) := alloc (Cells (cells h row)) h in
      let h2 := if isCellMissing (cellAt (cells h1 row) colIndex)
                then write newRow (Cells (arraySet (cells h1 newRow) colIndex v)) h1
                else h1 in
      let '(news, h3) := fillRows refs' colIndex v h2 in
      (newRow :: news, h3)
  end.

(** [currentData.rows = newRows], for the array [newRefs] of rows. *)
Definition assignRows (currentData : loc) (newRefs : list loc) (h : heap) : heap :=
  let '(newRows, h1) := alloc (Rows newRefs) h in
  write currentData (Table (headersRef h1 currentData) newRows) h1.

Definition processColumn {engine : Engine} (currentData : loc) (column : string)
    (columnSetting : option ColumnSetting) (h : heap) : outcome unit * heap :=
  match indexOf (strings h (headersRef h currentData)) column with
  | None => (Returns tt, h)
  | Some colIndex =>
      match columnSetting with
      | None => (Throws typeErrorMessage, h)
      | Some setting =>
          let refs := rowRefs h (rowsRef h currentData) in
          let rs := map (cells h) refs in
          if String.eqb (strategy setting) "drop" then
            let threshold := dropThreshold (value setting) in
            if PrimFloat.leb (missingPercentage rs colIndex) threshold
            then
              let kept := List.filter
                            (fun row => negb (isCellMissing (cellAt (cells h row) colIndex)))
                            refs in
              (Returns tt, assignRows currentData kept h)
            else (Returns tt, h)
          else if String.eqb (strategy setting) "fill-value" then
            let '(news, h1) := fillRows refs colIndex (fillValueOf (value setting)) h in
            (Returns tt, assignRows currentData news h1)
          else if String.eqb (strategy setting) "fill-method" then
            match replacementValue rs colIndex (value setting) with
            | Returns replacement =>
                let '(news, h1) := fillRows refs colIndex replacement h in
                (Returns tt, assignRows currentData news h1)
            | Throws message => (Throws message, h)
            end
          else (Returns tt, h)
      end
  end.

Fixpoint processColumns {engine : Engine} (settings : settingsMap)
    (callbacks : option Callbacks)
    (totalSteps : nat) (keys : list string) (currentStep : nat)
    (currentData : loc) (h : heap) : outcome unit * list event * heap :=
  match keys with
  | [] => (Returns tt, [], h)
  | column :: keys' =>
      let step := S currentStep in
      let progress :=
        Math_round (number_of_nat step / number_of_nat totalSteps * 100)%float in
      match callOnProgress callbacks progress with
      | (calls, Some message) => (Throws message, calls, h)
      | (calls, None) =>
          match processColumn currentData column (settingOf settings column) h with
          | (Throws message, h1) => (Throws message, calls, h1)
          | (Returns _, h1) =>
              let '(result, calls', h2) :=
                processColumns settings callbacks totalSteps keys' step currentData h1 in
              (result, (calls ++ calls')%list, h2)
          end
      end
  end.

(** The store: its tables are references. *)
Record state : Type := {
  isLoading : bool;
  error : option string;
  rawData : option loc;
  processedData : option loc;
  cleanedData : option loc
}.

Definition orRef (a b : option loc) : option loc :=
  match a with Some _ => a | None => b end.

Definition tryBlock {engine : Engine} (settings : settingsMap)
    (callbacks : option Callbacks) (sourceData : loc) (st : state) (h : heap)
  : state * heap * list event * behaviour :=
  let '(currentData, h1) := deepCopy sourceData h in
  let keys := columnKeys settings in
  match processColumns settings callbacks (length keys) keys 0 currentData h1 with
  | (Throws message, calls, h2) => (st, h2, calls, Some message)
  | (Returns _, calls, h2) =>
      let st' :=
        {| isLoading := false;
           error := error st;
           rawData := rawData st;
           processedData := processedData st;
           cleanedData := Some currentData |} in
      match callOnProgress callbacks 100%float with
      | (calls1, Some message) => (st', h2, (calls ++ calls1)%list, Some message)
      | (calls1, None) =>
          let '(calls2, thrown) := callOnComplete callbacks in
          (st', h2, (calls ++ calls1 ++ calls2)%list, thrown)
      end
  end.

Definition processMissingValues {engine : Engine} (settings : settingsMap)
    (callbacks : option Callbacks) (st : state) (h : heap)
  : state * heap * list event * behaviour :=
  let sourceData :=
    match orRef (cleanedData st) (processedData st) with
    | Some data => Some (data, h)
    | None =>
        match rawData st with
        | Some raw => Some (alloc (Table (headersRef h raw) (rowsRef h raw)) h)
        | None => None
        end
    end in
  match sourceData with
  | None =>
      let message := "No data available for processing" in
      let st' :=
        {| isLoading := isLoading st;
           error := Some message;
           rawData := rawData st;
           processedData := processedData st;
           cleanedData := cleanedData st |} in
      let '(calls, thrown) := callOnError callbacks message in
      (st', h, calls, thrown)
  | Some (data, h0) =>
      let st1 :=
        {| isLoading := true;
           error := None;
           rawData := rawData st;
           processedData := processedData st;
           cleanedData := cleanedData st |} in
      match tryBlock settings callbacks data st1 h0 with
      | (st2, h2, calls, None) => (st2, h2, calls, None)
      | (st2, h2, calls, Some message) =>
          let errorMessage :=
            if String.eqb message "" then "Failed to process missing values"
            else message in
          let st3 :=
            {| isLoading := false;
               error := Some errorMessage;
               rawData := rawData st2;
               processedData := processedData st2;
               cleanedData := cleanedData st2 |} in
          let '(calls', thrown) := callOnError callbacks errorMessage in
          (st3, h2, (calls ++ calls')%list, thrown)
      end
  end.

(** A table object whose fields and rows are allocated. *)
Definition allocated (h : heap) (t : loc) : Prop :=
  exists hl rl,
    h !! t = Some (Table hl rl)
    /\ (hl < length h)%nat /\ (rl < length h)%nat
    /\ Forall (fun r => (r < length h)%nat) (rowRefs h rl).

(** The tables that the store refers to are allocated. *)
Definition storeAllocated (h : heap) (st : state) : Prop :=
  forall t,
    rawData st = Some t \/ processedData st = Some t \/ cleanedData st = Some t ->
    allocated h t.

(** The store as values: each table read through its reference. *)
Definition view (h : heap) (st : state) (profiles : gmap string FileProfile.t)
    (activeProfileId : option string) : UnifiedDataState :=
  Build_UnifiedDataState profiles activeProfileId (isLoading st) (error st)
    (snapshot h <$> rawData st) (snapshot h <$> processedData st)
    (snapshot h <$> cleanedData st).

End Heap.

(** The objects below location [n] are in [h'] what they are in [h], and no
    location is lost. *)
Definition unchangedBelow (n : nat) (h h' : Heap.heap) : Prop :=
  (length h <= length h')%nat /\ forall l, (l < n)%nat -> h' !! l = h !! l.

(** ** cleanData *)

(** [cleanData(operationType, params)]; [indices] is [params.indices], an
    array of row positions or absent.  The function awaits nothing, so it
    runs to its end in one piece.  [console.log] is not modelled. *)
Definition cleanData (operationType : string) (indices : option (list Z))
    (state : UnifiedDataState) : UnifiedDataState :=
  match orTable (cleanedData state) (processedData state) with
  | None =>
      {| profiles := profiles state;
         activeProfileId := activeProfileId state;
         isLoading := isLoading state;
         error := Some "No data to clean";
         rawData := rawData state;
         processedData := processedData state;
         cleanedData := cleanedData state |}
  | Some dataToClean =>
      let state1 :=
        {| profiles := profiles state;
           activeProfileId := activeProfileId state;
           isLoading := true;
           error := error state;
           rawData := rawData state;
           processedData := processedData state;
           cleanedData := cleanedData state |} in
      let result := {| headers := headers dataToClean; rows := rows dataToClean |} in
      let switched : outcome UnifiedDataState :=
        if String.eqb operationType "missing" then Returns state1
        else if String.eqb operationType "outliers" then
          match indices with
          | Some given => Returns (removeOutliers given state1)
          | None => Returns state1
          end
        else if String.eqb operationType "duplicates" then
          match indices with
          | Some given => Returns (removeDuplicates given state1)
          | None => Returns state1
          end
        else Throws ("Unknown operation: " ++ operationType) in
      match switched with
      | Returns state2 =>
          {| profiles := profiles state2;
             activeProfileId := activeProfileId state2;
             isLoading := false;
             error := error state2;
             rawData := rawData state2;
             processedData := processedData state2;
             cleanedData := Some result |}
      | Throws message =>
          {| profiles := profiles state1;
             activeProfileId := activeProfileId state1;
             isLoading := false;
             error := Some (if String.eqb message "" then "Cleaning failed" else message);
             rawData := rawData state1;
             processedData := processedData state1;
             cleanedData := cleanedData state1 |}
      end
  end.

(** ** The whole store

    The cleaning code above reads and writes seven fields of the store.
    [Module Store] has the store with all its fields and the actions that
    manage profiles and their settings.  The [Map] of profiles is the list
    of its entries in insertion order, which is the order of
    [profiles.keys()] and [profiles.values()].  [Date.now()] is an argument
    of the action that reads the clock.  The calls made to the chart store
    ([visualizationChartStore]) are returned as a list. *)
Module Store.

Record File : Type := { name : string; size : number }.

Module ColumnVisualizableConfig.
Record t : Type := {
  column : string;
  isVisualizable : bool;
  uniqueValues : number;
  totalValues : number;
  reason : option string
}.
End ColumnVisualizableConfig.

Module DuplicateGroup.
Record t : Type := {
  key : string;
  indices : list number;
  rows : list (list jsval);
  count : number
}.
End DuplicateGroup.

Module DuplicatesStatistics.
Record t : Type := {
  totalRows : number;
  uniqueRows : number;
  duplicateRows : number;
  duplicateGroupsCount : number;
  duplicateCount : number
}.
End DuplicatesStatistics.

Module OutliersMethodDetails.
Record t : Type := {
  mean : option number;
  stdDev : option number;
  q1 : option number;
  q3 : option number;
  iqr : option number;
  lowerPercentile : option number;
  upperPercentile : option number
}.
End OutliersMethodDetails.

Module OutliersStatistics.
Record t : Type := {
  lowerBound : number;
  upperBound : number;
  method : string;
  threshold : number;
  outlierCount : number;
  totalCount : number;
  methodDetails : OutliersMethodDetails.t
}.
End OutliersStatistics.

Module Duplicates.
Record t : Type := {
  selectedColumns : list string;
  groups : list DuplicateGroup.t;
  statistics : DuplicatesStatistics.t;
  activeTab : string;
  expandedGroup : option string
}.
End Duplicates.

Module Outliers.
Record t : Type := {
  columnName : string;
  method : string;
  threshold : number;
  statistics : OutliersStatistics.t;
  activeTab : string;
  chartData : list jsval
}.
End Outliers.

Module Profile.
Record t : Type := {
  id : string;
  file : option File;
  fileIdentifier : option string;
  fileName : string;
  fileSize : number;
  rawData : option table;
  processedData : option table;
  cleanedData : option table;
  columnAnalysis : list ColumnVisualizableConfig.t;
  duplicates : Duplicates.t;
  outliers : Outliers.t;
  createdAt : number
}.
End Profile.

Record State : Type := {
  profiles : list (string * Profile.t);
  activeProfileId : option string;
  isLoading : bool;
  error : option string;
  currentFile : option File;
  currentFileIdentifier : option string;
  rawData : option table;
  processedData : option table;
  cleanedData : option table;
  columnAnalysis : list ColumnVisualizableConfig.t;
  duplicates : Duplicates.t;
  outliers : Outliers.t
}.

(** A call to the chart store. *)
Inductive visCall : Type :=
| InitializeFileContext (identifier : string) (columns : list string)
    (columnStatus : list ColumnVisualizableConfig.t)
| SetCurrentFileIdentifier (identifier : string)
| ResetCurrentFile.

(** *** The [Map] *)

(** [m.get(key)]. *)
Fixpoint mapGet {V : Type} (m : list (string * V)) (key : string) : option V :=
  match m with
  | [] => None
  | (k, v) :: m' => if String.eqb k key then Some v else mapGet m' key
  end.

(** [m.set(key, v)]: a key that is present keeps its place, a new key goes
    to the end. *)
Fixpoint mapSet {V : Type} (m : list (string * V)) (key : string) (v : V)
  : list (string * V) :=
  match m with
  | [] => [(key, v)]
  | (k, x) :: m' => if String.eqb k key then (k, v) :: m' else (k, x) :: mapSet m' key v
  end.

(** [m.delete(key)]. *)
Definition mapDelete {V : Type} (m : list (string * V)) (key : string)
  : list (string * V) :=
  List.filter (fun entry => negb (String.eqb (fst entry) key)) m.

(** [new Map(entries)]: the entries are set one after the other. *)
Definition mapOfEntries {V : Type} (entries : list (string * V)) : list (string * V) :=
  fold_left (fun m entry => mapSet m (fst entry) (snd entry)) entries [].

(** *** Profiles *)

Definition defaultDuplicates : Duplicates.t :=
  {| Duplicates.selectedColumns := [];
     Duplicates.groups := [];
     Duplicates.statistics :=
       {| DuplicatesStatistics.totalRows := 0%float;
          DuplicatesStatistics.uniqueRows := 0%float;
          DuplicatesStatistics.duplicateRows := 0%float;
          DuplicatesStatistics.duplicateGroupsCount := 0%float;
          DuplicatesStatistics.duplicateCount := 0%float |};
     Duplicates.activeTab := "summary";
     Duplicates.expandedGroup := None |}.

Definition defaultOutliers : Outliers.t :=
  {| Outliers.columnName := "";
     Outliers.method := "zscore";
     Outliers.threshold := 3%float;
     Outliers.statistics :=
       {| OutliersStatistics.lowerBound := 0%float;
          OutliersStatistics.upperBound := 0%float;
          OutliersStatistics.method := "zscore";
          OutliersStatistics.threshold := 3%float;
          OutliersStatistics.outlierCount := 0%float;
          OutliersStatistics.totalCount := 0%float;
          OutliersStatistics.methodDetails :=
            {| OutliersMethodDetails.mean := None;
               OutliersMethodDetails.stdDev := None;
               OutliersMethodDetails.q1 := None;
               OutliersMethodDetails.q3 := None;
               OutliersMethodDetails.iqr := None;
               OutliersMethodDetails.lowerPercentile := None;
               OutliersMethodDetails.upperPercentile := None |} |};
     Outliers.activeTab := "chart";
     Outliers.chartData := [] |}.

(** [`${file.name}-${file.size}`]. *)
Definition fileKeyOf (f : File) : string :=
  name f ++ "-" ++ NumberToString (size f).

(** [createDefaultProfile(id, file, fileName, fileSize)]; [now] is what
    [Date.now()] returns. *)
Definition createDefaultProfile (id : string) (file : option File)
    (fileName : string) (fileSize : number) (now : number) : Profile.t :=
  {| Profile.id := id;
     Profile.file := file;
     Profile.fileIdentifier :=
       match file with Some f => Some (fileKeyOf f) | None => None end;
     Profile.fileName :=
       match file with
       | Some f => if String.eqb (name f) "" then fileName else name f
       | None => fileName
       end;
     Profile.fileSize :=
       match file with
       | Some f => if numberTruthy (size f) then size f else fileSize
       | None => fileSize
       end;
     Profile.rawData := None;
     Profile.processedData := None;
     Profile.cleanedData := None;
     Profile.columnAnalysis := [];
     Profile.duplicates := defaultDuplicates;
     Profile.outliers := defaultOutliers;
     Profile.createdAt := now |}.

Definition initialState : State :=
  {| profiles := [];
     activeProfileId := None;
     isLoading := false;
     error := None;
     currentFile := None;
     currentFileIdentifier := None;
     rawData := None;
     processedData := None;
     cleanedData := None;
     columnAnalysis := [];
     duplicates := defaultDuplicates;
     outliers := defaultOutliers |}.

(** [createProfile(file)]: the state and the identifier it returns.  The
    clock is read twice, for the identifier ([now]) and for [createdAt]
    ([created]). *)
Definition createProfile (file : File) (now created : number) (state : State)
  : State * string :=
  let profileId := fileKeyOf file ++ "-" ++ NumberToString now in
  let newProfile := createDefaultProfile profileId (Some file) "" 0%float created in
  ({| profiles := mapSet (profiles state) profileId newProfile;
      activeProfileId := Some profileId;
      isLoading := isLoading state;
      error := error state;
      currentFile := Profile.file newProfile;
      currentFileIdentifier := Profile.fileIdentifier newProfile;
      rawData := Profile.rawData newProfile;
      processedData := Profile.processedData newProfile;
      cleanedData := Profile.cleanedData newProfile;
      columnAnalysis := Profile.columnAnalysis newProfile;
      duplicates := Profile.duplicates newProfile;
      outliers := Profile.outliers newProfile |},
   profileId).

(** The calls [switchProfile] makes to the chart store. *)
Definition contextCalls (profile : Profile.t) : list visCall :=
  match Profile.fileIdentifier profile with
  | None => []
  | Some identifier =>
      if String.eqb identifier "" then []
      else
        match Profile.processedData profile with
        | Some processed =>
            if (0 <? length (Profile.columnAnalysis profile))%nat
            then [InitializeFileContext identifier (headers processed)
                    (Profile.columnAnalysis profile)]
            else [SetCurrentFileIdentifier identifier]
        | None => [SetCurrentFileIdentifier identifier]
        end
  end.

Definition switchProfile (profileId : string) (state : State)
  : State * list visCall :=
  match mapGet (profiles state) profileId with
  | Some profile =>
      ({| profiles := profiles state;
          activeProfileId := Some profileId;
          isLoading := isLoading state;
          error := error state;
          currentFile := Profile.file profile;
          currentFileIdentifier := Profile.fileIdentifier profile;
          rawData := Profile.rawData profile;
          processedData := Profile.processedData profile;
          cleanedData := Profile.cleanedData profile;
          columnAnalysis := Profile.columnAnalysis profile;
          duplicates := Profile.duplicates profile;
          outliers := Profile.outliers profile |},
       contextCalls profile)
  | None => (state, [])
  end.

(** [state.activeProfileId === profileId]. *)
Definition isActive (state : State) (profileId : string) : bool :=
  match activeProfileId state with
  | Some active => String.eqb active profileId
  | None => false
  end.

Definition deleteProfile (profileId : string) (state : State) : State :=
  let newProfiles := mapDelete (profiles state) profileId in
  if isActive state profileId then
    let remainingProfiles := map fst newProfiles in
    let newActiveProfileId :=
      match remainingProfiles with
      | first :: _ => Some first
      | [] => None
      end in
    let reset :=
      {| profiles := newProfiles;
         activeProfileId := newActiveProfileId;
         isLoading := isLoading state;
         error := error state;
         currentFile := None;
         currentFileIdentifier := None;
         rawData := None;
         processedData := None;
         cleanedData := None;
         columnAnalysis := [];
         duplicates := defaultDuplicates;
         outliers := defaultOutliers |} in
    match newActiveProfileId with
    | Some newActive =>
        if String.eqb newActive "" then reset
        else
          match mapGet newProfiles newActive with
          | Some newActiveProfile =>
              {| profiles := newProfiles;
                 activeProfileId := newActiveProfileId;
                 isLoading := isLoading state;
                 error := error state;
                 currentFile := Profile.file newActiveProfile;
                 currentFileIdentifier := Profile.fileIdentifier newActiveProfile;
                 rawData := Profile.rawData newActiveProfile;
                 processedData := Profile.processedData newActiveProfile;
                 cleanedData := Profile.cleanedData newActiveProfile;
                 columnAnalysis := Profile.columnAnalysis newActiveProfile;
                 duplicates := Profile.duplicates newActiveProfile;
                 outliers := Profile.outliers newActiveProfile |}
          | None =>
              {| profiles := newProfiles;
                 activeProfileId := newActiveProfileId;
                 isLoading := isLoading state;
                 error := error state;
                 currentFile := currentFile state;
                 currentFileIdentifier := currentFileIdentifier state;
                 rawData := rawData state;
                 processedData := processedData state;
                 cleanedData := cleanedData state;
                 columnAnalysis := columnAnalysis state;
                 duplicates := duplicates state;
                 outliers := outliers state |}
          end
    | None => reset
    end
  else
    {| profiles := newProfiles;
       activeProfileId := activeProfileId state;
       isLoading := isLoading state;
       error := error state;
       currentFile := currentFile state;
       currentFileIdentifier := currentFileIdentifier state;
       rawData := rawData state;
       processedData := processedData state;
       cleanedData := cleanedData state;
       columnAnalysis := columnAnalysis state;
       duplicates := duplicates state;
       outliers := outliers state |}.

(** An element of the array [getProfileList] returns. *)
Module ProfileListItem.
Record t : Type := { id : string; fileName : string; createdAt : number }.
End ProfileListItem.

Definition getProfileList (state : State) : list ProfileListItem.t :=
  map (fun entry =>
         let profile := snd entry in
         {| ProfileListItem.id := Profile.id profile;
            ProfileListItem.fileName :=
              match Profile.file profile with
              | Some f => name f
              | None => "Unknown"
              end;
            ProfileListItem.createdAt := Profile.createdAt profile |})
      (profiles state).

Definition clearFile (state : State) : State * list visCall :=
  match activeProfileId state with
  | Some active =>
      if String.eqb active "" then (state, [ResetCurrentFile])
      else (deleteProfile active state, [ResetCurrentFile])
  | None => (state, [ResetCurrentFile])
  end.

Definition clearAllFiles (state : State) : State * list visCall :=
  ({| profiles := [];
      activeProfileId := None;
      isLoading := false;
      error := None;
      currentFile := None;
      currentFileIdentifier := None;
      rawData := None;
      processedData := None;
      cleanedData := None;
      columnAnalysis := [];
      duplicates := defaultDuplicates;
      outliers := defaultOutliers |},
   [ResetCurrentFile]).

(** *** Settings of the active profile *)

(** The field updates that the setters share: [profile.duplicates = d] and
    [profile.outliers = o] on the profile stored in the map. *)
Definition withDuplicates (profile : Profile.t) (d : Duplicates.t) : Profile.t :=
  {| Profile.id := Profile.id profile;
     Profile.file := Profile.file profile;
     Profile.fileIdentifier := Profile.fileIdentifier profile;
     Profile.fileName := Profile.fileName profile;
     Profile.fileSize := Profile.fileSize profile;
     Profile.rawData := Profile.rawData profile;
     Profile.processedData := Profile.processedData profile;
     Profile.cleanedData := Profile.cleanedData profile;
     Profile.columnAnalysis := Profile.columnAnalysis profile;
     Profile.duplicates := d;
     Profile.outliers := Profile.outliers profile;
     Profile.createdAt := Profile.createdAt profile |}.

Definition withOutliers (profile : Profile.t) (o : Outliers.t) : Profile.t :=
  {| Profile.id := Profile.id profile;
     Profile.file := Profile.file profile;
     Profile.fileIdentifier := Profile.fileIdentifier profile;
     Profile.fileName := Profile.fileName profile;
     Profile.fileSize := Profile.fileSize profile;
     Profile.rawData := Profile.rawData profile;
     Profile.processedData := Profile.processedData profile;
     Profile.cleanedData := Profile.cleanedData profile;
     Profile.columnAnalysis := Profile.columnAnalysis profile;
     Profile.duplicates := Profile.duplicates profile;
     Profile.outliers := o;
     Profile.createdAt := Profile.createdAt profile |}.

Definition withCleanedData (profile : Profile.t) (data : table) : Profile.t :=
  {| Profile.id := Profile.id profile;
     Profile.file := Profile.file profile;
     Profile.fileIdentifier := Profile.fileIdentifier profile;
     Profile.fileName := Profile.fileName profile;
     Profile.fileSize := Profile.fileSize profile;
     Profile.rawData := Profile.rawData profile;
     Profile.processedData := Profile.processedData profile;
     Profile.cleanedData := Some data;
     Profile.columnAnalysis := Profile.columnAnalysis profile;
     Profile.duplicates := Profile.duplicates profile;
     Profile.outliers := Profile.outliers profile;
     Profile.createdAt := Profile.createdAt profile |}.

(** The object [set] merges into the state in the setters:
    [{ profiles: newProfiles, duplicates: .., outliers: .. }]. *)
Definition setSettings (state : State) (newProfiles : list (string * Profile.t))
    (d : Duplicates.t) (o : Outliers.t) : State :=
  {| profiles := newProfiles;
     activeProfileId := activeProfileId state;
     isLoading := isLoading state;
     error := error state;
     currentFile := currentFile state;
     currentFileIdentifier := currentFileIdentifier state;
     rawData := rawData state;
     processedData := processedData state;
     cleanedData := cleanedData state;
     columnAnalysis := columnAnalysis state;
     duplicates := d;
     outliers := o |}.

Definition setDuplicatesColumns (columns : list string) (state : State) : State :=
  match activeProfileId state with
  | None => state
  | Some active =>
      if String.eqb active "" then state
      else
        match mapGet (profiles state) active with
        | Some profile =>
            let d :=
              {| Duplicates.selectedColumns := columns;
                 Duplicates.groups := Duplicates.groups (Profile.duplicates profile);
                 Duplicates.statistics := Duplicates.statistics (Profile.duplicates profile);
                 Duplicates.activeTab := Duplicates.activeTab (Profile.duplicates profile);
                 Duplicates.expandedGroup :=
                   Duplicates.expandedGroup (Profile.duplicates profile) |} in
            setSettings state (mapSet (profiles state) active (withDuplicates profile d))
              d (outliers state)
        | None => setSettings state (profiles state) (duplicates state) (outliers state)
        end
  end.

Definition setOutliersColumn (column : string) (state : State) : State :=
  match activeProfileId state with
  | None => state
  | Some active =>
      if String.eqb active "" then state
      else
        match mapGet (profiles state) active with
        | Some profile =>
            let o :=
              {| Outliers.columnName := column;
                 Outliers.method := Outliers.method (Profile.outliers profile);
                 Outliers.threshold := Outliers.threshold (Profile.outliers profile);
                 Outliers.statistics := Outliers.statistics (Profile.outliers profile);
                 Outliers.activeTab := Outliers.activeTab (Profile.outliers profile);
                 Outliers.chartData := Outliers.chartData (Profile.outliers profile) |} in
            setSettings state (mapSet (profiles state) active (withOutliers profile o))
              (duplicates state) o
        | None => setSettings state (profiles state) (duplicates state) (outliers state)
        end
  end.

Definition setOutliersMethod (method : string) (threshold : number) (state : State)
  : State :=
  match activeProfileId state with
  | None => state
  | Some active =>
      if String.eqb active "" then state
      else
        match mapGet (profiles state) active with
        | Some profile =>
            let o :=
              {| Outliers.columnName := Outliers.columnName (Profile.outliers profile);
                 Outliers.method := method;
                 Outliers.threshold := threshold;
                 Outliers.statistics := Outliers.statistics (Profile.outliers profile);
                 Outliers.activeTab := Outliers.activeTab (Profile.outliers profile);
                 Outliers.chartData := Outliers.chartData (Profile.outliers profile) |} in
            setSettings state (mapSet (profiles state) active (withOutliers profile o))
              (duplicates state) o
        | None => setSettings state (profiles state) (duplicates state) (outliers state)
        end
  end.

Definition setActiveTab (section tab : string) (state : State) : State :=
  match activeProfileId state with
  | None => state
  | Some active =>
      if String.eqb active "" then state
      else
        match mapGet (profiles state) active with
        | Some profile =>
            if String.eqb section "duplicates" then
              let d :=
                {| Duplicates.selectedColumns :=
                     Duplicates.selectedColumns (Profile.duplicates profile);
                   Duplicates.groups := Duplicates.groups (Profile.duplicates profile);
                   Duplicates.statistics :=
                     Duplicates.statistics (Profile.duplicates profile);
                   Duplicates.activeTab := tab;
                   Duplicates.expandedGroup :=
                     Duplicates.expandedGroup (Profile.duplicates profile) |} in
              setSettings state (mapSet (profiles state) active (withDuplicates profile d))
                d (Profile.outliers profile)
            else if String.eqb section "outliers" then
              let o :=
                {| Outliers.columnName := Outliers.columnName (Profile.outliers profile);
                   Outliers.method := Outliers.method (Profile.outliers profile);
                   Outliers.threshold := Outliers.threshold (Profile.outliers profile);
                   Outliers.statistics := Outliers.statistics (Profile.outliers profile);
                   Outliers.activeTab := tab;
                   Outliers.chartData := Outliers.chartData (Profile.outliers profile) |} in
              setSettings state (mapSet (profiles state) active (withOutliers profile o))
                (Profile.duplicates profile) o
            else
              setSettings state (profiles state) (Profile.duplicates profile)
                (Profile.outliers profile)
        | None => setSettings state (profiles state) (duplicates state) (outliers state)
        end
  end.

Definition setExpandedGroup (groupId : option string) (state : State) : State :=
  match activeProfileId state with
  | None => state
  | Some active =>
      if String.eqb active "" then state
      else
        match mapGet (profiles state) active with
        | Some profile =>
            let d :=
              {| Duplicates.selectedColumns :=
                   Duplicates.selectedColumns (Profile.duplicates profile);
                 Duplicates.groups := Duplicates.groups (Profile.duplicates profile);
                 Duplicates.statistics := Duplicates.statistics (Profile.duplicates profile);
                 Duplicates.activeTab := Duplicates.activeTab (Profile.duplicates profile);
                 Duplicates.expandedGroup := groupId |} in
            setSettings state (mapSet (profiles state) active (withDuplicates profile d))
              d (outliers state)
        | None => setSettings state (profiles state) (duplicates state) (outliers state)
        end
  end.

(** *** The row editors on the whole store *)

Definition removeDuplicates (indices : list Z) (state : State) : State :=
  match activeProfileId state with
  | None => state
  | Some active =>
      if String.eqb active "" then state
      else
        match mapGet (profiles state) active with
        | None => state
        | Some currentProfile =>
            match orTable (Profile.cleanedData currentProfile)
                          (Profile.processedData currentProfile) with
            | None => state
            | Some data =>
                let newRows := filterRows indices 0 (rows data) in
                let newCleanedData := {| headers := headers data; rows := newRows |} in
                {| profiles :=
                     mapSet (profiles state) active
                       (withCleanedData currentProfile newCleanedData);
                   activeProfileId := activeProfileId state;
                   isLoading := isLoading state;
                   error := error state;
                   currentFile := currentFile state;
                   currentFileIdentifier := currentFileIdentifier state;
                   rawData := rawData state;
                   processedData := processedData state;
                   cleanedData := Some newCleanedData;
                   columnAnalysis := columnAnalysis state;
                   duplicates := duplicates state;
                   outliers := outliers state |}
            end
        end
  end.

Definition removeOutliers (indices : list Z) (state : State) : State :=
  match activeProfileId state with
  | None => state
  | Some active =>
      if String.eqb active "" then state
      else
        match mapGet (profiles state) active with
        | None => state
        | Some currentProfile =>
            match orTable (Profile.cleanedData currentProfile)
                          (Profile.processedData currentProfile) with
            | None => state
            | Some data =>
                let newRows := filterRows indices 0 (rows data) in
                let newCleanedData := {| headers := headers data; rows := newRows |} in
                {| profiles :=
                     mapSet (profiles state) active
                       (withCleanedData currentProfile newCleanedData);
                   activeProfileId := activeProfileId state;
                   isLoading := isLoading state;
                   error := error state;
                   currentFile := currentFile state;
                   currentFileIdentifier := currentFileIdentifier state;
                   rawData := rawData state;
                   processedData := processedData state;
                   cleanedData := Some newCleanedData;
                   columnAnalysis := columnAnalysis state;
                   duplicates := duplicates state;
                   outliers := outliers state |}
            end
        end
  end.

End Store.

(** *** The store of the cleaning code inside the whole store *)

(** The tables of a profile, and the seven fields the cleaning code works
    on: what [UnifiedDataState] keeps of the whole store. *)
Definition viewProfile (profile : Store.Profile.t) : FileProfile.t :=
  {| FileProfile.rawData := Store.Profile.rawData profile;
     FileProfile.processedData := Store.Profile.processedData profile;
     FileProfile.cleanedData := Store.Profile.cleanedData profile |}.

Definition viewStore (state : Store.State) : UnifiedDataState :=
  {| profiles :=
       list_to_map (map (fun entry => (fst entry, viewProfile (snd entry)))
                        (Store.profiles state));
     activeProfileId := Store.activeProfileId state;
     isLoading := Store.isLoading state;
     error := Store.error state;
     rawData := Store.rawData state;
     processedData := Store.processedData state;
     cleanedData := Store.cleanedData state |}.

(** [processMissingValues] on the whole store: it reads the three tables of
    the state and writes [isLoading], [error] and [cleanedData]. *)
Definition processMissingValuesOn {engine : Engine} (settings : settingsMap)
    (callbacks : option Callbacks) (state : Store.State)
  : Store.State * list event * behaviour :=
  let '(after, calls, thrown) := processMissingValues settings callbacks (viewStore state) in
  ({| Store.profiles := Store.profiles state;
      Store.activeProfileId := Store.activeProfileId state;
      Store.isLoading := isLoading after;
      Store.error := error after;
      Store.currentFile := Store.currentFile state;
      Store.currentFileIdentifier := Store.currentFileIdentifier state;
      Store.rawData := Store.rawData state;
      Store.processedData := Store.processedData state;
      Store.cleanedData := cleanedData after;
      Store.columnAnalysis := Store.columnAnalysis state;
      Store.duplicates := Store.duplicates state;
      Store.outliers := Store.outliers state |},
   calls, thrown).

(** ** Definitions used by the statements about the whole store *)

(** An action of the store that manages profiles, their settings or their
    rows. *)
Inductive action : Type :=
| CreateProfile (file : Store.File) (now created : number)
| SwitchProfile (profileId : string)
| DeleteProfile (profileId : string)
| ClearFile
| ClearAllFiles
| SetDuplicatesColumns (columns : list string)
| SetOutliersColumn (column : string)
| SetOutliersMethod (method : string) (threshold : number)
| SetActiveTab (section tab : string)
| SetExpandedGroup (groupId : option string)
| RemoveDuplicates (indices : list Z)
| RemoveOutliers (indices : list Z).

Definition perform (state : Store.State) (a : action) : Store.State :=
  match a with
  | CreateProfile file now created => fst (Store.createProfile file now created state)
  | SwitchProfile profileId => fst (Store.switchProfile profileId state)
  | DeleteProfile profileId => Store.deleteProfile profileId state
  | ClearFile => fst (Store.clearFile state)
  | ClearAllFiles => fst (Store.clearAllFiles state)
  | SetDuplicatesColumns columns => Store.setDuplicatesColumns columns state
  | SetOutliersColumn column => Store.setOutliersColumn column state
  | SetOutliersMethod method threshold => Store.setOutliersMethod method threshold state
  | SetActiveTab section tab => Store.setActiveTab section tab state
  | SetExpandedGroup groupId => Store.setExpandedGroup groupId state
  | RemoveDuplicates indices => Store.removeDuplicates indices state
  | RemoveOutliers indices => Store.removeOutliers indices state
  end.

(** The actions performed one after the other. *)
Definition performAll (actions : list action) (state : Store.State) : Store.State :=
  fold_left perform actions state.

(** The derived fields of the state are those of the profile. *)
Definition mirrors (state : Store.State) (profile : Store.Profile.t) : Prop :=
  Store.currentFile state = Store.Profile.file profile
  /\ Store.currentFileIdentifier state = Store.Profile.fileIdentifier profile
  /\ Store.rawData state = Store.Profile.rawData profile
  /\ Store.processedData state = Store.Profile.processedData profile
  /\ Store.cleanedData state = Store.Profile.cleanedData profile
  /\ Store.columnAnalysis state = Store.Profile.columnAnalysis profile
  /\ Store.duplicates state = Store.Profile.duplicates profile
  /\ Store.outliers state = Store.Profile.outliers profile.

(** The derived fields are in step with the profiles: they are those of
    the active profile, which is in the map, or the defaults when no profile
    is active. *)
Definition inSync (state : Store.State) : Prop :=
  match Store.activeProfileId state with
  | Some active =>
      exists profile,
        Store.mapGet (Store.profiles state) active = Some profile
        /\ mirrors state profile
  | None =>
      Store.profiles state = []
      /\ mirrors state (Store.createDefaultProfile "" None "" 0%float 0%float)
  end.

(** The list is a [Map] of profiles filed under their identifiers: no key
    twice, every profile under its own [id], and no key empty. *)
Definition profilesFiled (state : Store.State) : Prop :=
  List.NoDup (map fst (Store.profiles state))
  /\ List.Forall (fun entry => Store.Profile.id (snd entry) = fst entry /\ fst entry <> "")
        (Store.profiles state).

(** ** Definitions used by the statements about the cleaning code *)

(** A number that JSON cannot write: [NaN] or an infinity. *)
Definition nonFinite (cell : jsval) : bool :=
  match cell with
  | VNumber x => isNaN x || PrimFloat.is_infinity x
  | _ => false
  end.

(** The progress reported at a step of the loop over the settings. *)
Definition progressAt (totalSteps step : nat) : number :=
  Math_round (number_of_nat step / number_of_nat totalSteps * 100)%float.

(** The calls received by the hooks of a run over [n] settings that goes
    through: one progress report for each setting, the report of 100, and
    the completion. *)
Definition successCalls (callbacks : option Callbacks) (n : nat) : list event :=
  (flat_map (fun step => fst (callOnProgress callbacks (progressAt n step))) (seq 1 n)
   ++ fst (callOnProgress callbacks 100%float)
   ++ fst (callOnComplete callbacks))%list.


(** The derived fields of the state. *)
Definition derivedOf (state : Store.State) :=
  (Store.currentFile state, Store.currentFileIdentifier state,
   Store.rawData state, Store.processedData state, Store.cleanedData state,
   Store.columnAnalysis state, Store.duplicates state, Store.outliers state).

(** The actions that set a field of the duplicate or outlier settings. *)
Definition isSetting (a : action) : bool :=
  match a with
  | SetDuplicatesColumns _ | SetOutliersColumn _ | SetOutliersMethod _ _
  | SetActiveTab _ _ | SetExpandedGroup _ => true
  | _ => false
  end.

(** A store with two profiles, created one after the other; the second is
    the active one. *)
Definition twoProfiles : Store.State :=
  performAll
    [CreateProfile {| Store.name := "a.csv"; Store.size := 10 |} 1000 1000;
     CreateProfile {| Store.name := "b.csv"; Store.size := 20 |} 2000 2000]
    Store.initialState.

(** A store whose only profile is active and holds the given processed
    table. *)
Definition wholeStoreWith (id : string) (data : table) : Store.State :=
  let profile :=
    {| Store.Profile.id := id;
       Store.Profile.file := None;
       Store.Profile.fileIdentifier := None;
       Store.Profile.fileName := "";
       Store.Profile.fileSize := 0;
       Store.Profile.rawData := Some data;
       Store.Profile.processedData := Some data;
       Store.Profile.cleanedData := None;
       Store.Profile.columnAnalysis := [];
       Store.Profile.duplicates := Store.defaultDuplicates;
       Store.Profile.outliers := Store.defaultOutliers;
       Store.Profile.createdAt := 0 |} in
  {| Store.profiles := [(id, profile)];
     Store.activeProfileId := Some id;
     Store.isLoading := false;
     Store.error := None;
     Store.currentFile := None;
     Store.currentFileIdentifier := None;
     Store.rawData := Some data;
     Store.processedData := Some data;
     Store.cleanedData := None;
     Store.columnAnalysis := [];
     Store.duplicates := Store.defaultDuplicates;
     Store.outliers := Store.defaultOutliers |}.

(** * Strings *)

Module StringFacts.

Lemma eqb_refl (a : string) : String.eqb a a = true.
Proof.
  induction a as [|c a IH]; [reflexivity|].
  cbn [String.eqb]. rewrite Z.eqb_refl, IH. reflexivity.
Qed.

Lemma eqb_eq (a b : string) : String.eqb a b = true <-> a = b.
Proof.
  split.
  - revert b. induction a as [|c a IH]; intros [|d b] H; try discriminate H;
      [reflexivity|].
    cbn [String.eqb] in H. apply andb_true_iff in H. destruct H as [Hc Hs].
    apply Z.eqb_eq in Hc. rewrite Hc, (IH b Hs). reflexivity.
  - intros <-. apply eqb_refl.
Qed.

Lemma eqb_neq (a b : string) : String.eqb a b = false <-> a <> b.
Proof.
  split.
  - intros H Heq. apply eqb_eq in Heq. congruence.
  - intros H. destruct (String.eqb a b) eqn:E; [|reflexivity].
    apply eqb_eq in E. contradiction.
Qed.


End StringFacts.
(** * Properties *)

(** ** The conversions on examples *)

Lemma StringToNumber_examples :
  StringToNumber "5" = 5%float
  /\ StringToNumber " 12.5 " = 12.5%float
  /\ StringToNumber "1e3" = 1000%float
  /\ StringToNumber "0x1F" = 31%float
  /\ StringToNumber "" = 0%float
  /\ StringToNumber "   " = 0%float
  /\ isNaN (StringToNumber "abc") = true
  /\ isNaN (StringToNumber "12px") = true
  /\ StringToNumber "-Infinity" = PrimFloat.neg_infinity
  /\ StringToNumber "9007199254740993" = 9007199254740992%float.
Proof. repeat split; vm_compute; reflexivity. Qed.

Lemma NumberToString_examples :
  NumberToString 5 = "5"
  /\ NumberToString 2.5 = "2.5"
  /\ NumberToString (1 / 3) = "0.3333333333333333"
  /\ NumberToString (7 / 100 * 100) = "7.000000000000001"
  /\ NumberToString 1e21 = "1e+21"
  /\ NumberToString (1 / 10000000) = "1e-7"
  /\ NumberToString (-42) = "-42"
  /\ NumberToString NaN = "NaN".
Proof. repeat split; vm_compute; reflexivity. Qed.

(** ** The missing-cell classifier *)


Lemma trimStart_empty (s : string) :
  trimStart s = "" <-> everyChar isWhiteSpace s = true.
Proof.
  induction s as [|c s IH]; simpl.
  - tauto.
  - destruct (isWhiteSpace c); simpl.
    + exact IH.
    + split; intros H; discriminate H.
Qed.

Lemma trimEnd_empty (s : string) :
  trimEnd s = "" <-> everyChar isWhiteSpace s = true.
Proof.
  induction s as [|c s IH]; simpl.
  - tauto.
  - destruct (trimEnd s) eqn:Ht.
    + destruct (isWhiteSpace c); simpl.
      * split; intros _; [apply IH|]; reflexivity.
      * split; intros H; discriminate H.
    + split; intros H; [discriminate H|].
      apply andb_true_iff in H. destruct H as [_ H].
      apply IH in H. discriminate H.
Qed.

Lemma trimStart_head (s : string) :
  match trimStart s with
  | EmptyString => True
  | String c _ => isWhiteSpace c = false
  end.
Proof.
  induction s as [|c s IH]; simpl; [exact I|].
  destruct (isWhiteSpace c) eqn:Hc; [exact IH|exact Hc].
Qed.

Lemma trim_empty (s : string) :
  trim s = "" <-> everyChar isWhiteSpace s = true.
Proof.
  unfold trim. rewrite trimEnd_empty. split.
  - intros H. apply trimStart_empty.
    pose proof (trimStart_head s) as Hh.
    destruct (trimStart s) as [|c t]; [reflexivity|].
    simpl in H. rewrite Hh in H. discriminate H.
  - intros H. apply trimStart_empty in H. rewrite H. reflexivity.
Qed.


(** ** White space and trimming *)

Lemma isWhiteSpace_units (c : codeUnit) :
  isWhiteSpace c = true <-> In c whiteSpaceUnits.
Proof.
  unfold isWhiteSpace, code, whiteSpaceUnits. split.
  - intros H. rewrite !orb_true_iff, !andb_true_iff, !Z.leb_le, !Z.eqb_eq in H.
    cbn [In]. lia.
  - cbn [In]. intros H.
    repeat (destruct H as [<-|H]; [reflexivity|]). contradiction.
Qed.

Lemma whitespace_everyChar (s : string) :
  whitespace s <-> everyChar isWhiteSpace s = true.
Proof.
  induction s as [|c s IH]; cbn [whitespace everyChar]; [tauto|].
  rewrite andb_true_iff, isWhiteSpace_units, IH. tauto.
Qed.

Lemma whitespace_append (a b : string) :
  whitespace a -> whitespace b -> whitespace (a ++ b).
Proof.
  induction a as [|c a IH]; cbn [whitespace String.append]; [tauto|].
  intros [Hc Ha] Hb. split; [exact Hc|apply IH; assumption].
Qed.

Lemma append_empty (a : string) : a ++ "" = a.
Proof. induction a as [|c a IH]; [reflexivity|]. cbn. rewrite IH. reflexivity. Qed.

Lemma trimStart_split (s : string) :
  exists before, s = before ++ trimStart s /\ whitespace before.
Proof.
  induction s as [|c s (before & Hs & Hw)]; cbn [trimStart].
  - exists "". split; [reflexivity|exact I].
  - destruct (isWhiteSpace c) eqn:Hc.
    + exists (String c before). cbn [String.append whitespace].
      rewrite <- Hs. split; [reflexivity|].
      split; [apply isWhiteSpace_units; exact Hc|exact Hw].
    + exists "". split; [reflexivity|exact I].
Qed.

Lemma trimEnd_split (s : string) :
  exists after, s = trimEnd s ++ after /\ whitespace after.
Proof.
  induction s as [|c s (after & Hs & Hw)]; cbn [trimEnd].
  - exists "". split; [reflexivity|exact I].
  - destruct (trimEnd s) as [|d t] eqn:Ht.
    + cbn [String.append] in Hs. subst s.
      destruct (isWhiteSpace c) eqn:Hc.
      * exists (String c after). split; [reflexivity|].
        split; [apply isWhiteSpace_units; exact Hc|exact Hw].
      * exists after. split; [reflexivity|exact Hw].
    + exists after. split; [|exact Hw]. rewrite Hs at 1. reflexivity.
Qed.

(** A string is white space, its trimmed form, and white space. *)
Lemma trim_split (s : string) :
  exists before after,
    s = before ++ trim s ++ after /\ whitespace before /\ whitespace after.
Proof.
  destruct (trimStart_split s) as (before & Hs & Hb).
  destruct (trimEnd_split (trimStart s)) as (after & Ht & Ha).
  exists before, after. unfold trim. rewrite <- Ht. auto.
Qed.

Lemma trimStart_whitespace (before rest : string) :
  whitespace before -> trimStart (before ++ rest) = trimStart rest.
Proof.
  induction before as [|c before IH]; cbn [whitespace String.append trimStart];
    [reflexivity|].
  intros [Hc Hw]. apply isWhiteSpace_units in Hc. rewrite Hc. apply IH. exact Hw.
Qed.

Lemma trimEnd_core (core after : string) :
  everyChar (fun c => negb (isWhiteSpace c)) core = true -> whitespace after ->
  trimEnd (core ++ after) = core.
Proof.
  intros Hcore Hafter. induction core as [|c core IH]; cbn [String.append].
  - apply trimEnd_empty, whitespace_everyChar. exact Hafter.
  - cbn [everyChar] in Hcore. apply andb_true_iff in Hcore. destruct Hcore as [Hc Hcore].
    cbn [trimEnd]. rewrite (IH Hcore).
    destruct core as [|d core']; [|reflexivity].
    apply negb_true_iff in Hc. rewrite Hc. reflexivity.
Qed.

(** Trimming takes the white space off a core that has none. *)
Lemma trim_core (before core after : string) :
  whitespace before -> whitespace after ->
  everyChar (fun c => negb (isWhiteSpace c)) core = true ->
  trim (before ++ core ++ after) = core.
Proof.
  intros Hb Ha Hcore. unfold trim. rewrite (trimStart_whitespace _ _ Hb).
  destruct core as [|c core'].
  - cbn [String.append].
    assert (H : trimStart after = "")
      by (apply trimStart_empty, whitespace_everyChar; exact Ha).
    rewrite H. reflexivity.
  - cbn [String.append trimStart].
    pose proof Hcore as Hc. cbn [everyChar] in Hc. apply andb_true_iff in Hc.
    destruct Hc as [Hc _]. apply negb_true_iff in Hc. rewrite Hc.
    exact (trimEnd_core (String c core') after Hcore Ha).
Qed.

(** ** Lower case *)

Lemma lowerOf_plain (cp : Z) : plain cp -> lowerOf cp = [asciiLower cp].
Proof.
  intros Hcp.
  assert (Hall : forallb (fun n => match lowerOf (Z.of_nat n) with
                                   | [q] => q =? asciiLower (Z.of_nat n)
                                   | _ => false
                                   end) (seq 0 128) = true)
    by (vm_compute; reflexivity).
  rewrite forallb_forall in Hall.
  specialize (Hall (Z.to_nat cp)).
  unfold plain in Hcp. rewrite Z2Nat.id in Hall by lia.
  assert (Hin : In (Z.to_nat cp) (seq 0 128)) by (apply in_seq; lia).
  specialize (Hall Hin).
  destruct (lowerOf cp) as [|q [|r l]]; try discriminate Hall.
  apply Z.eqb_eq in Hall. rewrite Hall. reflexivity.
Qed.

Lemma lowerDelta_high (table : list (Z * Z * Z * Z)) (cp : Z) :
  forallb entryKeepsHigh table = true -> ~ plain cp ->
  ~ plain (cp + lowerDelta table cp) \/ cp + lowerDelta table cp = 107.
Proof.
  intros Htable Hcp. induction table as [|[[[first last] step] delta] table IH];
    cbn [lowerDelta].
  - left. rewrite Z.add_0_r. exact Hcp.
  - cbn [forallb] in Htable. apply andb_true_iff in Htable.
    destruct Htable as [Hentry Htable].
    destruct (inRange first last cp && ((cp - first) mod step =? 0)) eqn:Hmatch;
      [|apply IH; exact Htable].
    apply andb_true_iff in Hmatch. destruct Hmatch as [Hrange _].
    unfold inRange in Hrange. unfold entryKeepsHigh in Hentry. unfold plain in *.
    rewrite !andb_true_iff, !orb_true_iff, !andb_true_iff in *.
    rewrite ?Z.leb_le, ?Z.ltb_lt, ?Z.eqb_eq in *.
    lia.
Qed.

Lemma lowerCaseRanges_keep_high : forallb entryKeepsHigh lowerCaseRanges = true.
Proof. vm_compute. reflexivity. Qed.

(** The lower case of a code point outside ASCII has a code point that is
    outside ASCII, or [i], or [k]. *)
Lemma lowered_high (before after : list Z) (cp : Z) :
  ~ plain cp ->
  exists q,
    In q (if (cp =? 0x3a3) && finalSigma before after then [0x3c2] else lowerOf cp)
    /\ (~ plain q \/ q = 105 \/ q = 107).
Proof.
  intros Hcp.
  destruct ((cp =? 0x3a3) && finalSigma before after).
  - exists 0x3c2. split; [left; reflexivity|]. left. unfold plain. lia.
  - unfold lowerOf. destruct (cp =? 0x130).
    + exists 0x69. split; [left; reflexivity|]. right. left. reflexivity.
    + exists (cp + lowerDelta lowerCaseRanges cp). split; [left; reflexivity|].
      destruct (lowerDelta_high lowerCaseRanges cp lowerCaseRanges_keep_high Hcp);
        [left|right; right]; assumption.
Qed.

Lemma lowered_plain (before after : list Z) (cp : Z) :
  plain cp ->
  (if (cp =? 0x3a3) && finalSigma before after then [0x3c2] else lowerOf cp)
  = [asciiLower cp].
Proof.
  intros Hcp.
  assert (H : (cp =? 0x3a3) = false) by (apply Z.eqb_neq; unfold plain in Hcp; lia).
  rewrite H. cbn [andb]. apply lowerOf_plain. exact Hcp.
Qed.

Lemma units_append (a b : string) : units (a ++ b) = (units a ++ units b)%list.
Proof.
  induction a as [|c a IH]; [reflexivity|]. cbn [String.append units].
  rewrite IH. reflexivity.
Qed.

Lemma ofCodePoints_app (a b : list Z) :
  ofCodePoints (a ++ b) = ofCodePoints a ++ ofCodePoints b.
Proof.
  induction a as [|cp a IH]; [reflexivity|].
  cbn [app ofCodePoints]. destruct (0x10000 <=? cp); cbn [String.append];
    rewrite IH; reflexivity.
Qed.

(** A code point that is outside ASCII, or [i] or [k], leaves such a code
    unit in the string. *)
Lemma ofCodePoints_high (points : list Z) (q : Z) :
  In q points -> ~ plain q \/ q = 105 \/ q = 107 ->
  exists u, In u (units (ofCodePoints points))
            /\ (~ plain u \/ u = 105 \/ u = 107).
Proof.
  intros Hin Hq. induction points as [|cp points IH]; [destruct Hin|].
  cbn [ofCodePoints]. destruct Hin as [->|Hin].
  - destruct (0x10000 <=? q) eqn:Hbig.
    + apply Z.leb_le in Hbig.
      exists (0xd800 + (q - 0x10000) / 0x400). split; [left; reflexivity|].
      left. unfold plain.
      assert (0 <= (q - 0x10000) / 0x400) by (apply Z.div_pos; lia). lia.
    + exists q. split; [left; reflexivity|exact Hq].
  - destruct (IH Hin) as (u & Hu & Hbad).
    exists u. split; [|exact Hbad].
    destruct (0x10000 <=? cp); cbn [units]; auto with datatypes.
Qed.

(** When the lower case of a string is made of ASCII units other than [i]
    and [k], the code points of the string are ASCII. *)
Lemma lowerPoints_plain (points before : list Z) :
  Forall (fun u => plain u /\ u <> 105 /\ u <> 107)
         (units (ofCodePoints (lowerPoints before points))) ->
  Forall plain points.
Proof.
  revert before. induction points as [|cp points IH]; intros before H; [constructor|].
  cbn [lowerPoints] in H. rewrite ofCodePoints_app, units_append in H.
  apply List.Forall_app in H. destruct H as [Hchunk Hrest].
  constructor; [|exact (IH _ Hrest)].
  destruct (Z_lt_le_dec cp 0) as [Hneg|Hpos];
    [|destruct (Z_lt_le_dec cp 128) as [Hlow|Hhigh]; [split; assumption|]].
  - exfalso.
    destruct (lowered_high before points cp) as (q & Hq & Hbad);
      [unfold plain; lia|].
    destruct (ofCodePoints_high _ q Hq Hbad) as (u & Hu & Hubad).
    rewrite List.Forall_forall in Hchunk. specialize (Hchunk u Hu). tauto.
  - exfalso.
    destruct (lowered_high before points cp) as (q & Hq & Hbad);
      [unfold plain; lia|].
    destruct (ofCodePoints_high _ q Hq Hbad) as (u & Hu & Hubad).
    rewrite List.Forall_forall in Hchunk. specialize (Hchunk u Hu). tauto.
Qed.

Lemma codePoints_plain (s : string) :
  Forall plain (codePoints s) -> Forall plain (units s) /\ codePoints s = units s.
Proof.
  induction s as [|c s IH]; [intros _; split; [constructor|reflexivity]|].
  cbn [codePoints units]. destruct s as [|d s'].
  - intros H. split; [exact H|reflexivity].
  - destruct (isLeadingSurrogate c && isTrailingSurrogate d) eqn:Hpair.
    + intros H. exfalso. inversion H as [|? ? Hcp _]. subst.
      apply andb_true_iff in Hpair. destruct Hpair as [Hc Hd].
      unfold isLeadingSurrogate, isTrailingSurrogate, inRange in Hc, Hd.
      rewrite !andb_true_iff, !Z.leb_le in Hc, Hd. unfold plain in Hcp. lia.
    + intros H. inversion H as [|? ? Hc Hrest]. subst.
      destruct (IH Hrest) as [Hu Heq].
      split; [constructor; assumption|]. rewrite Heq. reflexivity.
Qed.

Lemma codePoints_units (s : string) :
  Forall plain (units s) -> codePoints s = units s.
Proof.
  induction s as [|c s IH]; [reflexivity|].
  cbn [codePoints units]. intros H. inversion H as [|? ? Hc Hrest]. subst.
  destruct s as [|d s']; [reflexivity|].
  assert (Hlead : isLeadingSurrogate c = false).
  { unfold isLeadingSurrogate, inRange. unfold plain in Hc.
    apply andb_false_iff. left. apply Z.leb_gt. lia. }
  rewrite Hlead. cbn [andb]. rewrite (IH Hrest). reflexivity.
Qed.

Lemma lowerPoints_ascii (points before : list Z) :
  Forall plain points -> lowerPoints before points = map asciiLower points.
Proof.
  revert before. induction points as [|cp points IH]; intros before H; [reflexivity|].
  inversion H as [|? ? Hcp Hrest]. subst.
  cbn [lowerPoints map]. rewrite (lowered_plain before points cp Hcp), (IH _ Hrest).
  reflexivity.
Qed.

Lemma asciiLower_plain (cp : Z) : plain cp -> plain (asciiLower cp).
Proof.
  unfold plain, asciiLower. intros H.
  destruct ((65 <=? cp) && (cp <=? 90)) eqn:E; [|exact H].
  apply andb_true_iff in E. rewrite !Z.leb_le in E. lia.
Qed.

Lemma ofCodePoints_plain (points : list Z) :
  Forall plain points -> ofCodePoints points = ofUnits points.
Proof.
  induction points as [|cp points IH]; [reflexivity|].
  intros H. inversion H as [|? ? Hcp Hrest]. subst.
  cbn [ofCodePoints ofUnits].
  assert (Hsmall : (0x10000 <=? cp) = false)
    by (apply Z.leb_gt; unfold plain in Hcp; lia).
  rewrite Hsmall, (IH Hrest). reflexivity.
Qed.

(** On an ASCII string [toLowerCase] maps the capitals to the small
    letters, unit by unit. *)
Lemma toLowerCase_ascii (s : string) :
  Forall plain (units s) ->
  toLowerCase s = ofUnits (map asciiLower (units s)).
Proof.
  intros H. unfold toLowerCase.
  rewrite (codePoints_units s H), (lowerPoints_ascii _ _ H).
  apply ofCodePoints_plain.
  apply List.Forall_forall. intros q Hq. apply in_map_iff in Hq.
  destruct Hq as (cp & <- & Hcp). apply asciiLower_plain.
  rewrite List.Forall_forall in H. exact (H cp Hcp).
Qed.

Lemma ofUnits_units (s : string) : ofUnits (units s) = s.
Proof. induction s as [|c s IH]; [reflexivity|]. cbn. rewrite IH. reflexivity. Qed.

Lemma plainToken_units (token : string) :
  plainToken token = true ->
  Forall (fun u => plain u /\ u <> 105 /\ u <> 107) (units token).
Proof.
  unfold plainToken. induction token as [|t token IH]; cbn [everyChar units];
    [constructor|].
  intros H. apply andb_true_iff in H. destruct H as [Ht Htoken].
  constructor; [|exact (IH Htoken)].
  rewrite !andb_true_iff, !negb_true_iff, !Z.leb_le, !Z.eqb_neq in Ht.
  unfold plain. lia.
Qed.

(** Which ASCII strings have a given token as their lower case. *)
Lemma ascii_spells (text token : string) :
  plainToken token = true ->
  (Forall plain (units text) /\ ofUnits (map asciiLower (units text)) = token
   <-> spells text token).
Proof.
  unfold plainToken. revert token.
  induction text as [|c text IH]; intros [|t token] Htoken;
    cbn [units map ofUnits spells].
  - split; [intros _; exact I|intros _; split; [constructor|reflexivity]].
  - split; [intros [_ H]; discriminate H|intros []].
  - split; [intros [_ H]; discriminate H|intros []].
  - cbn [everyChar] in Htoken. apply andb_true_iff in Htoken.
    destruct Htoken as [Ht Htoken]. specialize (IH token Htoken).
    rewrite !andb_true_iff, !negb_true_iff, !Z.leb_le, !Z.eqb_neq in Ht.
    rewrite andb_false_iff, Z.leb_gt, Z.leb_gt in Ht.
    split.
    + intros [Hall Heq]. inversion Hall as [|? ? Hc Hrest]. subst.
      injection Heq as Hhead Htail.
      split; [|apply IH; split; assumption].
      unfold asciiLower in Hhead. unfold plain in Hc.
      destruct ((65 <=? c) && (c <=? 90)) eqn:E.
      * apply andb_true_iff in E. rewrite !Z.leb_le in E. right. lia.
      * left. exact Hhead.
    + intros [Hc Hrest]. apply IH in Hrest. destruct Hrest as [Hall Heq].
      assert (Hplain : plain c) by (unfold plain; lia).
      split; [constructor; assumption|].
      rewrite Heq. f_equal. unfold asciiLower.
      destruct ((65 <=? c) && (c <=? 90)) eqn:E.
      * apply andb_true_iff in E. rewrite !Z.leb_le in E. lia.
      * apply andb_false_iff in E. rewrite !Z.leb_gt in E. lia.
Qed.

(** The strings whose lower case is a given token are the token written
    with ASCII letters of either case: no code point outside ASCII has
    [a], [l], [n] or [u] in its lower case. *)
Lemma toLowerCase_token (text token : string) :
  plainToken token = true ->
  (toLowerCase text = token <-> spells text token).
Proof.
  intros Htoken. rewrite <- (ascii_spells text token Htoken). split.
  - intros Hlower.
    assert (Hpoints : Forall plain (codePoints text)).
    { apply (lowerPoints_plain _ []). fold (toLowerCase text). rewrite Hlower.
      apply plainToken_units. exact Htoken. }
    destruct (codePoints_plain text Hpoints) as [Hunits _].
    split; [exact Hunits|]. rewrite <- (toLowerCase_ascii text Hunits). exact Hlower.
  - intros [Hunits Heq]. rewrite (toLowerCase_ascii text Hunits). exact Heq.
Qed.

(** A token written in either case has no white space. *)
Lemma spells_noWhite (text token : string) :
  plainToken token = true -> spells text token ->
  everyChar (fun c => negb (isWhiteSpace c)) text = true.
Proof.
  unfold plainToken. revert token.
  induction text as [|c text IH]; intros [|t token] Htoken Hspells;
    cbn [spells everyChar] in *; try reflexivity; try contradiction.
  apply andb_true_iff in Htoken. destruct Htoken as [Ht Htoken].
  destruct Hspells as [Hc Hrest].
  rewrite (IH token Htoken Hrest), andb_true_r.
  rewrite !andb_true_iff, !negb_true_iff, !Z.leb_le, !Z.eqb_neq in Ht.
  apply negb_true_iff. unfold isWhiteSpace, code.
  repeat (apply orb_false_iff; split);
    try (apply andb_false_iff; rewrite !Z.leb_gt; lia);
    try (apply Z.eqb_neq; lia).
Qed.

(** ** The missing-cell classifier *)

Lemma includes_sentinels (s : string) :
  includes sentinels s = true
  <-> s = "na" \/ s = "n/a" \/ s = "null" \/ s = "-" \/ s = "nan".
Proof.
  unfold includes, sentinels. cbn [existsb].
  rewrite !orb_true_iff, !StringFacts.eqb_eq.
  split.
  - intros [H|[H|[H|[H|[H|H]]]]]; try discriminate H; subst s; tauto.
  - intros [H|[H|[H|[H|H]]]]; subst s; tauto.
Qed.

(** C3. A cell is classified as missing exactly when it is [null],
    [undefined], or a string that consists of white space, then nothing or
    one of the tokens [na], [n/a], [null], [-], [nan] written with letters
    of either case, then white space: the empty string, a whitespace-only
    string, or a string whose trimmed and lowercased form is a sentinel.
    White space is what [trim] strips: the code units of [whiteSpaceUnits].
    Every number and every boolean is present, among them the number [0]
    and [false]; so is the text [NA] inside a longer word. *)
Theorem isCellMissing_characterisation (cell : jsval) :
  (isCellMissing cell = true <->
     cell = VNull \/ cell = VUndefined
     \/ exists before token after,
          cell = VString (before ++ token ++ after)
          /\ whitespace before /\ whitespace after
          /\ (token = "" \/ spells token "na" \/ spells token "n/a"
              \/ spells token "null" \/ spells token "-" \/ spells token "nan"))
  /\ (forall x, isCellMissing (VNumber x) = false)
  /\ (forall b, isCellMissing (VBoolean b) = false)
  /\ isCellMissing (VString (String 0x3000 (String 0x4e (String 0x2f (String 0x41
                      (String 0x9 (String 0xfeff ""))))))) = true
  /\ isCellMissing (VString "NaN") = true
  /\ isCellMissing (VString "nan1") = false
  /\ isCellMissing (VString "0") = false.
Proof.
  split; [|repeat split; reflexivity].
  destruct cell as [| |b|x|s].
  - split; [intros _; right; left; reflexivity|reflexivity].
  - split; [intros _; left; reflexivity|reflexivity].
  - split; [intros H; discriminate H|].
    intros [H|[H|(? & ? & ? & H & _)]]; discriminate H.
  - split; [intros H; discriminate H|].
    intros [H|[H|(? & ? & ? & H & _)]]; discriminate H.
  - cbn [isCellMissing].
    rewrite !orb_true_iff, !StringFacts.eqb_eq, includes_sentinels.
    rewrite !(toLowerCase_token (trim s)) by reflexivity.
    destruct (trim_split s) as (before & after & Hs & Hb & Ha).
    split.
    + intros H. right. right. exists before, (trim s), after.
      split; [rewrite <- Hs; reflexivity|]. split; [exact Hb|]. split; [exact Ha|].
      destruct H as [[H|H]|H].
      * left. rewrite H. reflexivity.
      * left. exact H.
      * right. exact H.
    + intros [H|[H|(before' & token & after' & H & Hb' & Ha' & Htoken)]];
        try discriminate H.
      injection H as ->.
      assert (Hcore : everyChar (fun c => negb (isWhiteSpace c)) token = true).
      { destruct Htoken as [->|[H|[H|[H|[H|H]]]]]; [reflexivity| | | | |];
          (eapply spells_noWhite; [|exact H]; reflexivity). }
      rewrite (trim_core before' token after' Hb' Ha' Hcore).
      destruct Htoken as [->|H]; [left; right; reflexivity|right; exact H].
Qed.

(** ** Arrays and headers *)

Lemma indexOf_None (hs : list string) (column : string) :
  indexOf hs column = None <-> ~ In column hs.
Proof.
  induction hs as [|h hs IH]; simpl.
  - tauto.
  - destruct (String.eqb h column) eqn:E.
    + apply StringFacts.eqb_eq in E. split; [discriminate|]. intros H. tauto.
    + apply StringFacts.eqb_neq in E. destruct (indexOf hs column).
      * split; [discriminate|]. intros H. exfalso. apply H. right.
        destruct IH as [_ IH]. destruct (in_dec string_eq_dec column hs) as [Hin|Hn];
          [exact Hin|]. specialize (IH Hn). discriminate IH.
      * split; [|reflexivity]. intros _ [H|H]; [contradiction|].
        destruct IH as [IH _]. exact (IH eq_refl H).
Qed.

Lemma indexOf_Some (hs : list string) (column : string) (i : nat) :
  indexOf hs column = Some i -> hs !! i = Some column.
Proof.
  revert i. induction hs as [|h hs IH]; simpl; intros i H; [discriminate|].
  destruct (String.eqb h column) eqn:E.
  - apply StringFacts.eqb_eq in E. injection H as <-. simpl. congruence.
  - destruct (indexOf hs column) as [k|]; [|discriminate].
    injection H as <-. simpl. apply IH. reflexivity.
Qed.

Lemma cellAt_arraySet_ne (row : list jsval) (i j : nat) (v : jsval) :
  i <> j -> cellAt (arraySet row i v) j = cellAt row j.
Proof.
  intros Hne. unfold cellAt, arraySet.
  destruct (i <? length row)%nat eqn:Hlt.
  - rewrite list_lookup_insert_ne by exact Hne. reflexivity.
  - apply Nat.ltb_ge in Hlt.
    destruct (decide (j < length row)%nat) as [Hj|Hj].
    + rewrite lookup_app_l by exact Hj. reflexivity.
    + rewrite (lookup_ge_None_2 row j) by lia.
      rewrite lookup_app_r by lia.
      destruct (decide (j - length row < i - length row)%nat) as [Hp|Hp].
      * rewrite lookup_app_l by (rewrite length_replicate; exact Hp).
        rewrite lookup_replicate_2 by exact Hp. reflexivity.
      * rewrite lookup_app_r by (rewrite length_replicate; lia).
        rewrite length_replicate.
        assert (Hk : (j - length row - (i - length row) = S (j - i - 1))%nat) by lia.
        rewrite Hk. reflexivity.
Qed.

Lemma cellAt_arraySet_eq (row : list jsval) (i : nat) (v : jsval) :
  cellAt (arraySet row i v) i = v.
Proof.
  unfold cellAt, arraySet.
  destruct (i <? length row)%nat eqn:Hlt.
  - apply Nat.ltb_lt in Hlt. rewrite list_lookup_insert_eq by exact Hlt. reflexivity.
  - apply Nat.ltb_ge in Hlt.
    rewrite lookup_app_r by exact Hlt.
    rewrite lookup_app_r by (rewrite length_replicate; lia).
    rewrite length_replicate, Nat.sub_diag. reflexivity.
Qed.

(** ** Filling a column *)

Lemma fillRows_length (rs : list (list jsval)) (colIndex : nat) (v : jsval) :
  length (fillRows rs colIndex v) = length rs.
Proof. unfold fillRows. apply length_map. Qed.

Lemma fillRows_lookup (rs : list (list jsval)) (colIndex : nat) (v : jsval) (i : nat) :
  fillRows rs colIndex v !! i =
  (fun row => if isCellMissing (cellAt row colIndex) then arraySet row colIndex v
              else row) <$> rs !! i.
Proof. unfold fillRows. apply list_lookup_fmap. Qed.

(** Filling writes the value into the missing cells of the column and
    leaves every other cell as it was. *)
Lemma fillRows_cell (rs : list (list jsval)) (colIndex : nat) (v : jsval)
    (i j : nat) (row : list jsval) :
  rs !! i = Some row ->
  exists row', fillRows rs colIndex v !! i = Some row' /\
    cellAt row' j =
      if (j =? colIndex)%nat && isCellMissing (cellAt row colIndex) then v
      else cellAt row j.
Proof.
  intros Hrow. rewrite fillRows_lookup, Hrow. simpl.
  eexists. split; [reflexivity|].
  destruct (isCellMissing (cellAt row colIndex)) eqn:Hm.
  - destruct (j =? colIndex)%nat eqn:Hj; simpl.
    + apply Nat.eqb_eq in Hj. subst j. apply cellAt_arraySet_eq.
    + apply Nat.eqb_neq in Hj. apply cellAt_arraySet_ne. congruence.
  - rewrite andb_false_r. reflexivity.
Qed.

(** ** Columns that are not in the table *)


(** C8. A settings entry whose column is not among the headers of the
    working table is skipped: the step returns the working table as it is
    and throws nothing, whatever the setting holds, and the loop goes on to
    the remaining keys with the same table, having made no call but the
    progress report. *)
Theorem column_not_found_skipped {engine : Engine} (settings : settingsMap)
    (callbacks : option Callbacks) (totalSteps : nat) (keys' : list string)
    (currentStep : nat) (currentData : table) (column : string)
    (columnSetting : option ColumnSetting) :
  ~ In column (headers currentData) ->
  processColumn currentData column columnSetting = Returns currentData
  /\ processColumns settings callbacks totalSteps (column :: keys') currentStep
       currentData =
     match callOnProgress callbacks
             (Math_round (number_of_nat (S currentStep)
                          / number_of_nat totalSteps * 100)%float) with
     | (calls, Some message) => (Throws message, calls)
     | (calls, None) =>
         let '(result, calls') :=
           processColumns settings callbacks totalSteps keys' (S currentStep)
             currentData in
         (result, (calls ++ calls')%list)
     end.
Proof.
  intros Hnot. apply indexOf_None in Hnot.
  assert (Hstep : forall s, processColumn currentData column s = Returns currentData).
  { intros s. unfold processColumn. rewrite Hnot. reflexivity. }
  split; [apply Hstep|].
  simpl. rewrite Hstep. reflexivity.
Qed.

Lemma column_not_found_witness :
  ~ In "z" (headers scenarioTable)
  /\ processColumn (engine := sampleEngine) scenarioTable "z" None = Returns scenarioTable.
Proof.
  assert (H : ~ In "z" (headers scenarioTable)).
  { simpl. intros [H|[H|[]]]; discriminate H. }
  split; [exact H|].
  exact (proj1 (column_not_found_skipped [("z", None)] None 1 [] 0
                  scenarioTable "z" None H)).
Defined.

(** ** Dropping rows *)

(** The threshold is the setting's value as a number, and 50 when that
    number is [NaN] or zero. *)
Lemma dropThreshold_cases (v : jsval) :
  (isNaN (ToNumber v) = false -> PrimFloat.is_zero (ToNumber v) = false ->
   dropThreshold v = ToNumber v)
  /\ (isNaN (ToNumber v) = true \/ PrimFloat.is_zero (ToNumber v) = true ->
      dropThreshold v = 50%float).
Proof.
  unfold dropThreshold, numberTruthy. split.
  - intros H1 H2. rewrite H1, H2. reflexivity.
  - intros [H|H]; rewrite H; [reflexivity|].
    rewrite orb_true_r. reflexivity.
Qed.

(** What [number_of_nat] is: the double nearest to the integer. *)
Lemma number_of_nat_spec (n : nat) :
  Z.of_nat n < 2 ^ 63 ->
  Prim2SF (number_of_nat n) = binary_normalize prec emax (Z.of_nat n) 0 false.
Proof.
  intros Hn. unfold number_of_nat. rewrite of_uint63_spec, Uint63.of_Z_spec.
  rewrite Z.mod_small; [reflexivity|].
  split; [lia|]. exact Hn.
Qed.

(** The percentage the code computes is the one of [percentageOf]. *)
Lemma missingPercentage_spec (rows : list (list jsval)) (colIndex : nat) :
  Z.of_nat (length rows) < 2 ^ 32 ->
  missingPercentage rows colIndex
  = percentageOf
      (length (List.filter (fun row => isCellMissing (cellAt row colIndex)) rows))
      (length rows).
Proof.
  intros Hlen. unfold missingPercentage, percentageOf. fold (missingCount rows colIndex).
  assert (Hcount : (missingCount rows colIndex <= length rows)%nat)
    by apply List.filter_length_le.
  destruct (length rows) as [|n] eqn:Hn; [reflexivity|].
  change (0 <? S n)%nat with true. cbv iota.
  rewrite <- !number_of_nat_spec by lia.
  rewrite <- div_spec, <- mul_spec. symmetry. apply SF2Prim_Prim2SF.
Qed.

(** C1, as the code has it.  For a [drop] entry whose column is found, let
    [p] be the percentage of the rows whose cell in the column is missing,
    in double precision (the quotient of the two counts rounded to the
    nearest double, times 100, rounded again; 0 for a table without rows),
    and [t] the threshold: the setting's value as a number when that is a
    number other than zero, and 50 when the value is absent or not numeric.
    When [p <= t] the step keeps exactly the rows whose cell in the column
    is not missing, in their order; otherwise it returns the working table
    unchanged; neither case throws.  A table has fewer than [2^32] rows, the
    bound of an array's length. *)
Theorem drop_within_threshold {engine : Engine} (currentData : table) (column : string)
    (setting : ColumnSetting) (colIndex : nat) (t : number) :
  indexOf (headers currentData) column = Some colIndex ->
  strategy setting = "drop" ->
  Z.of_nat (length (rows currentData)) < 2 ^ 32 ->
  threshold (value setting) t ->
  let missing := List.filter (fun row => isCellMissing (cellAt row colIndex))
                             (rows currentData) in
  let present := List.filter (fun row => negb (isCellMissing (cellAt row colIndex)))
                             (rows currentData) in
  let p := percentageOf (length missing) (length (rows currentData)) in
  (PrimFloat.leb p t = true ->
   processColumn currentData column (Some setting)
   = Returns {| headers := headers currentData; rows := present |})
  /\ (PrimFloat.leb p t = false ->
      processColumn currentData column (Some setting) = Returns currentData).
Proof.
  intros Hidx Hstrat Hlen Ht missing present p.
  assert (Hthreshold : dropThreshold (value setting) = t).
  { destruct Ht as [v Hnan Hzero|v Hnan|v [->| ->]].
    - apply dropThreshold_cases; assumption.
    - apply dropThreshold_cases. left. exact Hnan.
    - reflexivity.
    - reflexivity. }
  assert (Hstep : processColumn currentData column (Some setting) =
                  if PrimFloat.leb p t
                  then Returns {| headers := headers currentData; rows := present |}
                  else Returns currentData).
  { unfold processColumn. rewrite Hidx, Hstrat. cbv zeta.
    rewrite Hthreshold, (missingPercentage_spec _ _ Hlen). reflexivity. }
  split; intros Hle; rewrite Hle in Hstep; exact Hstep.
Qed.

Lemma drop_within_threshold_witness :
  processColumn (engine := sampleEngine) scenarioTable "x"
    (Some {| strategy := "drop"; value := VNumber 50 |})
  = Returns {| headers := ["x"; "y"];
               rows := [[VNumber 1; VString "NA"]; [VNumber 2; VString "3"]] |}
  /\ processColumn (engine := sampleEngine) scenarioTable "x"
       (Some {| strategy := "drop"; value := VString "30" |})
     = Returns scenarioTable.
Proof.
  split.
  - apply (drop_within_threshold (engine := sampleEngine) scenarioTable "x"
             {| strategy := "drop"; value := VNumber 50 |} 0 50 eq_refl eq_refl).
    + vm_compute. reflexivity.
    + apply (threshold_numeric (VNumber 50)); reflexivity.
    + vm_compute. reflexivity.
  - apply (drop_within_threshold (engine := sampleEngine) scenarioTable "x"
             {| strategy := "drop"; value := VString "30" |} 0 30 eq_refl eq_refl).
    + vm_compute. reflexivity.
    + apply (threshold_numeric (VString "30")); vm_compute; reflexivity.
    + vm_compute. reflexivity.
Defined.

(** C1 as stated fails at the boundary.  7 rows of 100 have a missing cell
    in column [x] and the threshold is 7, so the percentage of missing rows
    is the threshold and the claim has the 7 rows removed; the step returns
    the table with its 100 rows, because the percentage it compares is the
    double [(7 / 100) * 100], which is [7.000000000000001]. *)
Lemma drop_boundary_rounding :
  length (List.filter (fun row => isCellMissing (cellAt row 0)) (rows sevenOfHundred))
  = 7%nat
  /\ length (rows sevenOfHundred) = 100%nat
  /\ ToNumber (VNumber 7) = 7%float
  /\ 100 * Z.of_nat (length (List.filter (fun row => isCellMissing (cellAt row 0))
                                          (rows sevenOfHundred)))
     = 7 * Z.of_nat (length (rows sevenOfHundred))
  /\ processColumn (engine := sampleEngine) sevenOfHundred "x"
       (Some {| strategy := "drop"; value := VNumber 7 |})
     = Returns sevenOfHundred
  /\ processColumn (engine := sampleEngine) sevenOfHundred "x"
       (Some {| strategy := "drop"; value := VNumber 7 |})
     <> Returns {| headers := headers sevenOfHundred;
                   rows := List.filter
                             (fun row => negb (isCellMissing (cellAt row 0)))
                             (rows sevenOfHundred) |}
  /\ PrimFloat.ltb 7 (missingPercentage (rows sevenOfHundred) 0) = true.
Proof.
  repeat split; try (vm_compute; reflexivity).
  vm_compute. intros H. discriminate H.
Qed.

(** A threshold of zero is replaced by 50 as well, [0] being falsy: with
    the value [0] and one missing row of three the step drops the row.  The
    step's other defaults keep a zero ([fill-value] uses [??]). *)
Lemma drop_zero_threshold {engine : Engine} :
  ToNumber (VNumber 0) = 0%float
  /\ missingCount (rows scenarioTable) 0 = 1%nat
  /\ length (rows scenarioTable) = 3%nat
  /\ PrimFloat.ltb (ToNumber (VNumber 0)) (missingPercentage (rows scenarioTable) 0) = true
  /\ processColumn scenarioTable "x" (Some {| strategy := "drop"; value := VNumber 0 |})
     = Returns {| headers := ["x"; "y"];
                  rows := [[VNumber 1; VString "NA"]; [VNumber 2; VString "3"]] |}.
Proof. repeat split; reflexivity. Qed.

(** The end-to-end scenarios of the specification: filling column [y] by
    its mean writes 3 into the two missing cells and keeps three rows;
    dropping on column [x] with threshold 30 drops nothing, one row of
    three being missing. *)
Lemma scenarios {engine : Engine} :
  processColumn scenarioTable "y"
    (Some {| strategy := "fill-method"; value := VString "mean" |})
  = Returns {| headers := ["x"; "y"];
               rows := [[VNumber 1; VNumber 3]; [VNumber 2; VString "3"];
                        [VString ""; VNumber 3]] |}
  /\ processColumn scenarioTable "x"
       (Some {| strategy := "drop"; value := VNumber 30 |})
     = Returns scenarioTable.
Proof. split; vm_compute; reflexivity. Qed.

(** ** Filling with a value *)

Lemma fillValueOf_numeric (v : jsval) :
  isNaN (ToNumber (nullish v (VString ""))) = false ->
  fillValueOf v = VNumber (ToNumber (nullish v (VString ""))).
Proof. intros H. unfold fillValueOf. rewrite H. reflexivity. Qed.

Lemma fillValueOf_text (v : jsval) :
  isNaN (ToNumber (nullish v (VString ""))) = true ->
  fillValueOf v = nullish v (VString "").
Proof. intros H. unfold fillValueOf. rewrite H. reflexivity. Qed.

Lemma fillValueOf_examples :
  fillValueOf (VString "5") = VNumber 5
  /\ fillValueOf (VString "abc") = VString "abc".
Proof. split; vm_compute; reflexivity. Qed.

(** A [fill-value] entry whose column is found writes [fillValueOf] of its
    value into the missing cells of the column; the other cells keep their
    values. *)
Lemma fill_value_step {engine : Engine} (currentData : table) (column : string)
    (setting : ColumnSetting) (colIndex : nat) :
  indexOf (headers currentData) column = Some colIndex ->
  strategy setting = "fill-value" ->
  exists filled,
    processColumn currentData column (Some setting)
    = Returns {| headers := headers currentData; rows := filled |}
    /\ length filled = length (rows currentData)
    /\ forall i j row, rows currentData !! i = Some row ->
         exists row', filled !! i = Some row' /\
           cellAt row' j =
             if (j =? colIndex)%nat && isCellMissing (cellAt row colIndex)
             then fillValueOf (value setting) else cellAt row j.
Proof.
  intros Hidx Hstrat.
  exists (fillRows (rows currentData) colIndex (fillValueOf (value setting))).
  split; [|split].
  - unfold processColumn. rewrite Hidx, Hstrat. reflexivity.
  - apply fillRows_length.
  - intros i j row Hrow. apply fillRows_cell. exact Hrow.
Qed.

(** C2 at the failing input.  With the value absent the step fills the
    missing cell of column [x] with the number [0], not with the empty
    string: the default [""] is itself coerced, and [Number("")] is [0]. *)
Theorem fill_value_absent_writes_zero {engine : Engine} :
  fillValueOf VUndefined = VNumber 0
  /\ processColumn scenarioTable "x"
       (Some {| strategy := "fill-value"; value := VUndefined |})
     = Returns {| headers := ["x"; "y"];
                  rows := [[VNumber 1; VString "NA"]; [VNumber 2; VString "3"];
                           [VNumber 0; VString ""]] |}.
Proof. split; vm_compute; reflexivity. Qed.

(** ** The frame of the filling strategies *)

Lemma sameOutside_refl (keys : list string) (t : table) : sameOutside keys t t.
Proof.
  split; [reflexivity|]. split; [reflexivity|].
  intros i j row row' _ H1 H2. congruence.
Qed.

Lemma sameOutside_trans (column : string) (keys : list string) (t1 t2 t3 : table) :
  sameOutside [column] t1 t2 -> sameOutside keys t2 t3 ->
  sameOutside (column :: keys) t1 t3.
Proof.
  intros (Hh1 & Hl1 & Hc1) (Hh2 & Hl2 & Hc2).
  split; [congruence|]. split; [congruence|].
  intros i j row row' Hout Hrow Hrow'.
  destruct (rows t2 !! i) as [row2|] eqn:Hrow2.
  - rewrite (Hc2 i j row2 row').
    + apply (Hc1 i j row row2); [|exact Hrow|exact Hrow2].
      intros h Hh [Heq|[]]. apply (Hout h Hh). left. exact Heq.
    + intros h Hh Hin. rewrite Hh1 in Hh. apply (Hout h Hh). right. exact Hin.
    + exact Hrow2.
    + exact Hrow'.
  - apply lookup_ge_None in Hrow2. apply lookup_lt_Some in Hrow. lia.
Qed.

Lemma fillRows_sameOutside (currentData : table) (column : string)
    (colIndex : nat) (v : jsval) :
  indexOf (headers currentData) column = Some colIndex ->
  sameOutside [column] currentData
    {| headers := headers currentData; rows := fillRows (rows currentData) colIndex v |}.
Proof.
  intros Hidx. split; [reflexivity|]. split; [apply fillRows_length|].
  simpl. intros i j row row' Hout Hrow Hrow'.
  destruct (fillRows_cell (rows currentData) colIndex v i j row Hrow)
    as (r & Hr & Hcell).
  assert (Hne : (j =? colIndex)%nat = false).
  { apply Nat.eqb_neq. intros ->. apply indexOf_Some in Hidx.
    apply (Hout column Hidx). left. reflexivity. }
  rewrite Hne in Hcell. simpl in Hcell. congruence.
Qed.

(** A filling entry that returns has changed only its own column. *)
Lemma fill_step_sameOutside {engine : Engine} (currentData : table) (column : string)
    (setting : ColumnSetting) (currentData' : table) :
  strategy setting = "fill-value" \/ strategy setting = "fill-method" ->
  processColumn currentData column (Some setting) = Returns currentData' ->
  sameOutside [column] currentData currentData'.
Proof.
  intros Hstrat. unfold processColumn.
  destruct (indexOf (headers currentData) column) as [colIndex|] eqn:Hidx.
  - destruct Hstrat as [Hs|Hs]; rewrite Hs; simpl.
    + intros H. injection H as <-. apply fillRows_sameOutside. exact Hidx.
    + destruct (replacementValue (rows currentData) colIndex (value setting))
        as [replacement|message]; [|discriminate].
      intros H. injection H as <-. apply fillRows_sameOutside. exact Hidx.
  - intros H. injection H as <-. apply sameOutside_refl.
Qed.

Lemma numericValues_length (rs : list (list jsval)) (colIndex : nat) :
  (length (numericValues rs colIndex) <= length rs)%nat.
Proof.
  unfold numericValues, nonMissingValues.
  etransitivity; [apply List.filter_length_le|].
  rewrite length_map.
  etransitivity; [apply List.filter_length_le|].
  rewrite length_map. reflexivity.
Qed.

(** The spread calls go through on a list within the limit, so
    [calculateStatistic] returns. *)
Lemma calculateStatistic_returns {engine : Engine} (values : list number)
    (method : string) :
  (N.of_nat (length values) <= argumentLimit)%N ->
  exists x, calculateStatistic values method = Returns x.
Proof.
  intros Hlen. apply N.leb_le in Hlen. unfold calculateStatistic, Math_min, Math_max.
  rewrite Hlen.
  destruct (String.eqb method "mean"); [eexists; reflexivity|].
  destruct (String.eqb method "median").
  { destruct (Z.of_nat (length (sortBy numberGt values)) mod 2 =? 0);
      eexists; reflexivity. }
  destruct (String.eqb method "min"); [eexists; reflexivity|].
  destruct (String.eqb method "max"); eexists; reflexivity.
Qed.

(** A filling entry returns when the table has no more rows than a call
    takes arguments. *)
Lemma fill_step_returns {engine : Engine} (currentData : table) (column : string)
    (setting : ColumnSetting) :
  strategy setting = "fill-value" \/ strategy setting = "fill-method" ->
  (N.of_nat (length (rows currentData)) <= argumentLimit)%N ->
  exists currentData', processColumn currentData column (Some setting) = Returns currentData'.
Proof.
  intros Hstrat Hlen. unfold processColumn.
  destruct (indexOf (headers currentData) column) as [colIndex|] eqn:Hidx;
    [|eexists; reflexivity].
  destruct Hstrat as [Hs|Hs]; rewrite Hs; simpl; [eexists; reflexivity|].
  unfold replacementValue.
  destruct (String.eqb _ "mode" || _); [eexists; reflexivity|].
  destruct (calculateStatistic_returns (numericValues (rows currentData) colIndex)
              (ToString (orElse (value setting) (VString "mode")))) as [x Hx].
  { pose proof (numericValues_length (rows currentData) colIndex). lia. }
  rewrite Hx. eexists. reflexivity.
Qed.

Lemma settingOf_fillEntry (settings : settingsMap) (column : string) :
  Forall fillEntry settings -> In column (columnKeys settings) ->
  exists setting, settingOf settings column = Some setting
    /\ (strategy setting = "fill-value" \/ strategy setting = "fill-method").
Proof.
  intros Hall. induction Hall as [|[k s] settings Hentry Hall IH]; simpl.
  - intros [].
  - intros Hin. destruct (String.eqb k column) eqn:E.
    + destruct Hentry as (setting & Hs & Hstrat). simpl in Hs. subst s.
      exists setting. split; [reflexivity|exact Hstrat].
    + apply StringFacts.eqb_neq in E. destruct Hin as [Hin|Hin]; [contradiction|].
      apply IH. exact Hin.
Qed.

Lemma callOnProgress_returns (callbacks : option Callbacks) (p : number) :
  progressReturns callbacks -> snd (callOnProgress callbacks p) = None.
Proof.
  intros Hret. unfold callOnProgress.
  destruct callbacks as [cb|]; [|reflexivity].
  destruct (onProgress cb) as [f|] eqn:Hf; [|reflexivity].
  simpl. apply (Hret cb f p eq_refl Hf).
Qed.

(** The loop over filling entries, when it returns, has changed only the
    columns of its keys. *)
Lemma processColumns_fill {engine : Engine} (settings : settingsMap)
    (callbacks : option Callbacks) (totalSteps : nat) (keys : list string) :
  Forall fillEntry settings ->
  (forall column, In column keys -> In column (columnKeys settings)) ->
  forall currentStep currentData currentData' calls,
    processColumns settings callbacks totalSteps keys currentStep currentData
    = (Returns currentData', calls) ->
    sameOutside keys currentData currentData'.
Proof.
  intros Hall. induction keys as [|column keys IH];
    intros Hsub step currentData currentData' calls.
  - simpl. intros H. injection H as <- _. apply sameOutside_refl.
  - simpl.
    destruct (callOnProgress callbacks _) as [calls0 [message|]]; [discriminate|].
    destruct (settingOf_fillEntry settings column Hall (Hsub column (or_introl eq_refl)))
      as (setting & Hset & Hstrat).
    rewrite Hset.
    destruct (processColumn currentData column (Some setting)) as [t1|message] eqn:Hstep;
      [|discriminate].
    destruct (processColumns settings callbacks totalSteps keys (S step) t1)
      as [result calls'] eqn:Hrest.
    intros H. injection H as -> _.
    pose proof (fill_step_sameOutside currentData column setting t1 Hstrat Hstep) as Hsame1.
    pose proof (IH (fun c Hc => Hsub c (or_intror Hc)) (S step) t1 _ _ Hrest) as Hsame2.
    exact (sameOutside_trans column keys _ _ _ Hsame1 Hsame2).
Qed.

(** The loop over filling entries returns when the progress hook returns
    and the table has no more rows than a call takes arguments. *)
Lemma processColumns_fill_returns {engine : Engine} (settings : settingsMap)
    (callbacks : option Callbacks) (totalSteps : nat) (keys : list string) :
  Forall fillEntry settings -> progressReturns callbacks ->
  (forall column, In column keys -> In column (columnKeys settings)) ->
  forall currentStep currentData,
    (N.of_nat (length (rows currentData)) <= argumentLimit)%N ->
    exists currentData' calls,
      processColumns settings callbacks totalSteps keys currentStep currentData
      = (Returns currentData', calls).
Proof.
  intros Hall Hret. induction keys as [|column keys IH]; intros Hsub step currentData Hlen.
  - exists currentData, []. reflexivity.
  - simpl.
    pose proof (callOnProgress_returns callbacks
                  (Math_round (number_of_nat (S step)
                               / number_of_nat totalSteps * 100)%float) Hret) as Hp.
    destruct (callOnProgress callbacks _) as [calls thrown]. simpl in Hp. subst thrown.
    destruct (settingOf_fillEntry settings column Hall (Hsub column (or_introl eq_refl)))
      as (setting & Hset & Hstrat).
    rewrite Hset.
    destruct (fill_step_returns currentData column setting Hstrat Hlen) as (t1 & Hstep).
    rewrite Hstep.
    destruct (fill_step_sameOutside currentData column setting t1 Hstrat Hstep)
      as (_ & Hrows & _).
    destruct (IH (fun c Hc => Hsub c (or_intror Hc)) (S step) t1)
      as (t2 & calls' & Hrest); [rewrite Hrows; exact Hlen|].
    rewrite Hrest. exists t2, (calls ++ calls')%list. reflexivity.
Qed.

(** C10. With only [fill-value] and [fill-method] entries in the settings,
    a run whose loop over the settings returns commits a cleaned table with
    the headers and the row count of the working table, the deep copy of the
    source, in which every cell of a column that the settings do not name
    has the value it has in the working table.  The loop returns whenever
    the progress hook returns and the table has no more rows than a call
    takes arguments; it throws otherwise (a hook that throws, or
    [Math.min(...values)] refused), and then no table is committed. *)
Theorem fill_only_frame {engine : Engine} (settings : settingsMap)
    (callbacks : option Callbacks) (sourceData : table) (state : UnifiedDataState) :
  Forall fillEntry settings ->
  let loop :=
    processColumns settings callbacks (length (columnKeys settings))
      (columnKeys settings) 0 (deepCopy sourceData) in
  (forall currentData' calls,
     loop = (Returns currentData', calls) ->
     cleanedData (fst (fst (tryBlock settings callbacks sourceData state)))
     = Some currentData'
     /\ headers currentData' = headers (deepCopy sourceData)
     /\ length (rows currentData') = length (rows (deepCopy sourceData))
     /\ forall i j row row',
          (forall h, headers (deepCopy sourceData) !! j = Some h ->
                     ~ In h (columnKeys settings)) ->
          rows (deepCopy sourceData) !! i = Some row ->
          rows currentData' !! i = Some row' ->
          cellAt row' j = cellAt row j)
  /\ (progressReturns callbacks ->
      (N.of_nat (length (rows sourceData)) <= argumentLimit)%N ->
      exists currentData' calls, loop = (Returns currentData', calls))
  /\ (forall message calls,
        loop = (Throws message, calls) ->
        cleanedData (fst (fst (tryBlock settings callbacks sourceData state)))
        = cleanedData state).
Proof.
  intros Hall loop. subst loop. split; [|split].
  - intros currentData' calls Hrun. unfold tryBlock. rewrite Hrun.
    split.
    + destruct (callOnProgress callbacks 100%float) as [calls1 [m|]]; [reflexivity|].
      destruct (callOnComplete callbacks) as [calls2 thrown]. reflexivity.
    + exact (processColumns_fill settings callbacks _ _ Hall (fun c Hc => Hc) _ _ _ _ Hrun).
  - intros Hret Hlen.
    apply (processColumns_fill_returns settings callbacks _ _ Hall Hret (fun c Hc => Hc)).
    unfold deepCopy. cbn [rows]. rewrite length_map. exact Hlen.
  - intros message calls Hrun. unfold tryBlock. rewrite Hrun. reflexivity.
Qed.

Lemma fill_only_frame_witness :
  Forall fillEntry [("y", Some {| strategy := "fill-method"; value := VString "min" |})]
  /\ exists currentData',
       cleanedData (fst (fst (tryBlock (engine := sampleEngine)
         [("y", Some {| strategy := "fill-method"; value := VString "min" |})]
         None scenarioTable (storeWith "f" scenarioTable)))) = Some currentData'
       /\ length (rows currentData') = 3%nat.
Proof.
  assert (H1 : Forall fillEntry
                 [("y", Some {| strategy := "fill-method"; value := VString "min" |})]).
  { constructor; [|constructor]. eexists. split; [reflexivity|]. right. reflexivity. }
  split; [exact H1|].
  destruct (fill_only_frame (engine := sampleEngine) _ None scenarioTable
              (storeWith "f" scenarioTable) H1) as (Hframe & Hreturns & _).
  destruct Hreturns as (t' & calls & Hrun).
  { intros cb f p H. discriminate H. }
  { vm_compute. discriminate. }
  destruct (Hframe t' calls Hrun) as (Hc & _ & Hl & _).
  exists t'. split; [exact Hc|exact Hl].
Defined.

(** ** Removing rows by position *)

Lemma omap_ext_In {A B : Type} (f g : A -> option B) (l : list A) :
  (forall x, In x l -> f x = g x) -> omap f l = omap g l.
Proof.
  induction l as [|x l IH]; intros H; [reflexivity|].
  csimpl. rewrite (H x (or_introl eq_refl)).
  rewrite IH by (intros y Hy; apply H; right; exact Hy). reflexivity.
Qed.

Lemma filterRows_from (indices : list Z) (rs : list (list jsval)) (k : nat) :
  filterRows indices k rs =
  omap (fun i => if includesIndex indices i then None else rs !! (i - k)%nat)
       (seq k (length rs)).
Proof.
  revert k. induction rs as [|row rs IH]; intros k; [reflexivity|].
  simpl. rewrite Nat.sub_diag. simpl. rewrite IH.
  assert (Hext : omap (fun i => if includesIndex indices i then None
                                else rs !! (i - S k)%nat) (seq (S k) (length rs))
               = omap (fun i => if includesIndex indices i then None
                                else (row :: rs) !! (i - k)%nat) (seq (S k) (length rs))).
  { apply omap_ext_In. intros i Hi.
    apply in_seq in Hi. destruct (includesIndex indices i); [reflexivity|].
    replace (i - k)%nat with (S (i - S k)) by lia. reflexivity. }
  rewrite Hext. destruct (includesIndex indices k); reflexivity.
Qed.

Lemma filterRows_rowsOutside (indices : list Z) (rs : list (list jsval)) :
  filterRows indices 0 rs = rowsOutside indices rs.
Proof.
  rewrite filterRows_from. unfold rowsOutside.
  apply omap_ext_In. intros i _.
  rewrite Nat.sub_0_r. reflexivity.
Qed.



(** ** Failures of [processMissingValues] *)

(** Without a source table the call sets the error, reports it to the error
    hook and leaves the cleaned table alone. *)
Lemma no_source_reported {engine : Engine} (settings : settingsMap)
    (callbacks : option Callbacks)
    (state : UnifiedDataState) :
  sourceOf state = None ->
  let '(state', calls, _) := processMissingValues settings callbacks state in
  cleanedData state' = cleanedData state
  /\ error state' = Some "No data available for processing"
  /\ calls = fst (callOnError callbacks "No data available for processing").
Proof.
  unfold sourceOf, processMissingValues. intros Hsrc.
  destruct (orTable (cleanedData state) (processedData state)); [discriminate|].
  rewrite Hsrc.
  destruct (callOnError callbacks _) as [calls thrown]. simpl. auto.
Qed.

(** An error thrown while the columns are processed is reported, and the
    cleaned table is the one from before the call. *)
Lemma loop_failure_reported {engine : Engine} (settings : settingsMap)
    (callbacks : option Callbacks)
    (state : UnifiedDataState) (data : table) (message : string) (calls0 : list event) :
  sourceOf state = Some data ->
  processColumns settings callbacks (length (columnKeys settings))
    (columnKeys settings) 0 (deepCopy data) = (Throws message, calls0) ->
  let errorMessage :=
    if String.eqb message "" then "Failed to process missing values" else message in
  let '(state', calls, _) := processMissingValues settings callbacks state in
  cleanedData state' = cleanedData state
  /\ error state' = Some errorMessage
  /\ calls = (calls0 ++ fst (callOnError callbacks errorMessage))%list.
Proof.
  unfold sourceOf, processMissingValues, tryBlock. intros Hsrc Hloop.
  assert (Hdata : match orTable (cleanedData state) (processedData state) with
                  | Some d => Some d
                  | None => match rawData state with
                            | Some raw => Some {| headers := headers raw; rows := rows raw |}
                            | None => None
                            end
                  end = Some data).
  { destruct (orTable (cleanedData state) (processedData state)); [exact Hsrc|].
    rewrite Hsrc. destruct data; reflexivity. }
  rewrite Hdata, Hloop. simpl.
  destruct (callOnError callbacks _) as [calls thrown]. simpl. auto.
Qed.

Lemma callOnError_provided (cb : Callbacks) (f : string -> behaviour) (message : string) :
  onError cb = Some f -> fst (callOnError (Some cb) message) = [ErrorCall message].
Proof. intros H. unfold callOnError. rewrite H. reflexivity. Qed.

(** C7, as the code has it.  When the call fails because there is no source
    table, or because an error is thrown before the cleaned table is stored
    (while the columns are processed: by a setting that is [null], by a call
    with more arguments than the engine takes, or by the progress hook), the
    store's error field holds the message, the error hook, if provided, is
    called with it as the last call, and the cleaned table of the store is
    the one from before the call. *)
Theorem failure_before_commit {engine : Engine} (settings : settingsMap)
    (callbacks : option Callbacks)
    (state : UnifiedDataState) :
  (sourceOf state = None ->
   let '(state', calls, _) := processMissingValues settings callbacks state in
   cleanedData state' = cleanedData state
   /\ error state' = Some "No data available for processing"
   /\ calls = fst (callOnError callbacks "No data available for processing"))
  /\ (forall data message calls0,
        sourceOf state = Some data ->
        processColumns settings callbacks (length (columnKeys settings))
          (columnKeys settings) 0 (deepCopy data) = (Throws message, calls0) ->
        let errorMessage :=
          if String.eqb message "" then "Failed to process missing values"
          else message in
        let '(state', calls, _) := processMissingValues settings callbacks state in
        cleanedData state' = cleanedData state
        /\ error state' = Some errorMessage
        /\ calls = (calls0 ++ fst (callOnError callbacks errorMessage))%list)
  /\ (forall cb f message,
        onError cb = Some f ->
        fst (callOnError (Some cb) message) = [ErrorCall message]).
Proof.
  split; [apply no_source_reported|].
  split; [|apply callOnError_provided].
  intros data message calls0. apply loop_failure_reported.
Qed.

(** A setting that is [null] makes the loop throw; the failure is reported
    and nothing is committed. *)
Lemma malformed_setting_reported {engine : Engine} :
  processMissingValues [("x", None)]
    (Some {| onProgress := None; onComplete := None; onError := Some (fun _ => None) |})
    (storeOfRaw scenarioTable)
  = ({| profiles := ∅;
        activeProfileId := None;
        isLoading := false;
        error := Some typeErrorMessage;
        rawData := Some scenarioTable;
        processedData := None;
        cleanedData := None |},
     [ErrorCall typeErrorMessage], None).
Proof. vm_compute. reflexivity. Qed.

(** C7 as stated fails when a hook throws after the commit.  The completion
    hook is called inside the [try] block once the cleaned table has been
    stored: when it throws, the call fails (the error is set and reported),
    but the store holds the new cleaned table where it held none. *)
Lemma commit_precedes_completion_hook :
  cleanedData (storeOfRaw scenarioTable) = None
  /\ processMissingValues (engine := sampleEngine) [] (Some throwingOnComplete)
       (storeOfRaw scenarioTable)
     = ({| profiles := ∅;
           activeProfileId := None;
           isLoading := false;
           error := Some "boom";
           rawData := Some scenarioTable;
           processedData := None;
           cleanedData := Some scenarioTable |},
        [CompleteCall; ErrorCall "boom"], None)
  /\ cleanedData (fst (fst (processMissingValues (engine := sampleEngine) []
                              (Some throwingOnComplete)
                              (storeOfRaw scenarioTable))))
     <> cleanedData (storeOfRaw scenarioTable).
Proof.
  split; [reflexivity|]. split; [vm_compute; reflexivity|].
  vm_compute. intros H. discriminate H.
Qed.

(** ** The order of binary64 numbers

    The comparisons of the primitive floats are specified by [SFcompare] on
    [spec_float]; on the numbers that are not [NaN] they are the comparisons
    of the integers [scaledValue]. *)

Lemma digits2_pos_bounds (m : positive) :
  2 ^ (Z.pos (digits2_pos m) - 1) <= Z.pos m < 2 ^ Z.pos (digits2_pos m).
Proof.
  induction m as [m IH|m IH|]; simpl digits2_pos.
  - rewrite Pos2Z.inj_succ.
    replace (Z.succ (Z.pos (digits2_pos m)) - 1) with (Z.succ (Z.pos (digits2_pos m) - 1))
      by lia.
    rewrite !Z.pow_succ_r by lia. lia.
  - rewrite Pos2Z.inj_succ.
    replace (Z.succ (Z.pos (digits2_pos m)) - 1) with (Z.succ (Z.pos (digits2_pos m) - 1))
      by lia.
    rewrite !Z.pow_succ_r by lia. lia.
  - simpl. lia.
Qed.

Lemma bounded_facts (m : positive) (e : Z) :
  bounded prec emax m e = true ->
  -1074 <= e <= 971
  /\ Z.pos (digits2_pos m) <= 53
  /\ (e = -1074 \/ Z.pos (digits2_pos m) = 53).
Proof.
  unfold bounded, canonical_mantissa, fexp, SpecFloat.emin, prec, emax.
  intros H. apply andb_true_iff in H. destruct H as [H1 H2].
  apply Z.eqb_eq in H1. apply Z.leb_le in H2. lia.
Qed.

Lemma magnitude_bounds (m : positive) (e : Z) :
  bounded prec emax m e = true ->
  0 < Z.pos m * 2 ^ (e + 1074) < 2 ^ 2100.
Proof.
  intros H. apply bounded_facts in H. destruct H as (He & Hd & _).
  pose proof (digits2_pos_bounds m) as [_ Hm].
  assert (Hp : 0 < 2 ^ (e + 1074)) by (apply Z.pow_pos_nonneg; lia).
  split; [lia|].
  assert (Hm' : Z.pos m < 2 ^ 53).
  { eapply Z.lt_le_trans; [exact Hm|]. apply Z.pow_le_mono_r; lia. }
  assert (He' : 2 ^ (e + 1074) <= 2 ^ 2045) by (apply Z.pow_le_mono_r; lia).
  replace (2 ^ 2100) with (2 ^ 53 * 2 ^ 2045 * 2 ^ 2)
    by (rewrite <- !Z.pow_add_r by lia; reflexivity).
  assert (H2 : 0 < 2 ^ 2045) by (apply Z.pow_pos_nonneg; lia).
  assert (H3 : 0 < 2 ^ 53) by (apply Z.pow_pos_nonneg; lia).
  change (2 ^ 2) with 4. nia.
Qed.

Lemma magnitude_compare (m1 m2 : positive) (e1 e2 : Z) :
  bounded prec emax m1 e1 = true -> bounded prec emax m2 e2 = true ->
  (Z.pos m1 * 2 ^ (e1 + 1074) ?= Z.pos m2 * 2 ^ (e2 + 1074)) =
  match e1 ?= e2 with
  | Eq => Pos.compare_cont Eq m1 m2
  | Lt => Lt
  | Gt => Gt
  end.
Proof.
  intros H1 H2.
  apply bounded_facts in H1. destruct H1 as (He1 & Hd1 & Hc1).
  apply bounded_facts in H2. destruct H2 as (He2 & Hd2 & Hc2).
  pose proof (digits2_pos_bounds m1) as [Hl1 Hu1].
  pose proof (digits2_pos_bounds m2) as [Hl2 Hu2].
  assert (Hm1 : Z.pos m1 < 2 ^ 53).
  { eapply Z.lt_le_trans; [exact Hu1|]. apply Z.pow_le_mono_r; lia. }
  assert (Hm2 : Z.pos m2 < 2 ^ 53).
  { eapply Z.lt_le_trans; [exact Hu2|]. apply Z.pow_le_mono_r; lia. }
  destruct (Z.compare_spec e1 e2) as [Heq|Hlt|Hgt].
  - subst e2. change (Pos.compare_cont Eq m1 m2) with (Z.pos m1 ?= Z.pos m2).
    symmetry. apply Zmult_compare_compat_r. apply Z.lt_gt, Z.pow_pos_nonneg; lia.
  - apply Z.compare_lt_iff.
    assert (Hd : Z.pos (digits2_pos m2) = 53) by lia.
    rewrite Hd in Hl2. change (2 ^ (53 - 1)) with (2 ^ 52) in Hl2.
    assert (Hpow : 2 ^ (e2 + 1074) = 2 ^ (e2 - e1 - 1) * 2 * 2 ^ (e1 + 1074)).
    { replace (e2 + 1074) with ((e2 - e1 - 1) + (1 + (e1 + 1074))) by lia.
      rewrite (Z.pow_add_r 2 (e2 - e1 - 1)) by lia.
      rewrite (Z.pow_add_r 2 1 (e1 + 1074)) by lia.
      change (2 ^ 1) with 2. ring. }
    rewrite Hpow.
    assert (HP : 0 < 2 ^ (e1 + 1074)) by (apply Z.pow_pos_nonneg; lia).
    assert (HQ : 0 < 2 ^ (e2 - e1 - 1)) by (apply Z.pow_pos_nonneg; lia).
    change (2 ^ 53) with (2 * 2 ^ 52) in Hm1.
    assert (H52 : 0 < 2 ^ 52) by (apply Z.pow_pos_nonneg; lia).
    nia.
  - apply Z.compare_gt_iff.
    assert (Hd : Z.pos (digits2_pos m1) = 53) by lia.
    rewrite Hd in Hl1. change (2 ^ (53 - 1)) with (2 ^ 52) in Hl1.
    assert (Hpow : 2 ^ (e1 + 1074) = 2 ^ (e1 - e2 - 1) * 2 * 2 ^ (e2 + 1074)).
    { replace (e1 + 1074) with ((e1 - e2 - 1) + (1 + (e2 + 1074))) by lia.
      rewrite (Z.pow_add_r 2 (e1 - e2 - 1)) by lia.
      rewrite (Z.pow_add_r 2 1 (e2 + 1074)) by lia.
      change (2 ^ 1) with 2. ring. }
    rewrite Hpow.
    assert (HP : 0 < 2 ^ (e2 + 1074)) by (apply Z.pow_pos_nonneg; lia).
    assert (HQ : 0 < 2 ^ (e1 - e2 - 1)) by (apply Z.pow_pos_nonneg; lia).
    change (2 ^ 53) with (2 * 2 ^ 52) in Hm2.
    assert (H52 : 0 < 2 ^ 52) by (apply Z.pow_pos_nonneg; lia).
    nia.
Qed.

Ltac compare_by_lia :=
  f_equal;
  try (symmetry;
       first [ apply Z.compare_lt_iff; lia
             | apply Z.compare_gt_iff; lia
             | apply Z.compare_eq_iff; lia ]).

Lemma SFcompare_scaled (x y : spec_float) :
  valid_binary x = true -> valid_binary y = true ->
  x <> S754_nan -> y <> S754_nan ->
  SFcompare x y = Some (scaled x ?= scaled y).
Proof.
  intros Hx Hy Hnx Hny.
  assert (HB : 0 < 2 ^ 2100) by (apply Z.pow_pos_nonneg; lia).
  destruct x as [sx|sx| |sx mx ex]; try contradiction;
    destruct y as [sy|sy| |sy my ey]; try contradiction;
    unfold scaled, cond_Zopp; simpl SFcompare;
    try (pose proof (magnitude_bounds mx ex Hx) as Hmx);
    try (pose proof (magnitude_bounds my ey Hy) as Hmy);
    set (B := 2 ^ 2100) in *; clearbody B.
  all: try solve [ repeat match goal with b : bool |- _ => destruct b end;
                   compare_by_lia ].
  destruct sx, sy.
  - rewrite Z.compare_opp.
    rewrite (Z.compare_antisym (Z.pos mx * 2 ^ (ex + 1074)) (Z.pos my * 2 ^ (ey + 1074))).
    rewrite (magnitude_compare mx my ex ey Hx Hy).
    destruct (ex ?= ey); reflexivity.
  - compare_by_lia.
  - compare_by_lia.
  - rewrite (magnitude_compare mx my ex ey Hx Hy). reflexivity.
Qed.

Lemma isNaN_spec (x : number) : isNaN x = false <-> Prim2SF x <> S754_nan.
Proof.
  unfold isNaN, PrimFloat.is_nan. rewrite FloatAxioms.eqb_spec. unfold SFeqb.
  split.
  - intros H Hn. rewrite Hn in H. discriminate H.
  - intros Hn. rewrite (SFcompare_scaled _ _ (Prim2SF_valid x) (Prim2SF_valid x) Hn Hn).
    rewrite Z.compare_refl. reflexivity.
Qed.

(** The comparisons of numbers that are not [NaN]. *)
Lemma number_compare (x y : number) :
  isNaN x = false -> isNaN y = false ->
  PrimFloat.ltb x y = (scaledValue x <? scaledValue y)
  /\ PrimFloat.leb x y = (scaledValue x <=? scaledValue y)
  /\ PrimFloat.eqb x y = (scaledValue x =? scaledValue y).
Proof.
  intros Hx Hy. apply isNaN_spec in Hx. apply isNaN_spec in Hy.
  rewrite FloatAxioms.ltb_spec, FloatAxioms.leb_spec, FloatAxioms.eqb_spec.
  unfold SFltb, SFleb, SFeqb, scaledValue.
  rewrite (SFcompare_scaled _ _ (Prim2SF_valid x) (Prim2SF_valid y) Hx Hy).
  destruct (Z.compare_spec (scaled (Prim2SF x)) (scaled (Prim2SF y))) as [H|H|H];
    repeat split; symmetry;
    first [ apply Z.ltb_lt; lia | apply Z.ltb_ge; lia
          | apply Z.leb_le; lia | apply Z.leb_gt; lia
          | apply Z.eqb_eq; lia | apply Z.eqb_neq; lia ].
Qed.

(** A number above another is not at most it: the case of a [drop] step
    that leaves the table is the case of a percentage above the threshold. *)
Lemma number_gt_not_le (x y : number) :
  PrimFloat.ltb y x = true -> PrimFloat.leb x y = false.
Proof.
  intros H.
  assert (Hy : isNaN y = false).
  { apply isNaN_spec. intros Hn. rewrite FloatAxioms.ltb_spec in H.
    unfold SFltb in H. rewrite Hn in H. discriminate H. }
  assert (Hx : isNaN x = false).
  { apply isNaN_spec. intros Hn. rewrite FloatAxioms.ltb_spec in H.
    unfold SFltb in H. rewrite Hn in H.
    destruct (Prim2SF y); simpl in H; discriminate H. }
  destruct (number_compare y x Hy Hx) as (Hlt & _).
  destruct (number_compare x y Hx Hy) as (_ & Hle & _).
  rewrite Hlt in H. rewrite Hle. apply Z.ltb_lt in H. apply Z.leb_gt. exact H.
Qed.

(** *** The sign of a difference

    Rounding a non-zero integer multiple of a power of two that is at least
    [2^-1074] never gives zero, so the sign of [a - b] is the sign of the
    exact difference. *)

Lemma shr_1_m (r : shr_record) : 0 <= shr_m r -> shr_m (shr_1 r) = shr_m r / 2.
Proof.
  destruct r as [m rr ss]. simpl. intros Hm.
  destruct m as [|p|p]; [reflexivity| |lia].
  destruct p as [p|p|]; simpl.
  - rewrite Pos2Z.inj_xI. apply Z.div_unique with (r := 1); lia.
  - rewrite Pos2Z.inj_xO. apply Z.div_unique with (r := 0); lia.
  - reflexivity.
Qed.

Lemma iter_pos_shr_m (n : positive) (r : shr_record) :
  0 <= shr_m r -> shr_m (SpecFloat.iter_pos shr_1 n r) = shr_m r / 2 ^ Z.pos n.
Proof.
  revert r. induction n as [n IH|n IH|]; intros r Hr; simpl SpecFloat.iter_pos.
  - assert (H1 : 0 <= shr_m (shr_1 r)).
    { rewrite shr_1_m by exact Hr. apply Z.div_pos; lia. }
    assert (H2 : 0 <= shr_m (SpecFloat.iter_pos shr_1 n (shr_1 r))).
    { rewrite IH by exact H1. apply Z.div_pos; [exact H1|]. apply Z.pow_pos_nonneg; lia. }
    rewrite IH by exact H2. rewrite IH by exact H1. rewrite shr_1_m by exact Hr.
    assert (Hp : 0 < 2 ^ Z.pos n) by (apply Z.pow_pos_nonneg; lia).
    rewrite !Z.div_div by lia.
    f_equal.
    replace (Z.pos n~1) with (1 + Z.pos n + Z.pos n) by lia.
    rewrite !Z.pow_add_r by lia. change (2 ^ 1) with 2. ring.
  - assert (H2 : 0 <= shr_m (SpecFloat.iter_pos shr_1 n r)).
    { rewrite IH by exact Hr. apply Z.div_pos; [exact Hr|]. apply Z.pow_pos_nonneg; lia. }
    rewrite IH by exact H2. rewrite IH by exact Hr.
    assert (Hp : 0 < 2 ^ Z.pos n) by (apply Z.pow_pos_nonneg; lia).
    rewrite Z.div_div by lia.
    f_equal.
    replace (Z.pos n~0) with (Z.pos n + Z.pos n) by lia.
    rewrite Z.pow_add_r by lia. ring.
  - apply shr_1_m. exact Hr.
Qed.

Lemma shr_record_of_loc_m (m : Z) (l : location) : shr_m (shr_record_of_loc m l) = m.
Proof. destruct l as [|[]]; reflexivity. Qed.

Lemma shr_fexp_positive (m e : Z) (l : location) :
  0 < m -> -1074 <= e ->
  0 < shr_m (fst (shr_fexp prec emax m e l)) /\ -1074 <= snd (shr_fexp prec emax m e l).
Proof.
  intros Hm He. unfold shr_fexp, shr.
  destruct m as [|q|q]; try lia. simpl Zdigits2.
  pose proof (digits2_pos_bounds q) as [Hlow _].
  set (d := Z.pos (digits2_pos q)) in *.
  assert (Hn : fexp prec emax (d + e) - e = Z.max (d - 53) (-1074 - e)).
  { unfold fexp, SpecFloat.emin, prec, emax. lia. }
  destruct (fexp prec emax (d + e) - e) as [|p|p] eqn:Hshift; simpl fst; simpl snd;
    rewrite ?shr_record_of_loc_m; try (split; lia).
  rewrite iter_pos_shr_m by (rewrite shr_record_of_loc_m; lia).
  rewrite shr_record_of_loc_m. split; [|lia].
  apply Z.div_str_pos. split; [apply Z.pow_pos_nonneg; lia|].
  eapply Z.le_trans; [|exact Hlow]. apply Z.pow_le_mono_r; lia.
Qed.

Lemma round_nearest_even_positive (m : Z) (l : location) :
  0 < m -> 0 < round_nearest_even m l.
Proof.
  intros Hm. destruct l as [|[]]; simpl; try lia.
  destruct (Z.even m); lia.
Qed.

Lemma binary_round_aux_sign (s : bool) (m e : Z) (l : location) :
  0 < m -> -1074 <= e -> signedNonzero s (binary_round_aux prec emax s m e l).
Proof.
  intros Hm He. unfold binary_round_aux.
  pose proof (shr_fexp_positive m e l Hm He) as [H1 H2].
  destruct (shr_fexp prec emax m e l) as [r e']. simpl in H1, H2.
  pose proof (round_nearest_even_positive (shr_m r) (loc_of_shr_record r) H1) as H3.
  pose proof (shr_fexp_positive _ e' loc_Exact H3 H2) as [H4 H5].
  destruct (shr_fexp prec emax _ e' loc_Exact) as [r' e'']. simpl in H4, H5.
  destruct (shr_m r') as [|p|p]; try lia.
  destruct (e'' <=? emax - prec); reflexivity.
Qed.

Lemma binary_round_sign (s : bool) (m : positive) (e : Z) :
  -1074 <= e -> signedNonzero s (binary_round prec emax s m e).
Proof.
  intros He. unfold binary_round.
  destruct (shl_align m e (fexp prec emax (Z.pos (digits2_pos m) + e))) as [mz ez] eqn:Hal.
  apply binary_round_aux_sign; [lia|].
  unfold shl_align in Hal.
  assert (Hf : -1074 <= fexp prec emax (Z.pos (digits2_pos m) + e)).
  { unfold fexp, SpecFloat.emin, prec, emax. lia. }
  destruct (fexp prec emax (Z.pos (digits2_pos m) + e) - e);
    injection Hal as _ <-; lia.
Qed.

Lemma shl_align_value (m : positive) (e ez : Z) :
  ez <= e -> Z.pos (fst (shl_align m e ez)) = Z.pos m * 2 ^ (e - ez).
Proof.
  intros Hle. unfold shl_align.
  destruct (ez - e) as [|p|p] eqn:Hd; simpl fst.
  - replace (e - ez) with 0 by lia. simpl. lia.
  - lia.
  - change (Pos.iter xO m p) with (shift_pos p m).
    rewrite shift_pos_correct, Z.pow_pos_fold.
    replace (e - ez) with (Z.pos p) by lia. lia.
Qed.

Lemma signedNonzero_positive (s : bool) (x : spec_float) :
  signedNonzero s x -> SFltb (S754_zero false) x = negb s.
Proof.
  destruct x as [s'|s'| |s' m e]; simpl; intros H; try contradiction; subst s';
    destruct s; reflexivity.
Qed.

Lemma binary_normalize_positive (d e : Z) :
  -1074 <= e ->
  SFltb (S754_zero false) (binary_normalize prec emax d e false) = (0 <? d).
Proof.
  intros He. destruct d as [|p|p]; simpl binary_normalize.
  - reflexivity.
  - rewrite (signedNonzero_positive false) by (apply binary_round_sign; exact He).
    reflexivity.
  - rewrite (signedNonzero_positive true) by (apply binary_round_sign; exact He).
    reflexivity.
Qed.

Lemma SFsub_positive (a b : spec_float) :
  valid_binary a = true -> valid_binary b = true ->
  a <> S754_nan -> b <> S754_nan ->
  SFltb (S754_zero false) (SFsub prec emax a b) = (scaled b <? scaled a).
Proof.
  intros Ha Hb Hna Hnb.
  assert (HB : 0 < 2 ^ 2100) by (apply Z.pow_pos_nonneg; lia).
  destruct a as [sa|sa| |sa ma ea]; try contradiction;
    destruct b as [sb|sb| |sb mb eb]; try contradiction;
    try (pose proof (magnitude_bounds ma ea Ha) as Hma);
    try (pose proof (magnitude_bounds mb eb Hb) as Hmb).
  9: {
    unfold SFsub.
    pose proof (bounded_facts ma ea Ha) as (Hea & _).
    pose proof (bounded_facts mb eb Hb) as (Heb & _).
    rewrite binary_normalize_positive by lia.
    rewrite !shl_align_value by lia.
    unfold scaled.
    set (ez := Z.min ea eb).
    assert (Hpa : 2 ^ (ea + 1074) = 2 ^ (ea - ez) * 2 ^ (ez + 1074)).
    { rewrite <- Z.pow_add_r by lia. f_equal. lia. }
    assert (Hpb : 2 ^ (eb + 1074) = 2 ^ (eb - ez) * 2 ^ (ez + 1074)).
    { rewrite <- Z.pow_add_r by lia. f_equal. lia. }
    rewrite Hpa, Hpb.
    assert (HP : 0 < 2 ^ (ez + 1074)) by (apply Z.pow_pos_nonneg; lia).
    set (A := Z.pos ma * 2 ^ (ea - ez)). set (B := Z.pos mb * 2 ^ (eb - ez)).
    replace (Z.pos ma * (2 ^ (ea - ez) * 2 ^ (ez + 1074))) with (A * 2 ^ (ez + 1074))
      by (unfold A; ring).
    replace (Z.pos mb * (2 ^ (eb - ez) * 2 ^ (ez + 1074))) with (B * 2 ^ (ez + 1074))
      by (unfold B; ring).
    generalize dependent (2 ^ (ez + 1074)). intros P _ _ HP.
    clearbody A B.
    destruct sa, sb; unfold cond_Zopp;
      destruct (Z.ltb_spec 0 (A - B)), (Z.ltb_spec 0 (- A - - B)),
        (Z.ltb_spec 0 (A - - B)), (Z.ltb_spec 0 (- A - B));
      symmetry; first [ apply Z.ltb_lt; nia | apply Z.ltb_ge; nia ]. }
  all: unfold scaled, cond_Zopp; simpl SFsub; unfold SFltb; simpl SFcompare;
    set (B := 2 ^ 2100) in *; clearbody B;
    repeat match goal with b : bool |- _ => destruct b end;
    simpl; symmetry;
    first [ apply Z.ltb_lt; lia | apply Z.ltb_ge; lia ].
Qed.

(** The comparator [(a, b) => a - b] is positive exactly when [b < a]. *)
Lemma numberGt_spec (a b : number) :
  isNaN a = false -> isNaN b = false ->
  numberGt a b = (scaledValue b <? scaledValue a).
Proof.
  intros Ha Hb. apply isNaN_spec in Ha. apply isNaN_spec in Hb.
  unfold numberGt. rewrite FloatAxioms.ltb_spec, sub_spec.
  change (Prim2SF 0) with (S754_zero false).
  apply SFsub_positive; auto using Prim2SF_valid.
Qed.

Lemma numberLe_scaled (a b : number) :
  isNaN a = false -> isNaN b = false ->
  (numberLe a b <-> scaledValue a <= scaledValue b).
Proof.
  intros Ha Hb. unfold numberLe.
  destruct (number_compare a b Ha Hb) as (_ & Hle & _).
  rewrite Hle. apply Z.leb_le.
Qed.

(** ** Sorting with a comparator *)

Lemma sortInsert_Permutation {A : Type} (gt : A -> A -> bool) (x : A) (l : list A) :
  Permutation (sortInsert gt x l) (x :: l).
Proof.
  induction l as [|y l IH]; simpl; [reflexivity|].
  destruct (gt y x); [reflexivity|].
  rewrite IH. apply perm_swap.
Qed.

Lemma sortBy_from {A : Type} (gt : A -> A -> bool) (l acc : list A) :
  Permutation (fold_left (fun acc x => sortInsert gt x acc) l acc) (acc ++ l)%list.
Proof.
  revert acc. induction l as [|x l IH]; intros acc; simpl.
  - rewrite app_nil_r. reflexivity.
  - rewrite IH, sortInsert_Permutation.
    simpl. apply Permutation_middle.
Qed.

Lemma sortBy_Permutation {A : Type} (gt : A -> A -> bool) (l : list A) :
  Permutation (sortBy gt l) l.
Proof. unfold sortBy. apply (sortBy_from gt l []). Qed.

Section SortedBy.

Context {A : Type} (gt : A -> A -> bool) (le : A -> A -> Prop) (P : A -> Prop).
Hypothesis gt_true : forall a b, P a -> P b -> gt a b = true -> le b a.
Hypothesis gt_false : forall a b, P a -> P b -> gt a b = false -> le a b.

Lemma sortInsert_HdRel (a x : A) (l : list A) :
  le a x -> HdRel le a l -> HdRel le a (sortInsert gt x l).
Proof.
  intros Hax Hal. destruct l as [|y l]; simpl.
  - constructor. exact Hax.
  - destruct (gt y x); constructor; [exact Hax|].
    inversion Hal; assumption.
Qed.

Lemma sortInsert_Sorted (x : A) (l : list A) :
  P x -> Forall P l -> Sorted le l -> Sorted le (sortInsert gt x l).
Proof.
  intros Hx Hl Hs. induction l as [|y l IH]; simpl.
  - repeat constructor.
  - inversion Hl as [|? ? Hy Hl']; subst. inversion Hs as [|? ? Hs' Hhd]; subst.
    destruct (gt y x) eqn:E.
    + constructor; [exact Hs|]. constructor. apply gt_true; assumption.
    + constructor; [apply IH; assumption|].
      apply sortInsert_HdRel; [|exact Hhd]. apply gt_false; assumption.
Qed.

Lemma sortBy_Sorted_from (l acc : list A) :
  Forall P l -> Forall P acc -> Sorted le acc ->
  Sorted le (fold_left (fun acc x => sortInsert gt x acc) l acc).
Proof.
  revert acc. induction l as [|x l IH]; intros acc Hl Hacc Hs; simpl; [exact Hs|].
  inversion Hl as [|? ? Hx Hl']; subst.
  apply IH; [exact Hl'| |apply sortInsert_Sorted; assumption].
  rewrite (List.Forall_forall P). intros y Hy.
  apply (Permutation_in _ (sortInsert_Permutation gt x acc)) in Hy.
  destruct Hy as [<-|Hy]; [exact Hx|].
  rewrite (List.Forall_forall P) in Hacc. apply Hacc. exact Hy.
Qed.

Lemma sortBy_Sorted (l : list A) : Forall P l -> Sorted le (sortBy gt l).
Proof. intros Hl. apply sortBy_Sorted_from; [exact Hl|constructor|constructor]. Qed.

End SortedBy.

(** The numeric sort of [calculateStatistic] puts numbers without [NaN] in
    ascending order. *)
Lemma sortBy_numberGt_ascending (values : list number) :
  noNaN values -> Sorted numberLe (sortBy numberGt values).
Proof.
  apply (sortBy_Sorted numberGt numberLe (fun x => isNaN x = false)).
  - intros a b Ha Hb Hgt. rewrite (numberGt_spec a b Ha Hb) in Hgt.
    apply Z.ltb_lt in Hgt. apply numberLe_scaled; [assumption..|]. lia.
  - intros a b Ha Hb Hgt. rewrite (numberGt_spec a b Ha Hb) in Hgt.
    apply Z.ltb_ge in Hgt. apply numberLe_scaled; assumption.
Qed.

(** ** Minimum and maximum *)

Lemma existsb_isNaN_false (values : list number) :
  noNaN values -> existsb isNaN values = false.
Proof.
  intros H. induction H as [|x l Hx Hl IH]; simpl; [reflexivity|].
  rewrite Hx, IH. reflexivity.
Qed.

Lemma is_zero_scaled (x : number) :
  isNaN x = false -> PrimFloat.is_zero x = true -> scaledValue x = 0.
Proof.
  intros Hx Hz. unfold PrimFloat.is_zero in Hz.
  destruct (number_compare x PrimFloat.zero Hx eq_refl) as (_ & _ & Heq).
  rewrite Heq in Hz. apply Z.eqb_eq in Hz. exact Hz.
Qed.

Lemma scaled_bounds (x : spec_float) :
  valid_binary x = true -> - 2 ^ 2100 <= scaled x <= 2 ^ 2100.
Proof.
  intros Hv. assert (HB : 0 < 2 ^ 2100) by (apply Z.pow_pos_nonneg; lia).
  destruct x as [s|s| |s m e]; unfold scaled, cond_Zopp.
  - lia.
  - destruct s; lia.
  - lia.
  - pose proof (magnitude_bounds m e Hv). destruct s; lia.
Qed.

Lemma scaled_top (x : number) :
  isNaN x = false -> 2 ^ 2100 <= scaledValue x -> x = PrimFloat.infinity.
Proof.
  intros Hx Hs. apply isNaN_spec in Hx. apply Prim2SF_inj.
  change (Prim2SF PrimFloat.infinity) with (S754_infinity false).
  pose proof (Prim2SF_valid x) as Hv. unfold scaledValue in Hs.
  assert (HB : 0 < 2 ^ 2100) by (apply Z.pow_pos_nonneg; lia).
  destruct (Prim2SF x) as [s|s| |s m e]; unfold scaled, cond_Zopp in Hs.
  - lia.
  - destruct s; [lia|reflexivity].
  - contradiction.
  - pose proof (magnitude_bounds m e Hv). destruct s; lia.
Qed.

Lemma scaled_bottom (x : number) :
  isNaN x = false -> scaledValue x <= - 2 ^ 2100 -> x = PrimFloat.neg_infinity.
Proof.
  intros Hx Hs. apply isNaN_spec in Hx. apply Prim2SF_inj.
  change (Prim2SF PrimFloat.neg_infinity) with (S754_infinity true).
  pose proof (Prim2SF_valid x) as Hv. unfold scaledValue in Hs.
  assert (HB : 0 < 2 ^ 2100) by (apply Z.pow_pos_nonneg; lia).
  destruct (Prim2SF x) as [s|s| |s m e]; unfold scaled, cond_Zopp in Hs.
  - lia.
  - destruct s; [reflexivity|lia].
  - contradiction.
  - pose proof (magnitude_bounds m e Hv). destruct s; lia.
Qed.

Lemma minStep_cases (lowest x : number) :
  isNaN lowest = false -> isNaN x = false ->
  (minStep lowest x = x /\ scaledValue x <= scaledValue lowest)
  \/ (minStep lowest x = lowest /\ scaledValue lowest <= scaledValue x).
Proof.
  intros Hl Hx. unfold minStep.
  destruct (PrimFloat.is_zero x && PrimFloat.get_sign x && PrimFloat.is_zero lowest
            && negb (PrimFloat.get_sign lowest)) eqn:Hz.
  - left. split; [reflexivity|].
    apply andb_true_iff in Hz. destruct Hz as [Hz _].
    apply andb_true_iff in Hz. destruct Hz as [Hz Hz2].
    apply andb_true_iff in Hz. destruct Hz as [Hz1 _].
    rewrite (is_zero_scaled x Hx Hz1), (is_zero_scaled lowest Hl Hz2). lia.
  - destruct (number_compare x lowest Hx Hl) as (Hlt & _ & _). rewrite Hlt.
    destruct (Z.ltb_spec (scaledValue x) (scaledValue lowest)); [left|right];
      split; try reflexivity; lia.
Qed.

Lemma maxStep_cases (highest x : number) :
  isNaN highest = false -> isNaN x = false ->
  (maxStep highest x = x /\ scaledValue highest <= scaledValue x)
  \/ (maxStep highest x = highest /\ scaledValue x <= scaledValue highest).
Proof.
  intros Hh Hx. unfold maxStep.
  destruct (PrimFloat.is_zero x && negb (PrimFloat.get_sign x) && PrimFloat.is_zero highest
            && PrimFloat.get_sign highest) eqn:Hz.
  - left. split; [reflexivity|].
    apply andb_true_iff in Hz. destruct Hz as [Hz _].
    apply andb_true_iff in Hz. destruct Hz as [Hz Hz2].
    apply andb_true_iff in Hz. destruct Hz as [Hz1 _].
    rewrite (is_zero_scaled x Hx Hz1), (is_zero_scaled highest Hh Hz2). lia.
  - destruct (number_compare highest x Hh Hx) as (Hlt & _ & _). rewrite Hlt.
    destruct (Z.ltb_spec (scaledValue highest) (scaledValue x)); [left|right];
      split; try reflexivity; lia.
Qed.

(** The folds of [Math.min] and [Math.max] from a bound [acc]: the result is
    the bound or one of the values, and bounds them all. *)
Lemma fold_minStep (values : list number) (acc : number) :
  noNaN values -> isNaN acc = false ->
  let result := fold_left minStep values acc in
  isNaN result = false
  /\ (result = acc \/ In result values)
  /\ scaledValue result <= scaledValue acc
  /\ Forall (fun v => scaledValue result <= scaledValue v) values.
Proof.
  intros Hv. revert acc. induction Hv as [|x l Hx Hl IH]; intros acc Hacc; simpl.
  - repeat split; auto. lia.
  - assert (Hn : isNaN (minStep acc x) = false).
    { destruct (minStep_cases acc x Hacc Hx) as [[-> _]|[-> _]]; assumption. }
    destruct (IH (minStep acc x) Hn) as (Hr & Hin & Hle & Hall).
    split; [exact Hr|].
    destruct (minStep_cases acc x Hacc Hx) as [[Heq Hc]|[Heq Hc]];
      rewrite Heq in *.
    + split; [destruct Hin as [->|Hin]; auto|].
      split; [lia|]. constructor; [lia|exact Hall].
    + split; [destruct Hin as [->|Hin]; auto|].
      split; [lia|]. constructor; [lia|exact Hall].
Qed.

Lemma fold_maxStep (values : list number) (acc : number) :
  noNaN values -> isNaN acc = false ->
  let result := fold_left maxStep values acc in
  isNaN result = false
  /\ (result = acc \/ In result values)
  /\ scaledValue acc <= scaledValue result
  /\ Forall (fun v => scaledValue v <= scaledValue result) values.
Proof.
  intros Hv. revert acc. induction Hv as [|x l Hx Hl IH]; intros acc Hacc; simpl.
  - repeat split; auto. lia.
  - assert (Hn : isNaN (maxStep acc x) = false).
    { destruct (maxStep_cases acc x Hacc Hx) as [[-> _]|[-> _]]; assumption. }
    destruct (IH (maxStep acc x) Hn) as (Hr & Hin & Hle & Hall).
    split; [exact Hr|].
    destruct (maxStep_cases acc x Hacc Hx) as [[Heq Hc]|[Heq Hc]];
      rewrite Heq in *.
    + split; [destruct Hin as [->|Hin]; auto|].
      split; [lia|]. constructor; [lia|exact Hall].
    + split; [destruct Hin as [->|Hin]; auto|].
      split; [lia|]. constructor; [lia|exact Hall].
Qed.

Lemma minOf_least (values : list number) :
  values <> [] -> noNaN values ->
  In (minOf values) values /\ Forall (numberLe (minOf values)) values.
Proof.
  intros Hne Hv. unfold minOf. rewrite (existsb_isNaN_false values Hv).
  destruct (fold_minStep values PrimFloat.infinity Hv eq_refl) as (Hr & Hin & _ & Hall).
  set (result := fold_left minStep values PrimFloat.infinity) in *.
  split.
  - destruct Hin as [Heq|Hin]; [|exact Hin].
    destruct values as [|v vs]; [contradiction|].
    inversion Hall as [|? ? Hle _]; subst. inversion Hv as [|? ? Hnv _]; subst.
    rewrite Heq in Hle. left. rewrite Heq. apply scaled_top; [exact Hnv|exact Hle].
  - unfold noNaN in Hv. rewrite List.Forall_forall in Hall, Hv |- *. intros v Hin'.
    apply numberLe_scaled; auto.
Qed.

Lemma maxOf_greatest (values : list number) :
  values <> [] -> noNaN values ->
  In (maxOf values) values
  /\ Forall (fun v => numberLe v (maxOf values)) values.
Proof.
  intros Hne Hv. unfold maxOf. rewrite (existsb_isNaN_false values Hv).
  destruct (fold_maxStep values PrimFloat.neg_infinity Hv eq_refl) as (Hr & Hin & _ & Hall).
  set (result := fold_left maxStep values PrimFloat.neg_infinity) in *.
  split.
  - destruct Hin as [Heq|Hin]; [|exact Hin].
    destruct values as [|v vs]; [contradiction|].
    inversion Hall as [|? ? Hle _]; subst. inversion Hv as [|? ? Hnv _]; subst.
    rewrite Heq in Hle. left. rewrite Heq. apply scaled_bottom; [exact Hnv|exact Hle].
  - unfold noNaN in Hv. rewrite List.Forall_forall in Hall, Hv |- *. intros v Hin'.
    apply numberLe_scaled; auto.
Qed.

(** ** The statistics *)

Lemma even_length_mod (n : nat) : (Z.of_nat n mod 2 =? 0) = Nat.even n.
Proof.
  destruct (Nat.even n) eqn:E.
  - apply Nat.even_spec in E. destruct E as [k ->].
    apply Z.eqb_eq. rewrite Nat2Z.inj_mul, Z.mul_comm. apply Z_mod_mult.
  - rewrite <- Nat.negb_odd in E. apply negb_false_iff in E.
    apply Nat.odd_spec in E. destruct E as [k ->].
    apply Z.eqb_neq. rewrite Nat2Z.inj_add, Nat2Z.inj_mul.
    rewrite Z.add_comm, Z.mul_comm, Z_mod_plus_full. discriminate.
Qed.

Lemma numberAt_nth (l : list number) (i : nat) :
  numberAt l (Z.of_nat i) = nth i l NaN.
Proof.
  unfold numberAt. destruct (Z.ltb_spec (Z.of_nat i) 0) as [H|_]; [lia|].
  rewrite Nat2Z.id, nth_lookup. destruct (l !! i); reflexivity.
Qed.

Lemma fold_add_spec (values : list number) (acc : number) :
  Prim2SF (fold_left PrimFloat.add values acc)
  = fold_left SF64add (map Prim2SF values) (Prim2SF acc).
Proof.
  revert acc. induction values as [|x values IH]; intros acc; [reflexivity|].
  cbn [fold_left map]. rewrite IH, add_spec. reflexivity.
Qed.

(** What [calculateStatistic] returns on a list that a call can take as its
    arguments.  For [mean], the IEEE quotient of the IEEE sum of the values,
    added from the left starting at [0], by their count; for [median], the
    middle element of the values sorted in ascending order when their count
    is odd and the average of the two middle elements when it is even; for
    [min] and [max], a value of the list that is below, respectively above,
    all the values; and [0] for every other method, whatever the length.
    Order is only defined between numbers that are not [NaN], so the median,
    the minimum and the maximum are stated for lists without [NaN], which is
    what the caller passes. *)
Lemma calculateStatistic_methods {engine : Engine} (values : list number) :
  values <> [] ->
  Z.of_nat (length values) < 2 ^ 32 ->
  (exists mean,
      calculateStatistic values "mean" = Returns mean
      /\ Prim2SF mean
         = SF64div (fold_left SF64add (map Prim2SF values) (S754_zero false))
                   (binary_normalize prec emax (Z.of_nat (length values)) 0 false))
  /\ (noNaN values ->
      exists sorted,
        Permutation sorted values /\ Sorted numberLe sorted
        /\ calculateStatistic values "median"
           = Returns (if Nat.even (length values)
                      then ((nth (length values / 2 - 1) sorted NaN
                             + nth (length values / 2) sorted NaN) / 2)%float
                      else nth (length values / 2) sorted NaN))
  /\ (noNaN values -> (N.of_nat (length values) <= argumentLimit)%N ->
      exists lowest highest,
        calculateStatistic values "min" = Returns lowest
        /\ In lowest values /\ Forall (numberLe lowest) values
        /\ calculateStatistic values "max" = Returns highest
        /\ In highest values /\ Forall (fun v => numberLe v highest) values)
  /\ (forall method,
         method <> "mean" -> method <> "median" -> method <> "min" ->
         method <> "max" -> calculateStatistic values method = Returns 0%float).
Proof.
  intros Hne Hlen. split; [|split; [|split]].
  - eexists. split; [reflexivity|].
    rewrite div_spec, fold_add_spec, number_of_nat_spec by lia. reflexivity.
  - intros Hv. exists (sortBy numberGt values).
    split; [apply sortBy_Permutation|].
    split; [apply sortBy_numberGt_ascending; exact Hv|].
    unfold calculateStatistic. simpl String.eqb.
    assert (Hl : length (sortBy numberGt values) = length values).
    { apply Permutation_length, sortBy_Permutation. }
    rewrite Hl, even_length_mod.
    change 2 with (Z.of_nat 2). rewrite <- Nat2Z.inj_div.
    destruct (Nat.even (length values)) eqn:E.
    + assert (Hpos : (1 <= length values / 2)%nat).
      { apply Nat.even_spec in E. destruct E as [k Hk].
        destruct values; [contradiction|]. simpl length in *.
        rewrite Hk, Nat.mul_comm, Nat.div_mul by lia. lia. }
      replace (Z.of_nat (length values / 2) - 1)
        with (Z.of_nat (length values / 2 - 1)) by lia.
      rewrite !numberAt_nth. reflexivity.
    + rewrite numberAt_nth. reflexivity.
  - intros Hv Hlimit. apply N.leb_le in Hlimit.
    exists (minOf values), (maxOf values).
    unfold calculateStatistic, Math_min, Math_max. simpl String.eqb. rewrite Hlimit.
    destruct (minOf_least values Hne Hv) as [Hin Hall].
    destruct (maxOf_greatest values Hne Hv) as [Hin' Hall'].
    repeat split; assumption.
  - intros method H1 H2 H3 H4. unfold calculateStatistic.
    apply StringFacts.eqb_neq in H1, H2, H3, H4. rewrite H1, H2, H3, H4. reflexivity.
Qed.

(** The values of the specification's examples. *)
Lemma calculateStatistic_examples :
  calculateStatistic (engine := sampleEngine) [1; 3]%float "mean" = Returns 2%float
  /\ calculateStatistic (engine := sampleEngine) [1; 2; 3; 4]%float "mean"
     = Returns 2.5%float
  /\ calculateStatistic (engine := sampleEngine) [1; 2; 4]%float "median"
     = Returns 2%float
  /\ calculateStatistic (engine := sampleEngine) [4; 1; 2; 8]%float "median"
     = Returns 3%float
  /\ calculateStatistic (engine := sampleEngine) [4; 1; 2; 8]%float "min"
     = Returns 1%float
  /\ calculateStatistic (engine := sampleEngine) [4; 1; 2; 8]%float "max"
     = Returns 8%float
  /\ calculateStatistic (engine := sampleEngine) [4; 1; 2; 8]%float "mode"
     = Returns 0%float.
Proof. repeat split; vm_compute; reflexivity. Qed.

(** C5. [calculateStatistic] does not return the minimum or the maximum of
    every non-empty list: [Math.min(...values)] and [Math.max(...values)]
    pass each value as an argument of the call, and the engine refuses a
    call with more arguments than it has room for.  On every engine there is
    a list, of one more value than a call can take, on which both methods
    throw a [RangeError]; they throw on every longer list as well, and a
    [fill-method] step with the method [min] or [max] then throws instead of
    filling the column. *)
Theorem calculateStatistic_beyond_limit {engine : Engine} :
  let values := replicate (S (N.to_nat argumentLimit)) 1%float in
  values <> []
  /\ calculateStatistic values "min" = Throws rangeErrorMessage
  /\ calculateStatistic values "max" = Throws rangeErrorMessage
  /\ minOf values = 1%float
  /\ maxOf values = 1%float
  /\ (forall longer : list number,
        (argumentLimit < N.of_nat (length longer))%N ->
        calculateStatistic longer "min" = Throws rangeErrorMessage
        /\ calculateStatistic longer "max" = Throws rangeErrorMessage)
  /\ (forall (currentData : table) (column : string) (setting : ColumnSetting)
             (colIndex : nat),
        indexOf (headers currentData) column = Some colIndex ->
        strategy setting = "fill-method" ->
        value setting = VString "min" \/ value setting = VString "max" ->
        (argumentLimit < N.of_nat (length (numericValues (rows currentData) colIndex)))%N ->
        processColumn currentData column (Some setting) = Throws rangeErrorMessage).
Proof.
  intros values.
  assert (Hthrows : forall longer : list number,
             (argumentLimit < N.of_nat (length longer))%N ->
             calculateStatistic longer "min" = Throws rangeErrorMessage
             /\ calculateStatistic longer "max" = Throws rangeErrorMessage).
  { intros longer Hlen. apply N.leb_gt in Hlen.
    unfold calculateStatistic, Math_min, Math_max. simpl String.eqb. rewrite Hlen.
    split; reflexivity. }
  assert (Hlen : (argumentLimit < N.of_nat (length values))%N).
  { subst values. rewrite length_replicate. lia. }
  assert (Hfold : forall n : nat,
             fold_left minStep (replicate n 1%float) 1%float = 1%float
             /\ fold_left maxStep (replicate n 1%float) 1%float = 1%float).
  { induction n as [|n [IH1 IH2]]; [split; reflexivity|].
    cbn [replicate fold_left].
    change (minStep 1 1) with 1%float. change (maxStep 1 1) with 1%float.
    split; assumption. }
  assert (Hnan : forall n : nat, existsb isNaN (replicate n 1%float) = false).
  { induction n as [|n IH]; [reflexivity|]. cbn [replicate existsb]. exact IH. }
  split; [subst values; discriminate|].
  split; [apply Hthrows; exact Hlen|].
  split; [apply Hthrows; exact Hlen|].
  split; [|split; [|split; [exact Hthrows|]]].
  - unfold minOf. subst values. rewrite Hnan. cbn [replicate fold_left].
    change (minStep PrimFloat.infinity 1) with 1%float. apply Hfold.
  - unfold maxOf. subst values. rewrite Hnan. cbn [replicate fold_left].
    change (maxStep PrimFloat.neg_infinity 1) with 1%float. apply Hfold.
  - intros currentData column setting colIndex Hidx Hs Hmethod Hlong.
    unfold processColumn. rewrite Hidx, Hs. simpl String.eqb. cbv iota.
    unfold replacementValue.
    assert (Hnum : (length (numericValues (rows currentData) colIndex) =? 0)%nat = false).
    { apply Nat.eqb_neq. intros H0. rewrite H0 in Hlong. simpl in Hlong. lia. }
    destruct (Hthrows _ Hlong) as [Hmin Hmax].
    destruct Hmethod as [Hm|Hm]; rewrite Hm.
    + change (ToString (orElse (VString "min") (VString "mode"))) with "min".
      change (String.eqb "min" "mode") with false.
      rewrite Hnum. cbn [orb]. rewrite Hmin. reflexivity.
    + change (ToString (orElse (VString "max") (VString "mode"))) with "max".
      change (String.eqb "max" "mode") with false.
      rewrite Hnum. cbn [orb]. rewrite Hmax. reflexivity.
Qed.

Lemma calculateStatistic_beyond_limit_witness :
  calculateStatistic (engine := sampleEngine) (replicate (S (N.to_nat 65536)) 1%float) "min"
  = Throws "Maximum call stack size exceeded"
  /\ processColumn (engine := sampleEngine) longColumn "x"
       (Some {| strategy := "fill-method"; value := VString "min" |})
     = Throws "Maximum call stack size exceeded".
Proof.
  pose proof (calculateStatistic_beyond_limit (engine := sampleEngine)) as H.
  cbv zeta in H. destruct H as (_ & Hmin & _ & _ & _ & _ & Hstep).
  split; [exact Hmin|].
  apply (Hstep longColumn "x" {| strategy := "fill-method"; value := VString "min" |}
           0%nat eq_refl eq_refl (or_introl eq_refl)).
  vm_compute. reflexivity.
Defined.

(** ** The frequency object *)












(** ** The enumeration of the frequency object *)





(** ** The entry that the sort by count puts first *)



(** ** The mode *)





(** * Sharing: the source table is not written to

    Every write of [processMissingValues] goes to an object that the call
    itself allocated. *)

Lemma unchangedBelow_refl (n : nat) (h : Heap.heap) : unchangedBelow n h h.
Proof. split; [lia|reflexivity]. Qed.

Lemma unchangedBelow_trans (n : nat) (h1 h2 h3 : Heap.heap) :
  unchangedBelow n h1 h2 -> unchangedBelow n h2 h3 -> unchangedBelow n h1 h3.
Proof.
  intros [Hl1 H1] [Hl2 H2]. split; [lia|].
  intros l Hl. rewrite H2, H1 by exact Hl. reflexivity.
Qed.

Lemma alloc_unchanged (n : nat) (o : Heap.object) (h : Heap.heap) :
  (n <= length h)%nat -> unchangedBelow n h (snd (Heap.alloc o h)).
Proof.
  intros Hn. simpl. split; [rewrite length_app; simpl; lia|].
  intros l Hl. apply lookup_app_l. lia.
Qed.

Lemma write_unchanged (n l : nat) (o : Heap.object) (h : Heap.heap) :
  (n <= l)%nat -> unchangedBelow n h (Heap.write l o h).
Proof.
  intros Hn. unfold Heap.write. split; [rewrite length_insert; lia|].
  intros l' Hl'. apply list_lookup_insert_ne. lia.
Qed.

Lemma fillRows_unchanged (n : nat) (refs : list nat) (colIndex : nat) (v : jsval)
    (h : Heap.heap) :
  (n <= length h)%nat ->
  unchangedBelow n h (snd (Heap.fillRows refs colIndex v h)).
Proof.
  revert h. induction refs as [|row refs IH]; intros h Hn; simpl.
  - apply unchangedBelow_refl.
  - set (h1 := (h ++ [Heap.Cells (Heap.cells h row)])%list).
    set (h2 := if isCellMissing (cellAt (Heap.cells h1 row) colIndex)
               then Heap.write (length h)
                      (Heap.Cells (arraySet (Heap.cells h1 (length h)) colIndex v)) h1
               else h1).
    assert (H1 : unchangedBelow n h h1) by (apply (alloc_unchanged n _ h Hn)).
    assert (H2 : unchangedBelow n h1 h2).
    { unfold h2. destruct (isCellMissing _).
      - apply write_unchanged. exact Hn.
      - apply unchangedBelow_refl. }
    assert (Hlen : (n <= length h2)%nat) by (destruct H1, H2; lia).
    specialize (IH h2 Hlen).
    destruct (Heap.fillRows refs colIndex v h2) as [news h3]. simpl in *.
    exact (unchangedBelow_trans n _ _ _ (unchangedBelow_trans n _ _ _ H1 H2) IH).
Qed.

Lemma assignRows_unchanged (n currentData : nat) (newRefs : list nat) (h : Heap.heap) :
  (n <= length h)%nat -> (n <= currentData)%nat ->
  unchangedBelow n h (Heap.assignRows currentData newRefs h).
Proof.
  intros Hn Hc. unfold Heap.assignRows. simpl.
  eapply unchangedBelow_trans; [apply (alloc_unchanged n (Heap.Rows newRefs) h Hn)|].
  apply write_unchanged. exact Hc.
Qed.

Lemma processColumn_unchanged {engine : Engine} (n currentData : nat) (column : string)
    (columnSetting : option ColumnSetting) (h : Heap.heap) :
  (n <= length h)%nat -> (n <= currentData)%nat ->
  unchangedBelow n h (snd (Heap.processColumn currentData column columnSetting h)).
Proof.
  intros Hn Hc. unfold Heap.processColumn.
  destruct (indexOf _ column) as [colIndex|]; [|apply unchangedBelow_refl].
  destruct columnSetting as [setting|]; [|apply unchangedBelow_refl].
  destruct (String.eqb (strategy setting) "drop").
  { destruct (PrimFloat.leb _ _); simpl;
      [apply assignRows_unchanged; assumption|apply unchangedBelow_refl]. }
  destruct (String.eqb (strategy setting) "fill-value").
  { pose proof (fillRows_unchanged n (Heap.rowRefs h (Heap.rowsRef h currentData))
                  colIndex (fillValueOf (value setting)) h Hn) as Hf.
    destruct (Heap.fillRows _ colIndex _ h) as [news h1]. simpl in *.
    eapply unchangedBelow_trans; [exact Hf|].
    apply assignRows_unchanged; [destruct Hf; lia|exact Hc]. }
  destruct (String.eqb (strategy setting) "fill-method").
  { destruct (replacementValue _ colIndex (value setting)) as [replacement|message];
      [|apply unchangedBelow_refl].
    pose proof (fillRows_unchanged n (Heap.rowRefs h (Heap.rowsRef h currentData))
                  colIndex replacement h Hn) as Hf.
    destruct (Heap.fillRows _ colIndex _ h) as [news h1]. simpl in *.
    eapply unchangedBelow_trans; [exact Hf|].
    apply assignRows_unchanged; [destruct Hf; lia|exact Hc]. }
  apply unchangedBelow_refl.
Qed.

Lemma processColumns_unchanged {engine : Engine} (n : nat) (settings : settingsMap)
    (callbacks : option Callbacks) (totalSteps : nat) (keys : list string)
    (currentData : nat) :
  (n <= currentData)%nat ->
  forall currentStep h, (n <= length h)%nat ->
  unchangedBelow n h
    (snd (Heap.processColumns settings callbacks totalSteps keys currentStep
            currentData h)).
Proof.
  intros Hc. induction keys as [|column keys IH]; intros step h Hn; simpl.
  - apply unchangedBelow_refl.
  - destruct (callOnProgress callbacks _) as [calls [message|]]; simpl;
      [apply unchangedBelow_refl|].
    pose proof (processColumn_unchanged n currentData column
                  (settingOf settings column) h Hn Hc) as H1.
    destruct (Heap.processColumn currentData column _ h) as [[u|message] h1];
      simpl in *; [|exact H1].
    assert (Hn1 : (n <= length h1)%nat) by (destruct H1; lia).
    specialize (IH (S step) h1 Hn1).
    destruct (Heap.processColumns settings callbacks totalSteps keys (S step)
                currentData h1) as [[result calls'] h2]. simpl in *.
    exact (unchangedBelow_trans n _ _ _ H1 IH).
Qed.

Lemma allocRows_unchanged (n : nat) (text : list (list jsval)) (h : Heap.heap) :
  (n <= length h)%nat -> unchangedBelow n h (snd (Heap.allocRows text h)).
Proof.
  revert h. induction text as [|c cs IH]; intros h Hn; simpl.
  - apply unchangedBelow_refl.
  - pose proof (alloc_unchanged n (Heap.Cells c) h Hn) as H1. simpl in H1.
    assert (Hn1 : (n <= length (h ++ [Heap.Cells c]))%nat) by (destruct H1; lia).
    specialize (IH _ Hn1).
    destruct (Heap.allocRows cs (h ++ [Heap.Cells c])%list) as [ls h2]. simpl in *.
    exact (unchangedBelow_trans n _ _ _ H1 IH).
Qed.

Lemma deepCopy_unchanged (sourceData : nat) (h : Heap.heap) :
  unchangedBelow (length h) h (snd (Heap.deepCopy sourceData h))
  /\ (length h <= fst (Heap.deepCopy sourceData h))%nat.
Proof.
  unfold Heap.deepCopy. simpl.
  set (h1 := (h ++ [Heap.Strings _])%list).
  assert (H1 : unchangedBelow (length h) h h1)
    by (apply (alloc_unchanged (length h) _ h); lia).
  pose proof (allocRows_unchanged (length h)
                (map (fun r => map jsonCell (Heap.cells h r))
                     (Heap.rowRefs h (Heap.rowsRef h sourceData))) h1) as H2.
  destruct (Heap.allocRows _ h1) as [rowCopies h2]. simpl in *.
  specialize (H2 (proj1 H1)).
  assert (H12 : unchangedBelow (length h) h h2)
    by exact (unchangedBelow_trans _ _ _ _ H1 H2).
  split.
  - apply (unchangedBelow_trans _ _ h2); [exact H12|].
    split; [rewrite !length_app; simpl; lia|].
    intros l Hl. destruct H12 as [Hlen _].
    rewrite <- app_assoc. apply lookup_app_l. lia.
  - rewrite length_app. simpl. destruct H12. lia.
Qed.

Lemma tryBlock_unchanged {engine : Engine} (settings : settingsMap)
    (callbacks : option Callbacks)
    (sourceData : nat) (st : Heap.state) (n : nat) (h : Heap.heap) :
  (n <= length h)%nat ->
  unchangedBelow n h
    (snd (fst (fst (Heap.tryBlock settings callbacks sourceData st h)))).
Proof.
  intros Hn. unfold Heap.tryBlock.
  destruct (deepCopy_unchanged sourceData h) as [[Hlen Hd] Hc].
  destruct (Heap.deepCopy sourceData h) as [currentData h1]. simpl in *.
  assert (H1 : unchangedBelow n h h1).
  { split; [exact Hlen|]. intros l Hl. apply Hd. lia. }
  pose proof (processColumns_unchanged n settings callbacks
                (length (columnKeys settings)) (columnKeys settings) currentData
                ltac:(lia) 0%nat h1 ltac:(lia)) as H2.
  destruct (Heap.processColumns settings callbacks _ _ 0 currentData h1)
    as [[[u|message] calls] h2]; simpl in *.
  - destruct (callOnProgress callbacks 100%float) as [calls1 [m|]]; simpl.
    + exact (unchangedBelow_trans n _ _ _ H1 H2).
    + destruct (callOnComplete callbacks) as [calls2 thrown]. simpl.
      exact (unchangedBelow_trans n _ _ _ H1 H2).
  - exact (unchangedBelow_trans n _ _ _ H1 H2).
Qed.

Lemma processMissingValues_unchanged {engine : Engine} (settings : settingsMap)
    (callbacks : option Callbacks) (st : Heap.state) (h : Heap.heap) :
  unchangedBelow (length h) h
    (snd (fst (fst (Heap.processMissingValues settings callbacks st h)))).
Proof.
  unfold Heap.processMissingValues.
  assert (Hrun : forall data h0 st1, unchangedBelow (length h) h h0 ->
            unchangedBelow (length h) h
              (snd (fst (fst
                 match Heap.tryBlock settings callbacks data st1 h0 with
                 | (st2, h2, calls, None) => (st2, h2, calls, None)
                 | (st2, h2, calls, Some message) =>
                     let errorMessage :=
                       if String.eqb message "" then "Failed to process missing values"
                       else message in
                     let st3 :=
                       {| Heap.isLoading := false;
                          Heap.error := Some errorMessage;
                          Heap.rawData := Heap.rawData st2;
                          Heap.processedData := Heap.processedData st2;
                          Heap.cleanedData := Heap.cleanedData st2 |} in
                     let '(calls', thrown) := callOnError callbacks errorMessage in
                     (st3, h2, (calls ++ calls')%list, thrown)
                 end)))).
  { intros data h0 st1 H0.
    pose proof (tryBlock_unchanged settings callbacks data st1 (length h) h0
                  (proj1 H0)) as Ht.
    destruct (Heap.tryBlock settings callbacks data st1 h0)
      as [[[st2 h2] calls] [message|]]; simpl in *.
    - destruct (callOnError callbacks _) as [calls' thrown]. simpl.
      exact (unchangedBelow_trans _ _ _ _ H0 Ht).
    - exact (unchangedBelow_trans _ _ _ _ H0 Ht). }
  destruct (Heap.orRef (Heap.cleanedData st) (Heap.processedData st)) as [data|].
  - apply Hrun. apply unchangedBelow_refl.
  - destruct (Heap.rawData st) as [raw|].
    + apply Hrun. apply (alloc_unchanged (length h) _ h). lia.
    + destruct (callOnError callbacks _) as [calls thrown]. simpl.
      apply unchangedBelow_refl.
Qed.

Lemma snapshot_unchanged (h h' : Heap.heap) (t : nat) :
  unchangedBelow (length h) h h' -> Heap.allocated h t ->
  Heap.snapshot h' t = Heap.snapshot h t.
Proof.
  intros [_ Hsame] (hl & rl & Ht & Hhl & Hrl & Hrefs).
  assert (Htl : (t < length h)%nat) by (apply lookup_lt_Some in Ht; exact Ht).
  unfold Heap.snapshot, Heap.headersRef, Heap.rowsRef, Heap.strings, Heap.rowRefs.
  rewrite (Hsame t Htl), Ht, (Hsame hl Hhl), (Hsame rl Hrl).
  f_equal. apply map_ext_in. intros r Hr.
  unfold Heap.rowRefs in Hrefs. rewrite List.Forall_forall in Hrefs.
  unfold Heap.cells. rewrite (Hsame r (Hrefs r Hr)). reflexivity.
Qed.

(** C6. [processMissingValues] leaves every object that existed before the
    call as it was: the heap after the call holds, at each location in use
    before it, the same object.  So the source table, like any table whose
    arrays existed before the call, reads after the call as it did before:
    the same headers and the same rows, cell by cell. *)
Theorem source_not_mutated {engine : Engine} (settings : settingsMap)
    (callbacks : option Callbacks)
    (st : Heap.state) (h : Heap.heap) :
  (forall l o,
      h !! l = Some o ->
      snd (fst (fst (Heap.processMissingValues settings callbacks st h))) !! l = Some o)
  /\ (forall t,
         Heap.allocated h t ->
         Heap.snapshot
           (snd (fst (fst (Heap.processMissingValues settings callbacks st h)))) t
         = Heap.snapshot h t).
Proof.
  pose proof (processMissingValues_unchanged settings callbacks st h) as Hu.
  split.
  - intros l o Hl. destruct Hu as [_ Hsame].
    rewrite Hsame by (apply lookup_lt_Some in Hl; exact Hl). exact Hl.
  - intros t Ht. apply snapshot_unchanged; assumption.
Qed.

(** * The value model is the object model read back

    Reading the tables through their references turns a run of the object
    model into the run of the value model. *)

Lemma allocRows_closed (text : list (list jsval)) (h : Heap.heap) :
  Heap.allocRows text h
  = (seq (length h) (length text), (h ++ map Heap.Cells text)%list).
Proof.
  revert h. induction text as [|c cs IH]; intros h; simpl.
  - rewrite app_nil_r. reflexivity.
  - rewrite IH, length_app. simpl. rewrite Nat.add_1_r, <- app_assoc. reflexivity.
Qed.

Lemma cells_of_appended (h rest : Heap.heap) (text : list (list jsval)) :
  map (Heap.cells (h ++ map Heap.Cells text ++ rest)) (seq (length h) (length text))
  = text.
Proof.
  revert h. induction text as [|c cs IH]; intros h; simpl; [reflexivity|].
  f_equal.
  - unfold Heap.cells. rewrite list_lookup_middle by reflexivity. reflexivity.
  - specialize (IH (h ++ [Heap.Cells c])%list).
    rewrite length_app in IH. simpl in IH. rewrite Nat.add_1_r in IH.
    rewrite <- app_assoc in IH. exact IH.
Qed.

Lemma cells_app_l (h ext : Heap.heap) (l : nat) :
  (l < length h)%nat -> Heap.cells (h ++ ext) l = Heap.cells h l.
Proof. intros Hl. unfold Heap.cells. rewrite lookup_app_l by exact Hl. reflexivity. Qed.

Lemma write_last (h : Heap.heap) (o o' : Heap.object) :
  Heap.write (length h) o' (h ++ [o]) = (h ++ [o'])%list.
Proof.
  unfold Heap.write. rewrite insert_app_r_alt by lia.
  rewrite Nat.sub_diag. reflexivity.
Qed.

Lemma fillRows_closed (refs : list nat) (colIndex : nat) (v : jsval)
    (h ext : Heap.heap) :
  Forall (fun r => (r < length h)%nat) refs ->
  Heap.fillRows refs colIndex v (h ++ ext)
  = (seq (length (h ++ ext)) (length refs),
     ((h ++ ext) ++ map Heap.Cells (fillRows (map (Heap.cells h) refs) colIndex v))%list).
Proof.
  intros Hrefs. revert ext.
  induction Hrefs as [|row refs Hrow Hrefs IH]; intros ext; simpl.
  - rewrite app_nil_r. reflexivity.
  - set (hx := (h ++ ext)%list).
    assert (Hrowx : (row < length hx)%nat) by (unfold hx; rewrite length_app; lia).
    assert (Hc : Heap.cells (hx ++ [Heap.Cells (Heap.cells hx row)]) row = Heap.cells h row).
    { rewrite cells_app_l by exact Hrowx. unfold hx. apply cells_app_l. exact Hrow. }
    assert (Hn : Heap.cells (hx ++ [Heap.Cells (Heap.cells hx row)]) (length hx)
                 = Heap.cells h row).
    { unfold Heap.cells at 1. rewrite list_lookup_middle by reflexivity.
      unfold hx. apply cells_app_l. exact Hrow. }
    rewrite Hc, Hn, write_last.
    assert (Hx : Heap.cells hx row = Heap.cells h row)
      by (unfold hx; apply cells_app_l; exact Hrow).
    rewrite Hx.
    set (c := if isCellMissing (cellAt (Heap.cells h row) colIndex)
              then arraySet (Heap.cells h row) colIndex v else Heap.cells h row).
    assert (Hh2 : (if isCellMissing (cellAt (Heap.cells h row) colIndex)
                   then (hx ++ [Heap.Cells (arraySet (Heap.cells h row) colIndex v)])%list
                   else (hx ++ [Heap.Cells (Heap.cells h row)])%list)
                  = (h ++ (ext ++ [Heap.Cells c]))%list).
    { unfold c, hx. rewrite app_assoc.
      destruct (isCellMissing (cellAt (Heap.cells h row) colIndex)); reflexivity. }
    rewrite Hh2, IH. unfold hx. rewrite !length_app. simpl.
    f_equal.
    + f_equal. f_equal. lia.
    + rewrite <- !app_assoc. reflexivity.
Qed.

(** Writing a table object over a table object changes no array. *)
Lemma arrays_after_table_write (h : Heap.heap) (t a b a' b' l : nat) :
  h !! t = Some (Heap.Table a b) ->
  Heap.cells (Heap.write t (Heap.Table a' b') h) l = Heap.cells h l
  /\ Heap.rowRefs (Heap.write t (Heap.Table a' b') h) l = Heap.rowRefs h l
  /\ Heap.strings (Heap.write t (Heap.Table a' b') h) l = Heap.strings h l.
Proof.
  intros Ht. unfold Heap.cells, Heap.rowRefs, Heap.strings, Heap.write.
  destruct (decide (l = t)) as [->|Hne].
  - rewrite list_lookup_insert_eq by (apply lookup_lt_Some in Ht; exact Ht).
    rewrite Ht. auto.
  - rewrite list_lookup_insert_ne by congruence. auto.
Qed.

Lemma filter_map_cells (p : list jsval -> bool) (h : Heap.heap) (refs : list nat) :
  map (Heap.cells h) (List.filter (fun r => p (Heap.cells h r)) refs)
  = List.filter p (map (Heap.cells h) refs).
Proof.
  induction refs as [|r refs IH]; simpl; [reflexivity|].
  destruct (p (Heap.cells h r)); simpl; rewrite IH; reflexivity.
Qed.

(** After [currentData.rows = newRows] the table reads with its old headers
    and the new rows. *)
Lemma assignRows_snapshot (h : Heap.heap) (currentData hl rl : nat)
    (newRefs : list nat) :
  h !! currentData = Some (Heap.Table hl rl) ->
  (hl < length h)%nat ->
  Forall (fun r => (r < length h)%nat) newRefs ->
  Heap.snapshot (Heap.assignRows currentData newRefs h) currentData
  = {| headers := Heap.strings h hl; rows := map (Heap.cells h) newRefs |}
  /\ Heap.allocated (Heap.assignRows currentData newRefs h) currentData.
Proof.
  intros Ht Hhl Hrefs.
  assert (Htl : (currentData < length h)%nat) by (apply lookup_lt_Some in Ht; exact Ht).
  unfold Heap.assignRows. simpl.
  set (h1 := (h ++ [Heap.Rows newRefs])%list).
  assert (Ht1 : h1 !! currentData = Some (Heap.Table hl rl)).
  { unfold h1. rewrite lookup_app_l by exact Htl. exact Ht. }
  assert (Hhr : Heap.headersRef h1 currentData = hl).
  { unfold Heap.headersRef. rewrite Ht1. reflexivity. }
  rewrite Hhr.
  set (h2 := Heap.write currentData (Heap.Table hl (length h)) h1).
  assert (Ht2 : h2 !! currentData = Some (Heap.Table hl (length h))).
  { unfold h2, Heap.write. apply list_lookup_insert_eq.
    unfold h1. rewrite length_app. simpl. lia. }
  assert (Hlen2 : length h2 = S (length h)).
  { unfold h2, Heap.write, h1. rewrite length_insert, length_app. simpl. lia. }
  assert (Hrows : Heap.rowRefs h2 (length h) = newRefs).
  { unfold h2. rewrite (proj1 (proj2 (arrays_after_table_write h1 _ _ _ _ _ _ Ht1))).
    unfold Heap.rowRefs, h1. rewrite list_lookup_middle by reflexivity. reflexivity. }
  assert (Hcells : forall r, (r < length h)%nat -> Heap.cells h2 r = Heap.cells h r).
  { intros r Hr. unfold h2.
    rewrite (proj1 (arrays_after_table_write h1 _ _ _ _ _ _ Ht1)).
    unfold h1. apply cells_app_l. exact Hr. }
  assert (Hstr : Heap.strings h2 hl = Heap.strings h hl).
  { unfold h2. rewrite (proj2 (proj2 (arrays_after_table_write h1 _ _ _ _ _ _ Ht1))).
    unfold Heap.strings, h1. rewrite lookup_app_l by exact Hhl. reflexivity. }
  split.
  - unfold Heap.snapshot, Heap.headersRef, Heap.rowsRef. rewrite Ht2, Hrows, Hstr.
    f_equal. apply map_ext_in. intros r Hr. apply Hcells.
    rewrite List.Forall_forall in Hrefs. apply Hrefs. exact Hr.
  - exists hl, (length h). rewrite Hlen2, Hrows.
    split; [exact Ht2|]. split; [lia|]. split; [lia|].
    eapply Forall_impl; [exact Hrefs|]. simpl. intros r Hr. lia.
Qed.

Lemma Forall_seq_lt (start len bound : nat) :
  (start + len <= bound)%nat -> Forall (fun r => (r < bound)%nat) (seq start len).
Proof.
  intros H. apply List.Forall_forall. intros r Hr. apply in_seq in Hr. lia.
Qed.

(** Filling through the heap and then assigning the new rows gives the
    table of the value model. *)
Lemma fill_assign_snapshot (h : Heap.heap) (currentData hl rl colIndex : nat)
    (v : jsval) :
  h !! currentData = Some (Heap.Table hl rl) ->
  (hl < length h)%nat ->
  Forall (fun r => (r < length h)%nat) (Heap.rowRefs h rl) ->
  let '(news, h1) := Heap.fillRows (Heap.rowRefs h rl) colIndex v h in
  Heap.snapshot (Heap.assignRows currentData news h1) currentData
  = {| headers := Heap.strings h hl;
       rows := fillRows (map (Heap.cells h) (Heap.rowRefs h rl)) colIndex v |}
  /\ Heap.allocated (Heap.assignRows currentData news h1) currentData.
Proof.
  intros Ht Hhl Hrefs.
  pose proof (fillRows_closed (Heap.rowRefs h rl) colIndex v h [] Hrefs) as Hclosed.
  rewrite !app_nil_r in Hclosed. rewrite Hclosed.
  set (filled := fillRows (map (Heap.cells h) (Heap.rowRefs h rl)) colIndex v).
  set (h1 := (h ++ map Heap.Cells filled)%list).
  assert (Hlen : length filled = length (Heap.rowRefs h rl)).
  { unfold filled. rewrite fillRows_length, length_map. reflexivity. }
  assert (Ht1 : h1 !! currentData = Some (Heap.Table hl rl)).
  { unfold h1. rewrite lookup_app_l by (apply lookup_lt_Some in Ht; exact Ht). exact Ht. }
  assert (Hl1 : length h1 = (length h + length filled)%nat).
  { unfold h1. rewrite length_app, length_map. reflexivity. }
  destruct (assignRows_snapshot h1 currentData hl rl
              (seq (length h) (length (Heap.rowRefs h rl))) Ht1 ltac:(lia)
              ltac:(apply Forall_seq_lt; lia)) as [Hsnap Halloc].
  split; [|exact Halloc].
  rewrite Hsnap. f_equal.
  - unfold Heap.strings, h1. rewrite lookup_app_l by exact Hhl. reflexivity.
  - rewrite <- Hlen. unfold h1.
    pose proof (cells_of_appended h [] filled) as Hc. rewrite app_nil_r in Hc.
    exact Hc.
Qed.

(** One column: the object model steps as the value model does. *)
Lemma processColumn_refines {engine : Engine} (h : Heap.heap) (currentData : nat) (column : string)
    (columnSetting : option ColumnSetting) :
  Heap.allocated h currentData ->
  Heap.allocated (snd (Heap.processColumn currentData column columnSetting h))
    currentData
  /\ processColumn (Heap.snapshot h currentData) column columnSetting
     = match fst (Heap.processColumn currentData column columnSetting h) with
       | Returns _ =>
           Returns (Heap.snapshot
                      (snd (Heap.processColumn currentData column columnSetting h))
                      currentData)
       | Throws message => Throws message
       end.
Proof.
  intros Halloc. pose proof Halloc as (hl & rl & Ht & Hhl & Hrl & Hrefs).
  unfold Heap.processColumn, processColumn.
  assert (Hh : Heap.headersRef h currentData = hl)
    by (unfold Heap.headersRef; rewrite Ht; reflexivity).
  assert (Hr : Heap.rowsRef h currentData = rl)
    by (unfold Heap.rowsRef; rewrite Ht; reflexivity).
  assert (Hsnap : Heap.snapshot h currentData
                  = {| headers := Heap.strings h hl;
                       rows := map (Heap.cells h) (Heap.rowRefs h rl) |}).
  { unfold Heap.snapshot. rewrite Hh, Hr. reflexivity. }
  rewrite Hsnap, Hh, Hr. simpl headers. simpl rows.
  destruct (indexOf (Heap.strings h hl) column) as [colIndex|];
    [|simpl; rewrite Hsnap; auto].
  destruct columnSetting as [setting|]; [|simpl; auto].
  destruct (String.eqb (strategy setting) "drop").
  { destruct (PrimFloat.leb _ _); [|simpl; rewrite Hsnap; auto].
    simpl fst. simpl snd. unfold dropRows.
    destruct (assignRows_snapshot h currentData hl rl
                (List.filter
                   (fun row => negb (isCellMissing (cellAt (Heap.cells h row) colIndex)))
                   (Heap.rowRefs h rl)) Ht Hhl) as [Hs Ha].
    { apply List.Forall_forall. intros r Hin. apply filter_In in Hin.
      rewrite List.Forall_forall in Hrefs. apply Hrefs. tauto. }
    split; [exact Ha|]. rewrite Hs.
    rewrite (filter_map_cells (fun c => negb (isCellMissing (cellAt c colIndex)))).
    reflexivity. }
  destruct (String.eqb (strategy setting) "fill-value").
  { pose proof (fill_assign_snapshot h currentData hl rl colIndex
                  (fillValueOf (value setting)) Ht Hhl Hrefs) as Hf.
    destruct (Heap.fillRows (Heap.rowRefs h rl) colIndex _ h) as [news h1].
    destruct Hf as [Hs Ha]. simpl fst. simpl snd.
    split; [exact Ha|]. rewrite Hs. reflexivity. }
  destruct (String.eqb (strategy setting) "fill-method").
  { destruct (replacementValue (map (Heap.cells h) (Heap.rowRefs h rl)) colIndex
                (value setting)) as [replacement|message]; [|simpl; auto].
    pose proof (fill_assign_snapshot h currentData hl rl colIndex
                  replacement Ht Hhl Hrefs) as Hf.
    destruct (Heap.fillRows (Heap.rowRefs h rl) colIndex _ h) as [news h1].
    destruct Hf as [Hs Ha]. simpl fst. simpl snd.
    split; [exact Ha|]. rewrite Hs. reflexivity. }
  simpl. rewrite Hsnap. auto.
Qed.

Lemma processColumns_refines {engine : Engine} (settings : settingsMap)
    (callbacks : option Callbacks)
    (totalSteps : nat) (keys : list string) (currentData : nat) :
  forall currentStep h,
  Heap.allocated h currentData ->
  let '(result, calls, h') :=
    Heap.processColumns settings callbacks totalSteps keys currentStep currentData h in
  Heap.allocated h' currentData
  /\ processColumns settings callbacks totalSteps keys currentStep
       (Heap.snapshot h currentData)
     = (match result with
        | Returns _ => Returns (Heap.snapshot h' currentData)
        | Throws message => Throws message
        end, calls).
Proof.
  induction keys as [|column keys IH]; intros step h Halloc; simpl.
  - auto.
  - destruct (callOnProgress callbacks _) as [calls [message|]]; [auto|].
    destruct (processColumn_refines h currentData column (settingOf settings column)
                Halloc) as [Ha Hstep].
    rewrite Hstep.
    destruct (Heap.processColumn currentData column (settingOf settings column) h)
      as [[u|message] h1]; simpl in *; [|auto].
    specialize (IH (S step) h1 Ha).
    destruct (Heap.processColumns settings callbacks totalSteps keys (S step)
                currentData h1) as [[result calls'] h2].
    destruct IH as [Ha2 Hrest]. rewrite Hrest. auto.
Qed.

(** The deep copy is a new table that reads as the copy of the source. *)
Lemma deepCopy_refines (h : Heap.heap) (sourceData : nat) :
  Heap.allocated h sourceData ->
  Heap.allocated (snd (Heap.deepCopy sourceData h)) (fst (Heap.deepCopy sourceData h))
  /\ Heap.snapshot (snd (Heap.deepCopy sourceData h)) (fst (Heap.deepCopy sourceData h))
     = deepCopy (Heap.snapshot h sourceData).
Proof.
  intros (hl & rl & Ht & Hhl & Hrl & Hrefs).
  unfold Heap.deepCopy.
  assert (Hh : Heap.headersRef h sourceData = hl)
    by (unfold Heap.headersRef; rewrite Ht; reflexivity).
  assert (Hr : Heap.rowsRef h sourceData = rl)
    by (unfold Heap.rowsRef; rewrite Ht; reflexivity).
  rewrite Hh, Hr. cbv beta iota zeta delta [Heap.alloc].
  rewrite allocRows_closed. cbv beta iota zeta.
  set (text := map (fun r => map jsonCell (Heap.cells h r)) (Heap.rowRefs h rl)).
  set (h1 := (h ++ [Heap.Strings (Heap.strings h hl)])%list).
  set (h2 := (h1 ++ map Heap.Cells text)%list).
  set (refs := seq (length h1) (length text)).
  simpl fst. simpl snd.
  set (h3 := (h2 ++ [Heap.Rows refs])%list).
  set (h4 := (h3 ++ [Heap.Table (length h) (length h2)])%list).
  assert (Hl1 : length h1 = S (length h)) by (unfold h1; rewrite length_app; simpl; lia).
  assert (Hl2 : length h2 = (length h1 + length text)%nat)
    by (unfold h2; rewrite length_app, length_map; lia).
  assert (Hl3 : length h3 = S (length h2)) by (unfold h3; rewrite length_app; simpl; lia).
  assert (Hl4 : length h4 = S (length h3)) by (unfold h4; rewrite length_app; simpl; lia).
  assert (Ht4 : h4 !! length h3 = Some (Heap.Table (length h) (length h2))).
  { unfold h4. apply list_lookup_middle. reflexivity. }
  assert (Hrows4 : Heap.rowRefs h4 (length h2) = refs).
  { unfold Heap.rowRefs, h4, h3. rewrite <- app_assoc. simpl.
    rewrite list_lookup_middle by reflexivity. reflexivity. }
  assert (Hstr4 : Heap.strings h4 (length h) = Heap.strings h hl).
  { unfold Heap.strings at 1. unfold h4, h3, h2, h1. rewrite <- !app_assoc. simpl.
    rewrite list_lookup_middle by reflexivity. reflexivity. }
  assert (Hcells4 : map (Heap.cells h4) refs = text).
  { unfold h4, h3, h2, refs. rewrite <- !app_assoc. apply cells_of_appended. }
  split.
  - exists (length h), (length h2). rewrite Hrows4.
    split; [exact Ht4|]. split; [lia|]. split; [lia|].
    unfold refs. apply Forall_seq_lt. lia.
  - unfold Heap.snapshot at 1, Heap.headersRef, Heap.rowsRef.
    rewrite Ht4, Hrows4, Hstr4, Hcells4.
    unfold deepCopy, Heap.snapshot. rewrite Hh, Hr. simpl. unfold text.
    rewrite map_map. reflexivity.
Qed.

Lemma allocated_unchanged (h h' : Heap.heap) (t : nat) :
  unchangedBelow (length h) h h' -> Heap.allocated h t -> Heap.allocated h' t.
Proof.
  intros [Hlen Hsame] (hl & rl & Ht & Hhl & Hrl & Hrefs).
  exists hl, rl.
  assert (Htl : (t < length h)%nat) by (apply lookup_lt_Some in Ht; exact Ht).
  rewrite (Hsame t Htl). split; [exact Ht|]. split; [lia|]. split; [lia|].
  unfold Heap.rowRefs in *. rewrite (Hsame rl Hrl).
  eapply Forall_impl; [exact Hrefs|]. simpl. intros r Hr. lia.
Qed.

Lemma view_unchanged (h h' : Heap.heap) (st : Heap.state)
    (profiles : gmap string FileProfile.t) (activeProfileId : option string) :
  unchangedBelow (length h) h h' -> Heap.storeAllocated h st ->
  Heap.view h' st profiles activeProfileId = Heap.view h st profiles activeProfileId.
Proof.
  intros Hu Hst. unfold Heap.view.
  assert (H : forall r : option nat,
             (forall t, r = Some t -> Heap.allocated h t) ->
             Heap.snapshot h' <$> r = Heap.snapshot h <$> r).
  { intros [t|] Ht; [|reflexivity]. simpl. f_equal.
    apply snapshot_unchanged; [exact Hu|]. apply Ht. reflexivity. }
  rewrite (H (Heap.rawData st)) by (intros t Ht; apply Hst; auto).
  rewrite (H (Heap.processedData st)) by (intros t Ht; apply Hst; auto).
  rewrite (H (Heap.cleanedData st)) by (intros t Ht; apply Hst; auto).
  reflexivity.
Qed.

Ltac project_state :=
  cbn [Heap.rawData Heap.processedData Heap.cleanedData Heap.isLoading Heap.error
       rawData processedData cleanedData isLoading error profiles activeProfileId].

Lemma tryBlock_refines {engine : Engine} (settings : settingsMap)
    (callbacks : option Callbacks)
    (sourceData : nat) (st : Heap.state) (h : Heap.heap)
    (profiles : gmap string FileProfile.t) (activeProfileId : option string) :
  Heap.allocated h sourceData -> Heap.storeAllocated h st ->
  let '(st', h', calls, thrown) :=
    Heap.tryBlock settings callbacks sourceData st h in
  tryBlock settings callbacks (Heap.snapshot h sourceData)
    (Heap.view h st profiles activeProfileId)
  = (Heap.view h' st' profiles activeProfileId, calls, thrown).
Proof.
  intros Hsrc Hst. unfold Heap.tryBlock, tryBlock.
  destruct (deepCopy_refines h sourceData Hsrc) as [Hacur Hcopy].
  destruct (deepCopy_unchanged sourceData h) as [Hu1 Hfresh].
  destruct (Heap.deepCopy sourceData h) as [currentData h1]. simpl in *.
  rewrite <- Hcopy.
  pose proof (processColumns_refines settings callbacks
                (length (columnKeys settings)) (columnKeys settings) currentData
                0%nat h1 Hacur) as Hloop.
  pose proof (processColumns_unchanged (length h) settings callbacks
                (length (columnKeys settings)) (columnKeys settings) currentData
                Hfresh 0%nat h1 (proj1 Hu1)) as Hu2.
  destruct (Heap.processColumns settings callbacks _ _ 0 currentData h1)
    as [[result calls] h2]. simpl in Hu2.
  destruct Hloop as [_ Hloop]. rewrite Hloop.
  pose proof (unchangedBelow_trans _ _ _ _ Hu1 Hu2) as Hu.
  pose proof (view_unchanged h h2 st profiles activeProfileId Hu Hst) as Hview.
  unfold Heap.view in Hview. injection Hview as Hraw Hproc Hclean.
  destruct result as [u|message].
  - destruct (callOnProgress callbacks 100%float) as [calls1 [m|]].
    + unfold Heap.view. project_state. rewrite Hraw, Hproc. reflexivity.
    + destruct (callOnComplete callbacks) as [calls2 thrown].
      unfold Heap.view. project_state. rewrite Hraw, Hproc. reflexivity.
  - unfold Heap.view. project_state. rewrite Hraw, Hproc, Hclean. reflexivity.
Qed.

Lemma storeAllocated_unchanged (h h' : Heap.heap) (st : Heap.state) :
  unchangedBelow (length h) h h' -> Heap.storeAllocated h st ->
  Heap.storeAllocated h' st.
Proof.
  intros Hu Hst t Ht. apply (allocated_unchanged h h' t Hu). apply Hst. exact Ht.
Qed.

(** The call on the object model, read back, is the call on the value
    model: the same states, the same calls to the hooks, the same
    rejection. *)
Lemma processMissingValues_refines {engine : Engine} (settings : settingsMap)
    (callbacks : option Callbacks) (st : Heap.state) (h : Heap.heap)
    (profiles : gmap string FileProfile.t) (activeProfileId : option string) :
  Heap.storeAllocated h st ->
  let '(st', h', calls, thrown) :=
    Heap.processMissingValues settings callbacks st h in
  processMissingValues settings callbacks (Heap.view h st profiles activeProfileId)
  = (Heap.view h' st' profiles activeProfileId, calls, thrown).
Proof.
  intros Hst. unfold Heap.processMissingValues, processMissingValues.
  set (st1 := {| Heap.isLoading := true;
                 Heap.error := None;
                 Heap.rawData := Heap.rawData st;
                 Heap.processedData := Heap.processedData st;
                 Heap.cleanedData := Heap.cleanedData st |}).
  assert (Hst1 : forall h0, Heap.storeAllocated h0 st -> Heap.storeAllocated h0 st1).
  { intros h0 H0 t Ht. apply H0. exact Ht. }
  assert (Hor : orTable (cleanedData (Heap.view h st profiles activeProfileId))
                        (processedData (Heap.view h st profiles activeProfileId))
                = Heap.snapshot h <$> Heap.orRef (Heap.cleanedData st)
                                                 (Heap.processedData st)).
  { unfold Heap.view. project_state.
    destruct (Heap.cleanedData st); reflexivity. }
  rewrite Hor.
  assert (Hrun : forall data h0 source,
             Heap.allocated h0 data -> unchangedBelow (length h) h h0 ->
             source = Heap.snapshot h0 data ->
             let '(st', h', calls, thrown) :=
               Heap.tryBlock settings callbacks data st1 h0 in
             tryBlock settings callbacks source
               (Heap.view h st1 profiles activeProfileId)
             = (Heap.view h' st' profiles activeProfileId, calls, thrown)).
  { intros data h0 source Ha Hu ->.
    rewrite <- (view_unchanged h h0 st1 profiles activeProfileId Hu (Hst1 h Hst)).
    apply tryBlock_refines; [exact Ha|].
    apply Hst1. apply (storeAllocated_unchanged h h0 st Hu Hst). }
  destruct (Heap.orRef (Heap.cleanedData st) (Heap.processedData st)) as [data|] eqn:Hsel.
  - assert (Ha : Heap.allocated h data).
    { apply Hst. unfold Heap.orRef in Hsel.
      destruct (Heap.cleanedData st); [injection Hsel as ->; auto|auto]. }
    specialize (Hrun data h (Heap.snapshot h data) Ha (unchangedBelow_refl _ h) eq_refl).
    cbn [fmap option_fmap option_map].
    match goal with
    | |- context [tryBlock settings callbacks _ ?s] =>
        change s with (Heap.view h st1 profiles activeProfileId)
    end.
    destruct (Heap.tryBlock settings callbacks data st1 h) as [[[st2 h2] calls] thrown].
    rewrite Hrun. destruct thrown as [message|]; [|reflexivity].
    cbv zeta. destruct (callOnError callbacks _) as [calls' thrown']. reflexivity.
  - cbn [fmap option_fmap option_map].
    assert (Hraw : rawData (Heap.view h st profiles activeProfileId)
                   = Heap.snapshot h <$> Heap.rawData st) by reflexivity.
    rewrite Hraw.
    destruct (Heap.rawData st) as [raw|] eqn:Hr.
    + assert (Ha : Heap.allocated h raw) by (apply Hst; auto).
      pose proof Ha as (hl & rl & Ht & Hhl & Hrl & Hrefs).
      set (h0 := snd (Heap.alloc (Heap.Table (Heap.headersRef h raw) (Heap.rowsRef h raw)) h)).
      assert (Hu : unchangedBelow (length h) h h0)
        by (apply (alloc_unchanged (length h) _ h); lia).
      assert (Hh : Heap.headersRef h raw = hl)
        by (unfold Heap.headersRef; rewrite Ht; reflexivity).
      assert (Hrr : Heap.rowsRef h raw = rl)
        by (unfold Heap.rowsRef; rewrite Ht; reflexivity).
      assert (Ht0 : h0 !! length h = Some (Heap.Table hl rl)).
      { unfold h0. simpl. rewrite Hh, Hrr. apply list_lookup_middle. reflexivity. }
      assert (Ha0 : Heap.allocated h0 (length h)).
      { exists hl, rl. destruct Hu as [Hlen Hsame].
        split; [exact Ht0|]. split; [lia|]. split; [lia|].
        unfold Heap.rowRefs in *. rewrite (Hsame rl Hrl).
        eapply Forall_impl; [exact Hrefs|]. simpl. intros r Hlt. lia. }
      assert (Hsnap : Heap.snapshot h0 (length h) = Heap.snapshot h raw).
      { destruct Hu as [_ Hsame].
        unfold Heap.snapshot, Heap.headersRef, Heap.rowsRef, Heap.strings, Heap.rowRefs.
        rewrite Ht0, Ht, (Hsame hl Hhl), (Hsame rl Hrl).
        f_equal. apply map_ext_in. intros r Hin.
        unfold Heap.rowRefs in Hrefs. rewrite List.Forall_forall in Hrefs.
        unfold Heap.cells. rewrite (Hsame r (Hrefs r Hin)). reflexivity. }
      specialize (Hrun (length h) h0 (Heap.snapshot h raw) Ha0 Hu (eq_sym Hsnap)).
      cbn [fmap option_fmap option_map].
      match goal with
      | |- context [tryBlock settings callbacks _ ?s] =>
          change s with (Heap.view h st1 profiles activeProfileId)
      end.
      change (Heap.alloc (Heap.Table (Heap.headersRef h raw) (Heap.rowsRef h raw)) h)
        with (length h, h0).
      change {| headers := headers (Heap.snapshot h raw);
                rows := rows (Heap.snapshot h raw) |} with (Heap.snapshot h raw).
      cbv beta iota.
      destruct (Heap.tryBlock settings callbacks (length h) st1 h0)
        as [[[st2 h2] calls] thrown].
      rewrite Hrun. destruct thrown as [message|]; [|reflexivity].
      cbv zeta. destruct (callOnError callbacks _) as [calls' thrown']. reflexivity.
    + cbn [fmap option_fmap option_map].
      destruct (callOnError callbacks _) as [calls thrown]. reflexivity.
Qed.

(** * Further properties of the cleaning code *)

(** ** One column, twice *)

Lemma arraySet_again (row : list jsval) (i : nat) (v : jsval) :
  arraySet (arraySet row i v) i v = arraySet row i v.
Proof.
  unfold arraySet at 1.
  assert (Hlen : (i < length (arraySet row i v))%nat).
  { unfold arraySet. destruct (i <? length row)%nat eqn:Hlt.
    - apply Nat.ltb_lt in Hlt. rewrite length_insert. exact Hlt.
    - apply Nat.ltb_ge in Hlt.
      rewrite !length_app, length_replicate. simpl. lia. }
  apply Nat.ltb_lt in Hlen. rewrite Hlen.
  apply list_insert_id.
  pose proof (cellAt_arraySet_eq row i v) as Hcell.
  unfold cellAt in Hcell.
  destruct (arraySet row i v !! i) as [w|] eqn:Hw.
  - congruence.
  - apply lookup_ge_None_1 in Hw. apply Nat.ltb_lt in Hlen. lia.
Qed.

(** Filling a filled column again changes nothing, provided the second
    value is the first whenever the first is itself a missing cell. *)
Lemma fillRows_again (rs : list (list jsval)) (colIndex : nat) (v v' : jsval) :
  (isCellMissing v = true -> v' = v) ->
  fillRows (fillRows rs colIndex v) colIndex v' = fillRows rs colIndex v.
Proof.
  intros Hv. unfold fillRows. rewrite List.map_map. apply List.map_ext.
  intros row.
  destruct (isCellMissing (cellAt row colIndex)) eqn:Hm.
  - rewrite cellAt_arraySet_eq.
    destruct (isCellMissing v) eqn:Hmv; [|reflexivity].
    rewrite (Hv eq_refl). apply arraySet_again.
  - rewrite Hm. reflexivity.
Qed.

Lemma nonMissingValues_fillRows (rs : list (list jsval)) (colIndex : nat) (v : jsval) :
  isCellMissing v = true ->
  nonMissingValues (fillRows rs colIndex v) colIndex = nonMissingValues rs colIndex.
Proof.
  intros Hv. unfold nonMissingValues, fillRows.
  induction rs as [|row rs IH]; [reflexivity|].
  cbn [map List.filter]. rewrite IH.
  destruct (isCellMissing (cellAt row colIndex)) eqn:Hm.
  - rewrite cellAt_arraySet_eq, Hv. reflexivity.
  - rewrite Hm. reflexivity.
Qed.

Lemma replacementValue_fillRows {engine : Engine} (rs : list (list jsval)) (colIndex : nat)
    (v given : jsval) :
  isCellMissing v = true ->
  replacementValue (fillRows rs colIndex v) colIndex given
  = replacementValue rs colIndex given.
Proof.
  intros Hv. unfold replacementValue, numericValues.
  rewrite (nonMissingValues_fillRows rs colIndex v Hv). reflexivity.
Qed.

Lemma dropRows_again (rs : list (list jsval)) (colIndex : nat) :
  dropRows (dropRows rs colIndex) colIndex = dropRows rs colIndex.
Proof.
  unfold dropRows. induction rs as [|row rs IH]; [reflexivity|].
  cbn [List.filter].
  destruct (negb (isCellMissing (cellAt row colIndex))) eqn:Hm.
  - cbn [List.filter]. rewrite Hm, IH. reflexivity.
  - exact IH.
Qed.

Lemma replacementValue_returns {engine : Engine} (rs : list (list jsval))
    (colIndex : nat) (given : jsval) :
  (N.of_nat (length rs) <= argumentLimit)%N ->
  exists v, replacementValue rs colIndex given = Returns v.
Proof.
  intros Hlen. unfold replacementValue.
  destruct (String.eqb _ "mode" || _); [eexists; reflexivity|].
  destruct (calculateStatistic_returns (numericValues rs colIndex)
              (ToString (orElse given (VString "mode")))) as [x Hx].
  { pose proof (numericValues_length rs colIndex). lia. }
  rewrite Hx. eexists. reflexivity.
Qed.

(** X1. Applying a column setting to the table it has produced gives that
    table again: one step of the loop of [processMissingValues] is
    idempotent, for every column, strategy and value, on a table with no
    more rows than a call takes arguments (on a longer one the second
    [fill-method] step may throw where the first did not, the filled cells
    being numbers that the statistic now receives). *)
Theorem processColumn_idempotent {engine : Engine} (currentData : table)
    (column : string) (columnSetting : option ColumnSetting) (result : table) :
  (N.of_nat (length (rows currentData)) <= argumentLimit)%N ->
  processColumn currentData column columnSetting = Returns result ->
  processColumn result column columnSetting = Returns result.
Proof.
  destruct currentData as [hs rs]. unfold processColumn. cbn [headers rows].
  intros Hlimit.
  destruct (indexOf hs column) as [colIndex|] eqn:Hidx.
  2:{ intros H. injection H as <-. cbn [headers]. rewrite Hidx. reflexivity. }
  destruct columnSetting as [setting|]; [|discriminate].
  destruct (String.eqb (strategy setting) "drop") eqn:Hdrop.
  { destruct (PrimFloat.leb (missingPercentage rs colIndex) (dropThreshold (value setting)))
      eqn:Hle.
    - intros H. injection H as <-. cbn [headers rows]. rewrite Hidx.
      rewrite dropRows_again.
      match goal with |- (if ?c then _ else _) = _ => destruct c end; reflexivity.
    - intros H. injection H as <-. cbn [headers rows]. rewrite Hidx, Hle.
      reflexivity. }
  destruct (String.eqb (strategy setting) "fill-value") eqn:Hfv.
  { intros H. injection H as <-. cbn [headers rows]. rewrite Hidx.
    rewrite fillRows_again by reflexivity. reflexivity. }
  destruct (String.eqb (strategy setting) "fill-method") eqn:Hfm.
  { destruct (replacementValue rs colIndex (value setting)) as [v|message] eqn:Hv;
      [|discriminate].
    intros H. injection H as <-. cbn [headers rows]. rewrite Hidx.
    destruct (replacementValue_returns (fillRows rs colIndex v) colIndex (value setting))
      as [v' Hv']; [rewrite fillRows_length; exact Hlimit|].
    rewrite Hv'. rewrite fillRows_again; [reflexivity|].
    intros Hmiss. rewrite (replacementValue_fillRows rs colIndex v _ Hmiss) in Hv'.
    congruence. }
  intros H. injection H as <-. cbn [headers rows]. rewrite Hidx.
  reflexivity.
Qed.

Lemma processColumn_idempotent_witness :
  processColumn (engine := sampleEngine) scenarioTable "y"
    (Some {| strategy := "fill-method"; value := VString "mean" |})
  = Returns {| headers := ["x"; "y"];
               rows := [[VNumber 1; VNumber 3]; [VNumber 2; VString "3"];
                        [VString ""; VNumber 3]] |}
  /\ processColumn (engine := sampleEngine)
       {| headers := ["x"; "y"];
          rows := [[VNumber 1; VNumber 3]; [VNumber 2; VString "3"];
                   [VString ""; VNumber 3]] |} "y"
       (Some {| strategy := "fill-method"; value := VString "mean" |})
     = Returns {| headers := ["x"; "y"];
               rows := [[VNumber 1; VNumber 3]; [VNumber 2; VString "3"];
                        [VString ""; VNumber 3]] |}.
Proof.
  assert (H : processColumn (engine := sampleEngine) scenarioTable "y"
            (Some {| strategy := "fill-method"; value := VString "mean" |})
          = Returns {| headers := ["x"; "y"];
               rows := [[VNumber 1; VNumber 3]; [VNumber 2; VString "3"];
                        [VString ""; VNumber 3]] |}) by (vm_compute; reflexivity).
  split; [exact H|].
  refine (processColumn_idempotent (engine := sampleEngine) _ _ _ _ _ H).
  vm_compute. intros Hc. discriminate Hc.
Defined.

(** ** What filling leaves behind *)

Lemma missingCount_fillRows (rs : list (list jsval)) (colIndex : nat) (v : jsval) :
  missingCount (fillRows rs colIndex v) colIndex
  = if isCellMissing v then missingCount rs colIndex else 0%nat.
Proof.
  unfold missingCount, fillRows.
  induction rs as [|row rs IH].
  - destruct (isCellMissing v); reflexivity.
  - cbn [map List.filter].
    destruct (isCellMissing (cellAt row colIndex)) eqn:Hm.
    + rewrite cellAt_arraySet_eq.
      destruct (isCellMissing v) eqn:Hv; cbn [length]; rewrite IH; reflexivity.
    + rewrite Hm. exact IH.
Qed.

(** X2. Both fill strategies keep the number of rows, and leave no missing
    cell in the column unless the value written is itself a missing cell
    (a sentinel such as [N/A], or the empty string), in which case the
    column has as many missing cells as before.  The value written is the
    one of [fillValueOf] for [fill-value], and the one the statistic returns
    for [fill-method]. *)
Theorem fill_missing_count {engine : Engine} (currentData : table) (column : string)
    (setting : ColumnSetting) (colIndex : nat) (written : jsval) :
  indexOf (headers currentData) column = Some colIndex ->
  (strategy setting = "fill-value" /\ written = fillValueOf (value setting))
  \/ (strategy setting = "fill-method"
      /\ replacementValue (rows currentData) colIndex (value setting) = Returns written) ->
  exists result,
    processColumn currentData column (Some setting) = Returns result
    /\ length (rows result) = length (rows currentData)
    /\ missingCount (rows result) colIndex
       = if isCellMissing written then missingCount (rows currentData) colIndex
         else 0%nat.
Proof.
  intros Hidx Hstrat. unfold processColumn. rewrite Hidx.
  destruct Hstrat as [[Hs ->]|[Hs Hw]]; rewrite Hs; simpl String.eqb; cbv iota.
  - eexists. split; [reflexivity|]. cbn [rows].
    split; [apply fillRows_length|apply missingCount_fillRows].
  - rewrite Hw. eexists. split; [reflexivity|]. cbn [rows].
    split; [apply fillRows_length|apply missingCount_fillRows].
Qed.

Lemma fill_missing_count_witness :
  exists result,
    processColumn (engine := sampleEngine) scenarioTable "x"
      (Some {| strategy := "fill-value"; value := VString "7" |})
    = Returns result
    /\ length (rows result) = 3%nat
    /\ missingCount (rows result) 0 = 0%nat.
Proof.
  exact (fill_missing_count (engine := sampleEngine) scenarioTable "x"
           {| strategy := "fill-value"; value := VString "7" |} 0 (VNumber 7)
           eq_refl (or_introl (conj eq_refl eq_refl))).
Defined.

Lemma missingCount_all (rs : list (list jsval)) (colIndex : nat) :
  missingCount rs colIndex = length rs ->
  List.Forall (fun row => isCellMissing (cellAt row colIndex) = true) rs.
Proof.
  unfold missingCount. induction rs as [|row rs IH]; intros H; [constructor|].
  cbn [List.filter length] in H.
  destruct (isCellMissing (cellAt row colIndex)) eqn:Hm.
  - cbn [length] in H. constructor; [exact Hm|]. apply IH. lia.
  - pose proof (List.filter_length_le
                  (fun row => isCellMissing (cellAt row colIndex)) rs) as Hle.
    lia.
Qed.

(** X3. [fill-method] on a column in which every cell is missing has no
    value to compute from: whatever the method, it writes the empty string
    into every cell of the column, so the column stays missing. *)
Theorem fill_method_without_values {engine : Engine} (currentData : table) (column : string)
    (setting : ColumnSetting) (colIndex : nat) :
  indexOf (headers currentData) column = Some colIndex ->
  strategy setting = "fill-method" ->
  missingCount (rows currentData) colIndex = length (rows currentData) ->
  processColumn currentData column (Some setting)
  = Returns {| headers := headers currentData;
               rows := map (fun row => arraySet row colIndex (VString ""))
                           (rows currentData) |}.
Proof.
  intros Hidx Hs Hall. unfold processColumn. rewrite Hidx, Hs.
  simpl String.eqb.
  apply missingCount_all in Hall.
  assert (Hnone : nonMissingValues (rows currentData) colIndex = []).
  { unfold nonMissingValues. induction Hall as [|row rs Hm _ IH]; [reflexivity|].
    cbn [map List.filter]. rewrite Hm. exact IH. }
  assert (Hrep : replacementValue (rows currentData) colIndex (value setting)
                 = Returns (VString "")).
  { unfold replacementValue, numericValues. rewrite Hnone.
    cbn [map List.filter length Nat.eqb]. rewrite orb_true_r. reflexivity. }
  rewrite Hrep. f_equal. f_equal. unfold fillRows.
  clear Hnone Hrep.
  induction Hall as [|row rs Hm _ IH]; [reflexivity|].
  cbn [map]. rewrite Hm, IH. reflexivity.
Qed.

Lemma fill_method_without_values_witness :
  processColumn (engine := sampleEngine)
    {| headers := ["x"]; rows := [[VString "NA"]; []] |} "x"
    (Some {| strategy := "fill-method"; value := VString "mean" |})
  = Returns {| headers := ["x"]; rows := [[VString ""]; [VString ""]] |}.
Proof.
  exact (fill_method_without_values (engine := sampleEngine)
           {| headers := ["x"]; rows := [[VString "NA"]; []] |} "x"
           {| strategy := "fill-method"; value := VString "mean" |} 0
           eq_refl eq_refl eq_refl).
Defined.

(** ** The deep copy *)

Lemma cellAt_map_jsonCell (row : list jsval) (j : nat) :
  isCellMissing (cellAt (map jsonCell row) j)
  = isCellMissing (cellAt row j) || nonFinite (cellAt row j).
Proof.
  unfold cellAt. rewrite list_lookup_fmap.
  destruct (row !! j) as [cell|]; [|reflexivity].
  cbn [fmap option_fmap option_map].
  destruct cell as [| |b|x|s]; cbn [jsonCell isCellMissing nonFinite];
    try reflexivity.
  - destruct (isNaN x || PrimFloat.is_infinity x); reflexivity.
  - rewrite orb_false_r. reflexivity.
Qed.

(** X4. The JSON round trip that copies the source table keeps the headers
    and the shape of the rows, and can only add missing cells: a cell of the
    copy is missing exactly when the cell it copies is missing or is a
    number that JSON cannot write ([NaN] or an infinity, which it writes as
    [null]). *)
Theorem deepCopy_missing_cells (sourceData : table) :
  headers (deepCopy sourceData) = headers sourceData
  /\ length (rows (deepCopy sourceData)) = length (rows sourceData)
  /\ forall i row,
       rows sourceData !! i = Some row ->
       exists row',
         rows (deepCopy sourceData) !! i = Some row'
         /\ length row' = length row
         /\ forall j,
              isCellMissing (cellAt row' j)
              = isCellMissing (cellAt row j) || nonFinite (cellAt row j).
Proof.
  unfold deepCopy. cbn [headers rows].
  split; [reflexivity|]. split; [apply length_map|].
  intros i row Hrow. exists (map jsonCell row).
  split; [|split].
  - change (map (map jsonCell) (rows sourceData)) with (map jsonCell <$> rows sourceData).
    rewrite list_lookup_fmap, Hrow. reflexivity.
  - apply length_map.
  - intros j. apply cellAt_map_jsonCell.
Qed.

(** ** A run that goes through *)

Lemma processColumn_shape {engine : Engine} (currentData : table) (column : string)
    (columnSetting : option ColumnSetting) (result : table) :
  processColumn currentData column columnSetting = Returns result ->
  headers result = headers currentData
  /\ (length (rows result) <= length (rows currentData))%nat.
Proof.
  unfold processColumn.
  destruct (indexOf (headers currentData) column) as [colIndex|].
  2:{ intros H. injection H as <-. split; [reflexivity|lia]. }
  destruct columnSetting as [setting|]; [|discriminate].
  destruct (String.eqb (strategy setting) "drop").
  { destruct (PrimFloat.leb (missingPercentage (rows currentData) colIndex)
                (dropThreshold (value setting))) eqn:Hle; rewrite ?Hle.
    all: intros H; injection H as <-; cbn [headers rows].
    all: split; [reflexivity|].
    - unfold dropRows. apply List.filter_length_le.
    - lia. }
  destruct (String.eqb (strategy setting) "fill-value").
  { intros H. injection H as <-. cbn [headers rows].
    rewrite fillRows_length. split; [reflexivity|lia]. }
  destruct (String.eqb (strategy setting) "fill-method").
  { destruct (replacementValue (rows currentData) colIndex (value setting))
      as [v|message]; [|discriminate].
    intros H. injection H as <-. cbn [headers rows].
    rewrite fillRows_length. split; [reflexivity|lia]. }
  intros H. injection H as <-. split; [reflexivity|lia].
Qed.

Lemma processColumns_returns {engine : Engine} (settings : settingsMap)
    (callbacks : option Callbacks)
    (totalSteps : nat) (keys : list string) :
  forall currentStep currentData result calls,
    processColumns settings callbacks totalSteps keys currentStep currentData
    = (Returns result, calls) ->
    headers result = headers currentData
    /\ (length (rows result) <= length (rows currentData))%nat
    /\ calls
       = flat_map (fun step => fst (callOnProgress callbacks (progressAt totalSteps step)))
                  (seq (S currentStep) (length keys)).
Proof.
  induction keys as [|column keys IH]; intros step t result calls H.
  - cbn in H. injection H as <- <-. split; [reflexivity|]. split; [lia|reflexivity].
  - cbn [processColumns] in H. cbn [length seq flat_map].
    fold (progressAt totalSteps (S step)) in H.
    destruct (callOnProgress callbacks (progressAt totalSteps (S step)))
      as [calls0 [message|]]; [discriminate|].
    destruct (processColumn t column (settingOf settings column)) as [t1|message] eqn:Hstep;
      [|discriminate].
    destruct (processColumns settings callbacks totalSteps keys (S step) t1)
      as [result' calls'] eqn:Hrest.
    injection H as -> <-.
    destruct (IH _ _ _ _ Hrest) as (Hh & Hl & Hc).
    destruct (processColumn_shape _ _ _ _ Hstep) as (Hh1 & Hl1).
    split; [congruence|]. split; [lia|].
    cbn [fst]. rewrite Hc. reflexivity.
Qed.

(** What is known of a call of [processMissingValues] that ends with no
    error recorded. *)
Lemma success_inversion {engine : Engine} (settings : settingsMap)
    (callbacks : option Callbacks)
    (state state' : UnifiedDataState) (calls : list event) (thrown : behaviour) :
  processMissingValues settings callbacks state = (state', calls, thrown) ->
  error state' = None ->
  exists source cleaned calls0,
    sourceOf state = Some source
    /\ processColumns settings callbacks (length (columnKeys settings))
         (columnKeys settings) 0 (deepCopy source) = (Returns cleaned, calls0)
    /\ cleanedData state' = Some cleaned
    /\ isLoading state' = false
    /\ thrown = None
    /\ calls = (calls0 ++ fst (callOnProgress callbacks 100%float)
                ++ fst (callOnComplete callbacks))%list
    /\ profiles state' = profiles state
    /\ activeProfileId state' = activeProfileId state
    /\ rawData state' = rawData state
    /\ processedData state' = processedData state.
Proof.
  unfold processMissingValues, sourceOf.
  set (chosen := match orTable (cleanedData state) (processedData state) with
                 | Some data => Some data
                 | None => match rawData state with
                           | Some raw => Some {| headers := headers raw; rows := rows raw |}
                           | None => None
                           end
                 end).
  assert (Hchosen : chosen = match orTable (cleanedData state) (processedData state) with
                             | Some data => Some data
                             | None => rawData state
                             end).
  { subst chosen. destruct (orTable _ _); [reflexivity|].
    destruct (rawData state) as [[hs rs]|]; reflexivity. }
  rewrite <- Hchosen. clearbody chosen. clear Hchosen.
  destruct chosen as [source|].
  2:{ destruct (callOnError callbacks _) as [c t]. intros H. injection H as <- _ _.
      cbn [error]. discriminate. }
  unfold tryBlock.
  destruct (processColumns settings callbacks (length (columnKeys settings))
              (columnKeys settings) 0 (deepCopy source)) as [[cleaned|message] calls0]
    eqn:Hloop.
  2:{ destruct (callOnError callbacks _) as [c t]. intros H. injection H as <- _ _.
      cbn [error]. discriminate. }
  destruct (callOnProgress callbacks 100%float) as [calls1 [message|]].
  { destruct (callOnError callbacks _) as [c t]. intros H. injection H as <- _ _.
    cbn [error]. discriminate. }
  destruct (callOnComplete callbacks) as [calls2 [message|]].
  { destruct (callOnError callbacks _) as [c t]. intros H. injection H as <- _ _.
    cbn [error]. discriminate. }
  intros H _. injection H as <- <- <-.
  exists source, cleaned, calls0. cbn.
  repeat split; try reflexivity. exact Hloop.
Qed.

(** X5. When [processMissingValues] ends with no error recorded, the store
    holds a cleaned table with the headers of the table it read
    ([cleanedData], else [processedData], else [rawData]) and at most as
    many rows; loading is over and the returned promise is fulfilled.  No
    strategy adds a row or touches the headers. *)
Theorem success_keeps_headers {engine : Engine} (settings : settingsMap)
    (callbacks : option Callbacks)
    (state state' : UnifiedDataState) (calls : list event) (thrown : behaviour) :
  processMissingValues settings callbacks state = (state', calls, thrown) ->
  error state' = None ->
  exists source cleaned,
    sourceOf state = Some source
    /\ cleanedData state' = Some cleaned
    /\ headers cleaned = headers source
    /\ (length (rows cleaned) <= length (rows source))%nat
    /\ isLoading state' = false
    /\ thrown = None.
Proof.
  intros Hrun Herr.
  destruct (success_inversion _ _ _ _ _ _ Hrun Herr)
    as (source & cleaned & calls0 & Hsrc & Hloop & Hc & Hl & Ht & _).
  exists source, cleaned.
  destruct (processColumns_returns _ _ _ _ _ _ _ _ Hloop) as (Hh & Hlen & _).
  unfold deepCopy in Hh, Hlen. cbn [headers rows] in Hh, Hlen.
  rewrite length_map in Hlen.
  repeat split; assumption.
Qed.

Lemma success_keeps_headers_witness :
  exists source cleaned,
    sourceOf (storeOfRaw scenarioTable) = Some source
    /\ cleanedData (fst (fst (processMissingValues (engine := sampleEngine)
                                [("y", Some {| strategy := "drop"; value := VUndefined |})]
                                None (storeOfRaw scenarioTable)))) = Some cleaned
    /\ headers cleaned = headers source
    /\ (length (rows cleaned) <= length (rows source))%nat
    /\ false = false
    /\ @None string = None.
Proof.
  exact (success_keeps_headers (engine := sampleEngine)
           [("y", Some {| strategy := "drop"; value := VUndefined |})]
           None (storeOfRaw scenarioTable) _ _ _ eq_refl eq_refl).
Defined.

(** X6. In a call of [processMissingValues] that ends with no error recorded
    the hooks receive, in this order: one progress report for every key of
    the settings, found among the headers or not, the [k]-th being
    [Math.round(k / n * 100)]; one more report of 100; and the completion.
    A hook that is not provided receives nothing. *)
Theorem success_calls {engine : Engine} (settings : settingsMap)
    (callbacks : option Callbacks)
    (state state' : UnifiedDataState) (calls : list event) (thrown : behaviour) :
  processMissingValues settings callbacks state = (state', calls, thrown) ->
  error state' = None ->
  calls = successCalls callbacks (length settings).
Proof.
  intros Hrun Herr.
  destruct (success_inversion _ _ _ _ _ _ Hrun Herr)
    as (source & cleaned & calls0 & _ & Hloop & _ & _ & _ & Hcalls & _).
  destruct (processColumns_returns _ _ _ _ _ _ _ _ Hloop) as (_ & _ & Hc).
  unfold columnKeys in Hc. rewrite length_map in Hc.
  unfold successCalls. rewrite Hcalls, Hc. reflexivity.
Qed.

Lemma success_calls_witness :
  snd (fst (processMissingValues (engine := sampleEngine)
              [("y", Some {| strategy := "drop"; value := VUndefined |});
               ("z", None)]
              (Some {| onProgress := Some (fun _ => None);
                       onComplete := Some None;
                       onError := None |})
              (storeOfRaw scenarioTable)))
  = [ProgressCall 50; ProgressCall 100; ProgressCall 100; CompleteCall].
Proof.
  exact (success_calls (engine := sampleEngine)
           [("y", Some {| strategy := "drop"; value := VUndefined |}); ("z", None)]
           (Some {| onProgress := Some (fun _ => None);
                    onComplete := Some None;
                    onError := None |})
           (storeOfRaw scenarioTable) _ _ _ eq_refl eq_refl).
Defined.

(** ** Removing rows: counts and compositions *)




(** The store after a removal from the active profile's table. *)
Lemma removeDuplicates_active (indices : list Z) (state : UnifiedDataState)
    (id : string) (currentProfile : FileProfile.t) (data : table) :
  activeProfileId state = Some id -> id <> "" ->
  profiles state !! id = Some currentProfile ->
  orTable (FileProfile.cleanedData currentProfile)
          (FileProfile.processedData currentProfile) = Some data ->
  removeDuplicates indices state
  = {| profiles :=
         <[id := {| FileProfile.rawData := FileProfile.rawData currentProfile;
                    FileProfile.processedData := FileProfile.processedData currentProfile;
                    FileProfile.cleanedData :=
                      Some {| headers := headers data;
                              rows := filterRows indices 0 (rows data) |} |}]>
           (profiles state);
       activeProfileId := Some id;
       isLoading := isLoading state;
       error := error state;
       rawData := rawData state;
       processedData := processedData state;
       cleanedData := Some {| headers := headers data;
                              rows := filterRows indices 0 (rows data) |} |}.
Proof.
  intros Hid Hne Hprof Hdata. apply StringFacts.eqb_neq in Hne.
  unfold removeDuplicates. rewrite Hid, Hne, Hprof, Hdata. reflexivity.
Qed.



(** X8. Two removals in a row: the indices of the second are positions in
    the table the first has left, not in the original one.  The second call
    reads the table the first stored in the profile. *)
Theorem removal_twice (first second : list Z) (state : UnifiedDataState)
    (id : string) (currentProfile : FileProfile.t) (data : table) :
  activeProfileId state = Some id -> id <> "" ->
  profiles state !! id = Some currentProfile ->
  orTable (FileProfile.cleanedData currentProfile)
          (FileProfile.processedData currentProfile) = Some data ->
  let result :=
    {| headers := headers data;
       rows := rowsOutside second (rowsOutside first (rows data)) |} in
  let state' := removeOutliers second (removeDuplicates first state) in
  cleanedData state' = Some result
  /\ FileProfile.cleanedData <$> profiles state' !! id = Some (Some result).
Proof.
  intros Hid Hne Hprof Hdata result state'. subst result state'.
  change removeOutliers with removeDuplicates.
  rewrite (removeDuplicates_active first state id currentProfile data Hid Hne Hprof Hdata).
  erewrite removeDuplicates_active; [| reflexivity | exact Hne | apply lookup_insert_eq
                                     | reflexivity ].
  cbn [cleanedData profiles headers rows].
  rewrite lookup_insert_eq, !filterRows_rowsOutside. split; reflexivity.
Qed.

Lemma removal_twice_witness :
  cleanedData (removeOutliers [0] (removeDuplicates [0] (storeWith "f" scenarioTable)))
  = Some {| headers := ["x"; "y"]; rows := [[VString ""; VString ""]] |}.
Proof.
  refine (proj1 (removal_twice [0] [0] (storeWith "f" scenarioTable) "f"
           {| FileProfile.rawData := None; FileProfile.processedData := None;
              FileProfile.cleanedData := Some scenarioTable |} scenarioTable
           eq_refl _ _ eq_refl)).
  - intros H. discriminate H.
  - vm_compute. reflexivity.
Defined.

(** [processMissingValues] writes [isLoading], [error] and [cleanedData] and
    nothing else, however it ends. *)
Lemma processMissingValues_frame {engine : Engine} (settings : settingsMap)
    (callbacks : option Callbacks)
    (state : UnifiedDataState) :
  let state' := fst (fst (processMissingValues settings callbacks state)) in
  profiles state' = profiles state
  /\ activeProfileId state' = activeProfileId state
  /\ rawData state' = rawData state
  /\ processedData state' = processedData state.
Proof.
  unfold processMissingValues.
  destruct (match orTable (cleanedData state) (processedData state) with
            | Some data => Some data
            | None => match rawData state with
                      | Some raw => Some {| headers := headers raw; rows := rows raw |}
                      | None => None
                      end
            end) as [source|].
  2:{ destruct (callOnError callbacks _) as [c t]. cbn. repeat split; reflexivity. }
  unfold tryBlock.
  destruct (processColumns settings callbacks (length (columnKeys settings))
              (columnKeys settings) 0 (deepCopy source)) as [[cleaned|message] calls0].
  2:{ destruct (callOnError callbacks _) as [c t]. cbn. repeat split; reflexivity. }
  destruct (callOnProgress callbacks 100%float) as [calls1 [message|]].
  { destruct (callOnError callbacks _) as [c t]. cbn. repeat split; reflexivity. }
  destruct (callOnComplete callbacks) as [calls2 [message|]].
  { destruct (callOnError callbacks _) as [c t]. cbn. repeat split; reflexivity. }
  cbn. repeat split; reflexivity.
Qed.

(** X9. [processMissingValues] stores its result in the derived
    [cleanedData] only, and the row editors read the active profile: a
    removal made after a run of [processMissingValues] filters the profile's
    table as it was before the run and overwrites the derived [cleanedData]
    with it, whatever the settings were and however the run ended. *)
Theorem removal_discards_cleaning {engine : Engine} (settings : settingsMap)
    (callbacks : option Callbacks) (indices : list Z) (state : UnifiedDataState)
    (id : string) (currentProfile : FileProfile.t) (data : table) :
  activeProfileId state = Some id -> id <> "" ->
  profiles state !! id = Some currentProfile ->
  orTable (FileProfile.cleanedData currentProfile)
          (FileProfile.processedData currentProfile) = Some data ->
  let processed := fst (fst (processMissingValues settings callbacks state)) in
  let result := {| headers := headers data; rows := rowsOutside indices (rows data) |} in
  cleanedData (removeDuplicates indices processed) = Some result
  /\ profiles (removeDuplicates indices processed)
     = profiles (removeDuplicates indices state)
  /\ FileProfile.cleanedData <$> profiles processed !! id
     = Some (FileProfile.cleanedData currentProfile).
Proof.
  intros Hid Hne Hprof Hdata processed result. subst result.
  destruct (processMissingValues_frame settings callbacks state) as (Hp & Ha & _ & _).
  fold processed in Hp, Ha.
  rewrite (removeDuplicates_active indices processed id currentProfile data);
    [| congruence | exact Hne | congruence | exact Hdata].
  rewrite (removeDuplicates_active indices state id currentProfile data Hid Hne Hprof Hdata).
  cbn [cleanedData profiles]. rewrite Hp, Hprof, filterRows_rowsOutside.
  repeat split; reflexivity.
Qed.

Lemma removal_discards_cleaning_witness :
  cleanedData
    (removeDuplicates [0]
       (fst (fst (processMissingValues (engine := sampleEngine)
                    [("y", Some {| strategy := "fill-value"; value := VString "9" |})]
                    None (storeWith "f" scenarioTable)))))
  = Some {| headers := ["x"; "y"];
            rows := [[VNumber 2; VString "3"]; [VString ""; VString ""]] |}.
Proof.
  refine (proj1 (removal_discards_cleaning (engine := sampleEngine)
           [("y", Some {| strategy := "fill-value"; value := VString "9" |})]
           None [0] (storeWith "f" scenarioTable) "f"
           {| FileProfile.rawData := None; FileProfile.processedData := None;
              FileProfile.cleanedData := Some scenarioTable |} scenarioTable
           eq_refl _ _ eq_refl)).
  - intros H. discriminate H.
  - vm_compute. reflexivity.
Defined.

(** ** cleanData *)

Lemma table_eta (t : table) : {| headers := headers t; rows := rows t |} = t.
Proof. destruct t. reflexivity. Qed.

(** A row editor leaves the error and the raw and processed tables of the
    derived state alone. *)
Lemma removeDuplicates_frame (indices : list Z) (state : UnifiedDataState) :
  let state' := removeDuplicates indices state in
  activeProfileId state' = activeProfileId state
  /\ isLoading state' = isLoading state
  /\ error state' = error state
  /\ rawData state' = rawData state
  /\ processedData state' = processedData state.
Proof.
  unfold removeDuplicates.
  destruct (activeProfileId state) as [id|] eqn:Hid; cbv zeta;
    [|rewrite ?Hid; repeat split; reflexivity].
  destruct (String.eqb id ""); [rewrite ?Hid; repeat split; reflexivity|].
  destruct (profiles state !! id) as [p|]; [|rewrite ?Hid; repeat split; reflexivity].
  destruct (orTable _ _); cbn; rewrite ?Hid; repeat split; reflexivity.
Qed.

(** X10. Every [cleanData] operation that is known ends with the derived
    [cleanedData] set to the table the call started from (the cleaned table,
    or else the processed one), rows and all: the operation works on a copy
    taken before the row editor runs, and stores that copy last.  Loading is
    over; the error and the raw and processed tables are as before. *)
Theorem cleanData_keeps_table (operationType : string) (indices : option (list Z))
    (state : UnifiedDataState) (dataToClean : table) :
  orTable (cleanedData state) (processedData state) = Some dataToClean ->
  In operationType ["missing"; "outliers"; "duplicates"] ->
  let state' := cleanData operationType indices state in
  cleanedData state' = Some dataToClean
  /\ isLoading state' = false
  /\ error state' = error state
  /\ rawData state' = rawData state
  /\ processedData state' = processedData state.
Proof.
  intros Hdata Hop state'. subst state'. unfold cleanData. rewrite Hdata, table_eta.
  set (state1 := {| profiles := profiles state;
                    activeProfileId := activeProfileId state;
                    isLoading := true;
                    error := error state;
                    rawData := rawData state;
                    processedData := processedData state;
                    cleanedData := cleanedData state |}).
  pose proof (fun given => removeDuplicates_frame given state1) as Hframe.
  destruct Hop as [<-|[<-|[<-|[]]]]; simpl String.eqb.
  - repeat split; reflexivity.
  - destruct indices as [given|]; [|repeat split; reflexivity].
    change removeOutliers with removeDuplicates.
    destruct (Hframe given) as (_ & _ & He & Hr & Hp).
    cbn [cleanedData isLoading error rawData processedData].
    rewrite He, Hr, Hp. repeat split; reflexivity.
  - destruct indices as [given|]; [|repeat split; reflexivity].
    destruct (Hframe given) as (_ & _ & He & Hr & Hp).
    cbn [cleanedData isLoading error rawData processedData].
    rewrite He, Hr, Hp. repeat split; reflexivity.
Qed.

Lemma cleanData_keeps_table_witness :
  cleanedData (cleanData "duplicates" (Some [0; 1; 2]) (storeWith "f" scenarioTable))
  = Some scenarioTable.
Proof.
  exact (proj1 (cleanData_keeps_table "duplicates" (Some [0; 1; 2])
                  (storeWith "f" scenarioTable) scenarioTable
                  eq_refl (or_intror (or_intror (or_introl eq_refl))))).
Defined.





(** * The whole store *)

(** ** The map of profiles *)

Lemma mapGet_mapSet_eq {V : Type} (m : list (string * V)) (key : string) (v : V) :
  Store.mapGet (Store.mapSet m key v) key = Some v.
Proof.
  induction m as [|[k x] m IH]; cbn [Store.mapSet Store.mapGet].
  - rewrite StringFacts.eqb_refl. reflexivity.
  - destruct (String.eqb k key) eqn:E; cbn [Store.mapGet]; rewrite E; [reflexivity|exact IH].
Qed.

Lemma mapGet_mapSet_ne {V : Type} (m : list (string * V)) (key key' : string) (v : V) :
  key <> key' ->
  Store.mapGet (Store.mapSet m key v) key' = Store.mapGet m key'.
Proof.
  intros Hne. induction m as [|[k x] m IH]; cbn [Store.mapSet Store.mapGet].
  - apply StringFacts.eqb_neq in Hne. rewrite Hne. reflexivity.
  - destruct (String.eqb k key) eqn:E; cbn [Store.mapGet].
    + apply StringFacts.eqb_eq in E. subst k.
      apply StringFacts.eqb_neq in Hne. rewrite Hne. reflexivity.
    + rewrite IH. reflexivity.
Qed.

Lemma mapGet_mapDelete_eq {V : Type} (m : list (string * V)) (key : string) :
  Store.mapGet (Store.mapDelete m key) key = None.
Proof.
  unfold Store.mapDelete.
  induction m as [|[k x] m IH]; [reflexivity|].
  cbn [List.filter fst].
  destruct (String.eqb k key) eqn:E; cbn [negb]; [exact IH|].
  cbn [Store.mapGet]. rewrite E. exact IH.
Qed.

Lemma mapGet_mapDelete_ne {V : Type} (m : list (string * V)) (key key' : string) :
  key <> key' ->
  Store.mapGet (Store.mapDelete m key) key' = Store.mapGet m key'.
Proof.
  intros Hne. unfold Store.mapDelete.
  induction m as [|[k x] m IH]; [reflexivity|].
  cbn [List.filter fst Store.mapGet].
  destruct (String.eqb k key) eqn:E; cbn [negb Store.mapGet].
  - apply StringFacts.eqb_eq in E. subst k.
    apply StringFacts.eqb_neq in Hne. rewrite Hne. exact IH.
  - rewrite IH. reflexivity.
Qed.

Lemma mapGet_In {V : Type} (m : list (string * V)) (key : string) (v : V) :
  Store.mapGet m key = Some v -> In (key, v) m.
Proof.
  induction m as [|[k x] m IH]; cbn [Store.mapGet]; [discriminate|].
  destruct (String.eqb k key) eqn:E.
  - apply StringFacts.eqb_eq in E. intros H. injection H as ->. subst k. left. reflexivity.
  - intros H. right. apply IH. exact H.
Qed.

Lemma mapGet_None {V : Type} (m : list (string * V)) (key : string) :
  Store.mapGet m key = None <-> ~ In key (map fst m).
Proof.
  induction m as [|[k x] m IH]; cbn [Store.mapGet map fst In].
  - split; [intros _ []|reflexivity].
  - destruct (String.eqb k key) eqn:E.
    + apply StringFacts.eqb_eq in E. split; [discriminate|].
      intros H. exfalso. apply H. left. exact E.
    + apply StringFacts.eqb_neq in E. rewrite IH. split.
      * intros H [H1|H1]; [exact (E H1)|exact (H H1)].
      * intros H H1. apply H. right. exact H1.
Qed.

(** The keys after [set]: as before when the key is present, one more at the
    end when it is new. *)
Lemma keys_mapSet {V : Type} (m : list (string * V)) (key : string) (v : V) :
  map fst (Store.mapSet m key v)
  = match Store.mapGet m key with
    | Some _ => map fst m
    | None => (map fst m ++ [key])%list
    end.
Proof.
  induction m as [|[k x] m IH]; cbn [Store.mapSet Store.mapGet map fst]; [reflexivity|].
  destruct (String.eqb k key) eqn:E; cbn [map fst]; [reflexivity|].
  rewrite IH. destruct (Store.mapGet m key); reflexivity.
Qed.

Lemma mapSet_In {V : Type} (m : list (string * V)) (key : string) (v : V)
    (entry : string * V) :
  In entry (Store.mapSet m key v) -> entry = (key, v) \/ In entry m.
Proof.
  induction m as [|[k x] m IH]; cbn [Store.mapSet].
  - intros [H|[]]. left. symmetry. exact H.
  - destruct (String.eqb k key) eqn:E.
    + apply StringFacts.eqb_eq in E. subst k. intros [H|H].
      * left. symmetry. exact H.
      * right. right. exact H.
    + intros [H|H].
      * right. left. exact H.
      * destruct (IH H) as [H1|H1]; [left; exact H1|right; right; exact H1].
Qed.

Lemma keys_mapDelete {V : Type} (m : list (string * V)) (key : string) :
  map fst (Store.mapDelete m key)
  = List.filter (fun k => negb (String.eqb k key)) (map fst m).
Proof.
  unfold Store.mapDelete.
  induction m as [|[k x] m IH]; [reflexivity|].
  cbn [List.filter map fst].
  destruct (negb (String.eqb k key)); cbn [map fst]; rewrite IH; reflexivity.
Qed.

(** ** The derived state follows the active profile *)

Lemma append_nonempty (a b : string) : b <> "" -> a ++ b <> "".
Proof.
  intros Hb. destruct a as [|c a]; [exact Hb|discriminate].
Qed.

Lemma profileId_nonempty (file : Store.File) (now : number) :
  Store.fileKeyOf file ++ "-" ++ NumberToString now <> "".
Proof. apply append_nonempty. discriminate. Qed.

Lemma profilesFiled_mapSet (state : Store.State) (key : string)
    (profile : Store.Profile.t) (profiles' : list (string * Store.Profile.t)) :
  profilesFiled state ->
  Store.Profile.id profile = key -> key <> "" ->
  profiles' = Store.mapSet (Store.profiles state) key profile ->
  List.NoDup (map fst profiles')
  /\ List.Forall (fun entry => Store.Profile.id (snd entry) = fst entry /\ fst entry <> "")
       profiles'.
Proof.
  intros [Hnd Hall] Hid Hne ->. split.
  - rewrite keys_mapSet.
    destruct (Store.mapGet (Store.profiles state) key) eqn:Hget; [exact Hnd|].
    apply mapGet_None in Hget.
    apply List.NoDup_app; [exact Hnd|constructor; [intros []|constructor]|].
    intros k Hk [<-|[]]. exact (Hget Hk).
  - apply List.Forall_forall. intros entry Hin.
    destruct (mapSet_In _ _ _ _ Hin) as [->|Hold].
    + split; assumption.
    + rewrite List.Forall_forall in Hall. apply Hall. exact Hold.
Qed.

Lemma profilesFiled_mapDelete (state : Store.State) (key : string)
    (profiles' : list (string * Store.Profile.t)) :
  profilesFiled state ->
  profiles' = Store.mapDelete (Store.profiles state) key ->
  List.NoDup (map fst profiles')
  /\ List.Forall (fun entry => Store.Profile.id (snd entry) = fst entry /\ fst entry <> "")
       profiles'.
Proof.
  intros [Hnd Hall] ->. split.
  - rewrite keys_mapDelete. apply List.NoDup_filter. exact Hnd.
  - unfold Store.mapDelete. apply List.Forall_forall. intros entry Hin.
    apply List.filter_In in Hin. destruct Hin as [Hin _].
    rewrite List.Forall_forall in Hall. apply Hall. exact Hin.
Qed.

Lemma inSync_active (state : Store.State) (active : string) :
  inSync state -> Store.activeProfileId state = Some active ->
  exists profile,
    Store.mapGet (Store.profiles state) active = Some profile /\ mirrors state profile.
Proof. unfold inSync. intros H Ha. rewrite Ha in H. exact H. Qed.

Lemma filed_entry (state : Store.State) (key : string) (profile : Store.Profile.t) :
  profilesFiled state ->
  Store.mapGet (Store.profiles state) key = Some profile ->
  Store.Profile.id profile = key /\ key <> "".
Proof.
  intros [_ Hall] Hget. apply mapGet_In in Hget.
  rewrite List.Forall_forall in Hall. exact (Hall _ Hget).
Qed.

(** An action that replaces the active profile by one with the same [id]
    and makes the derived state mirror it keeps the store in step. *)
Lemma inSync_update (state state' : Store.State) (active : string)
    (profile profile' : Store.Profile.t) :
  profilesFiled state ->
  Store.mapGet (Store.profiles state) active = Some profile ->
  Store.Profile.id profile' = Store.Profile.id profile ->
  Store.profiles state' = Store.mapSet (Store.profiles state) active profile' ->
  Store.activeProfileId state' = Some active ->
  mirrors state' profile' ->
  inSync state' /\ profilesFiled state'.
Proof.
  intros Hfiled Hget Hid Hprofiles Hactive Hmirrors.
  destruct (filed_entry state active profile Hfiled Hget) as [Hkey Hne].
  split.
  - unfold inSync. rewrite Hactive. exists profile'.
    rewrite Hprofiles, mapGet_mapSet_eq. split; [reflexivity|exact Hmirrors].
  - unfold profilesFiled.
    apply (profilesFiled_mapSet state active profile'); [exact Hfiled|congruence|exact Hne|].
    exact Hprofiles.
Qed.

Ltac from_mirrors H :=
  unfold mirrors in H |- *; cbn;
  destruct H as (? & ? & ? & ? & ? & ? & ? & ?);
  repeat split; (reflexivity || assumption).

(** The body that the setters and the row editors share: nothing to do
    without an active profile, an update of the active profile otherwise. *)
Ltac active_profile_update state Hsync active Ha profile Hget Hm :=
  let p0 := fresh "p0" in
  let Hget0 := fresh "Hget0" in
  destruct (Store.activeProfileId state) as [active|] eqn:Ha; [|split; assumption];
  destruct (String.eqb active ""); [split; assumption|];
  destruct (inSync_active state active Hsync Ha) as (p0 & Hget0 & Hm);
  destruct (Store.mapGet (Store.profiles state) active) as [profile|] eqn:Hget;
    [|discriminate];
  injection Hget0 as <-.

Lemma deleteProfile_keeps_sync (profileId : string) (state : Store.State) :
  inSync state -> profilesFiled state ->
  inSync (Store.deleteProfile profileId state)
  /\ profilesFiled (Store.deleteProfile profileId state).
Proof.
  intros Hsync Hfiled.
  pose proof (profilesFiled_mapDelete state profileId _ Hfiled eq_refl) as Hfiled'.
  unfold Store.deleteProfile.
  destruct (Store.isActive state profileId) eqn:Hact.
  - destruct (Store.mapDelete (Store.profiles state) profileId) as [|[first p] rest] eqn:Hdel.
    + cbn [map]. split; [|exact Hfiled'].
      unfold inSync. cbn. split; [reflexivity|]. unfold mirrors. cbn. repeat split.
    + cbn [map fst].
      assert (Hfirst : first <> "").
      { destruct Hfiled' as [_ Hall]. inversion Hall as [|? ? [_ Hne] _]. exact Hne. }
      apply StringFacts.eqb_neq in Hfirst. rewrite Hfirst.
      cbn [Store.mapGet]. rewrite StringFacts.eqb_refl.
      split; [|exact Hfiled'].
      unfold inSync. cbn. rewrite StringFacts.eqb_refl. exists p.
      split; [reflexivity|]. unfold mirrors. cbn. repeat split.
  - split; [|exact Hfiled'].
    unfold inSync in *. cbn. unfold Store.isActive in Hact.
    destruct (Store.activeProfileId state) as [active|].
    + apply StringFacts.eqb_neq in Hact.
      destruct Hsync as (p & Hget & Hm). exists p.
      rewrite mapGet_mapDelete_ne by congruence.
      split; [exact Hget|]. from_mirrors Hm.
    + destruct Hsync as [Hnil Hm]. rewrite Hnil. split; [reflexivity|]. from_mirrors Hm.
Qed.

Lemma perform_keeps_sync (state : Store.State) (a : action) :
  inSync state -> profilesFiled state ->
  inSync (perform state a) /\ profilesFiled (perform state a).
Proof.
  intros Hsync Hfiled.
  destruct a as [file now created|profileId|profileId| | |columns|column|method threshold
                 |section tab|groupId|indices|indices]; cbn [perform].
  - (* createProfile *)
    unfold Store.createProfile. cbn [fst]. split.
    + unfold inSync. cbn. rewrite mapGet_mapSet_eq. eexists. split; [reflexivity|].
      unfold mirrors. cbn. repeat split.
    + unfold profilesFiled. cbn [Store.profiles].
      apply (profilesFiled_mapSet state
               (Store.fileKeyOf file ++ "-" ++ NumberToString now)
               (Store.createDefaultProfile
                  (Store.fileKeyOf file ++ "-" ++ NumberToString now)
                  (Some file) "" 0%float created) _ Hfiled);
        [reflexivity|apply profileId_nonempty|reflexivity].
  - (* switchProfile *)
    unfold Store.switchProfile.
    destruct (Store.mapGet (Store.profiles state) profileId) as [profile|] eqn:Hget;
      cbn [fst]; [|split; assumption].
    split; [|exact Hfiled].
    unfold inSync. cbn. rewrite Hget. exists profile. split; [reflexivity|].
    unfold mirrors. cbn. repeat split.
  - (* deleteProfile *)
    apply deleteProfile_keeps_sync; assumption.
  - (* clearFile *)
    unfold Store.clearFile.
    destruct (Store.activeProfileId state) as [active|]; [|split; assumption].
    destruct (String.eqb active ""); cbn [fst]; [split; assumption|].
    apply deleteProfile_keeps_sync; assumption.
  - (* clearAllFiles *)
    cbn. split.
    + unfold inSync. cbn. split; [reflexivity|]. unfold mirrors. cbn. repeat split.
    + split; constructor.
  - (* setDuplicatesColumns *)
    unfold Store.setDuplicatesColumns. active_profile_update state Hsync active Ha profile Hget Hm.
    eapply (inSync_update state _ active profile);
      [exact Hfiled|exact Hget| |reflexivity|(exact Ha || reflexivity)| ];
      [reflexivity|from_mirrors Hm].
  - (* setOutliersColumn *)
    unfold Store.setOutliersColumn. active_profile_update state Hsync active Ha profile Hget Hm.
    eapply (inSync_update state _ active profile);
      [exact Hfiled|exact Hget| |reflexivity|(exact Ha || reflexivity)| ];
      [reflexivity|from_mirrors Hm].
  - (* setOutliersMethod *)
    unfold Store.setOutliersMethod. active_profile_update state Hsync active Ha profile Hget Hm.
    eapply (inSync_update state _ active profile);
      [exact Hfiled|exact Hget| |reflexivity|(exact Ha || reflexivity)| ];
      [reflexivity|from_mirrors Hm].
  - (* setActiveTab *)
    unfold Store.setActiveTab. active_profile_update state Hsync active Ha profile Hget Hm.
    destruct (String.eqb section "duplicates");
      [|destruct (String.eqb section "outliers")].
    + eapply (inSync_update state _ active profile);
      [exact Hfiled|exact Hget| |reflexivity|(exact Ha || reflexivity)| ];
      [reflexivity|from_mirrors Hm].
    + eapply (inSync_update state _ active profile);
      [exact Hfiled|exact Hget| |reflexivity|(exact Ha || reflexivity)| ];
      [reflexivity|from_mirrors Hm].
    + split; [|exact Hfiled].
      unfold inSync. cbn. rewrite Ha, Hget. exists profile. split; [reflexivity|].
      from_mirrors Hm.
  - (* setExpandedGroup *)
    unfold Store.setExpandedGroup. active_profile_update state Hsync active Ha profile Hget Hm.
    eapply (inSync_update state _ active profile);
      [exact Hfiled|exact Hget| |reflexivity|(exact Ha || reflexivity)| ];
      [reflexivity|from_mirrors Hm].
  - (* removeDuplicates *)
    unfold Store.removeDuplicates. active_profile_update state Hsync active Ha profile Hget Hm.
    destruct (orTable _ _) as [data|]; [|split; assumption].
    eapply (inSync_update state _ active profile);
      [exact Hfiled|exact Hget| |reflexivity|(exact Ha || reflexivity)| ];
      [reflexivity|from_mirrors Hm].
  - (* removeOutliers *)
    unfold Store.removeOutliers. active_profile_update state Hsync active Ha profile Hget Hm.
    destruct (orTable _ _) as [data|]; [|split; assumption].
    eapply (inSync_update state _ active profile);
      [exact Hfiled|exact Hget| |reflexivity|(exact Ha || reflexivity)| ];
      [reflexivity|from_mirrors Hm].
Qed.


Lemma performAll_keeps_sync (actions : list action) (state : Store.State) :
  inSync state -> profilesFiled state ->
  inSync (performAll actions state) /\ profilesFiled (performAll actions state).
Proof.
  unfold performAll. revert state.
  induction actions as [|a actions IH]; intros state Hsync Hfiled; cbn [fold_left].
  - split; assumption.
  - destruct (perform_keeps_sync state a Hsync Hfiled) as [Hs Hf]. apply IH; assumption.
Qed.

Lemma initialState_in_sync : inSync Store.initialState /\ profilesFiled Store.initialState.
Proof.
  split.
  - unfold inSync. cbn. split; [reflexivity|]. unfold mirrors. cbn. repeat split.
  - split; constructor.
Qed.

Lemma twoProfiles_filed : profilesFiled twoProfiles.
Proof.
  apply performAll_keeps_sync; apply initialState_in_sync.
Defined.

(** ** Deleting a profile *)

(** X14. Deleting the active profile activates the first of the remaining
    profiles in the order in which they were created, and the derived
    fields become those of that profile; when none remains, no profile is
    active and the derived fields are the defaults.  The deleted profile is
    gone; the loading flag and the error are not touched. *)
Theorem delete_active_profile (profileId : string) (state : Store.State) :
  profilesFiled state ->
  Store.activeProfileId state = Some profileId ->
  let state' := Store.deleteProfile profileId state in
  Store.profiles state' = Store.mapDelete (Store.profiles state) profileId
  /\ Store.mapGet (Store.profiles state') profileId = None
  /\ Store.isLoading state' = Store.isLoading state
  /\ Store.error state' = Store.error state
  /\ match Store.profiles state' with
     | (first, profile) :: _ =>
         Store.activeProfileId state' = Some first /\ mirrors state' profile
     | [] =>
         Store.activeProfileId state' = None
         /\ derivedOf state' = derivedOf Store.initialState
     end.
Proof.
  intros Hfiled Hactive state'. subst state'.
  pose proof (profilesFiled_mapDelete state profileId _ Hfiled eq_refl) as [_ Hall].
  pose proof (mapGet_mapDelete_eq (Store.profiles state) profileId) as Hgone.
  unfold Store.deleteProfile, Store.isActive. rewrite Hactive, StringFacts.eqb_refl.
  destruct (Store.mapDelete (Store.profiles state) profileId) as [|[first p] rest].
  - cbn. repeat split.
  - cbn [map fst].
    assert (Hfirst : first <> "") by (inversion Hall as [|? ? [_ Hne] _]; exact Hne).
    apply StringFacts.eqb_neq in Hfirst. rewrite Hfirst.
    cbn [Store.mapGet]. rewrite StringFacts.eqb_refl. cbn.
    split; [reflexivity|]. split; [exact Hgone|].
    split; [reflexivity|]. split; [reflexivity|].
    split; [reflexivity|]. unfold mirrors. cbn. repeat split.
Qed.

Lemma delete_active_profile_witness :
  Store.activeProfileId twoProfiles = Some "b.csv-20-2000"
  /\ let state' := Store.deleteProfile "b.csv-20-2000" twoProfiles in
     Store.profiles state' = Store.mapDelete (Store.profiles twoProfiles) "b.csv-20-2000"
     /\ Store.mapGet (Store.profiles state') "b.csv-20-2000" = None
     /\ Store.isLoading state' = Store.isLoading twoProfiles
     /\ Store.error state' = Store.error twoProfiles
     /\ match Store.profiles state' with
        | (first, profile) :: _ =>
            Store.activeProfileId state' = Some first /\ mirrors state' profile
        | [] =>
            Store.activeProfileId state' = None
            /\ derivedOf state' = derivedOf Store.initialState
        end.
Proof.
  assert (Hactive : Store.activeProfileId twoProfiles = Some "b.csv-20-2000")
    by (vm_compute; reflexivity).
  split; [exact Hactive|].
  exact (delete_active_profile "b.csv-20-2000" twoProfiles twoProfiles_filed Hactive).
Defined.

(** X15. Deleting a profile that is not the active one (or one that does
    not exist) takes it out of the map and changes nothing else: the active
    profile, the derived fields, the loading flag and the error stay, and
    every other profile is found as before. *)
Theorem delete_inactive_profile (profileId : string) (state : Store.State) :
  Store.activeProfileId state <> Some profileId ->
  let state' := Store.deleteProfile profileId state in
  Store.activeProfileId state' = Store.activeProfileId state
  /\ derivedOf state' = derivedOf state
  /\ Store.isLoading state' = Store.isLoading state
  /\ Store.error state' = Store.error state
  /\ Store.mapGet (Store.profiles state') profileId = None
  /\ (forall other, other <> profileId ->
        Store.mapGet (Store.profiles state') other
        = Store.mapGet (Store.profiles state) other)
  /\ (Store.mapGet (Store.profiles state) profileId = None ->
      Store.profiles state' = Store.profiles state).
Proof.
  intros Hactive state'. subst state'. unfold Store.deleteProfile.
  assert (Hact : Store.isActive state profileId = false).
  { unfold Store.isActive. destruct (Store.activeProfileId state) as [active|]; [|reflexivity].
    apply StringFacts.eqb_neq. congruence. }
  rewrite Hact. cbn.
  split; [reflexivity|]. split; [reflexivity|]. split; [reflexivity|].
  split; [reflexivity|]. split; [apply mapGet_mapDelete_eq|].
  split.
  - intros other Hne. apply mapGet_mapDelete_ne. congruence.
  - intros Hnone. apply mapGet_None in Hnone. unfold Store.mapDelete.
    induction (Store.profiles state) as [|[k p] m IH]; [reflexivity|].
    cbn [List.filter fst]. cbn [map fst In] in Hnone.
    destruct (String.eqb k profileId) eqn:E.
    + apply StringFacts.eqb_eq in E. exfalso. apply Hnone. left. exact E.
    + cbn [negb]. f_equal. apply IH. intros H. apply Hnone. right. exact H.
Qed.

Lemma delete_inactive_profile_witness :
  Store.activeProfileId twoProfiles <> Some "a.csv-10-1000"
  /\ Store.activeProfileId (Store.deleteProfile "a.csv-10-1000" twoProfiles)
     = Store.activeProfileId twoProfiles
  /\ Store.mapGet (Store.profiles (Store.deleteProfile "a.csv-10-1000" twoProfiles))
       "a.csv-10-1000" = None.
Proof.
  assert (Hactive : Store.activeProfileId twoProfiles <> Some "a.csv-10-1000")
    by (vm_compute; intros H; discriminate H).
  split; [exact Hactive|].
  pose proof (delete_inactive_profile "a.csv-10-1000" twoProfiles Hactive)
    as (H1 & _ & _ & _ & H2 & _).
  split; [exact H1|exact H2].
Defined.

(** The two deletions on a store with two profiles. *)
Lemma delete_profile_examples :
  Store.activeProfileId (Store.deleteProfile "b.csv-20-2000" twoProfiles)
  = Some "a.csv-10-1000"
  /\ Store.activeProfileId (Store.deleteProfile "a.csv-10-1000" twoProfiles)
     = Some "b.csv-20-2000"
  /\ map fst (Store.profiles (Store.deleteProfile "a.csv-10-1000" twoProfiles))
     = ["b.csv-20-2000"].
Proof. repeat split; vm_compute; reflexivity. Qed.
